(** * StocksShorts: article ingestion, reconciliation and trending

    A shallow embedding of [server/google-sheets.ts] (class
    [GoogleSheetsService]) and [server/storage.ts] (class [MemStorage]),
    together with the properties of the ingestion pipeline.

    Conventions of the embedding:
    - a JavaScript string is a [string]: a sequence of code units below 256
      (the Latin-1 range), on which [toLowerCase] and [trim] are embedded
      exactly;
    - a JavaScript number holding an integer is a [Z]; [undefined] and [null]
      are [None].  The code's numbers are doubles: they hold an integer
      exactly when it is a safe integer ([JsNum.isSafeInteger]), and the
      arithmetic of [Z] is the arithmetic of the code as long as operands
      and results are safe.  The ids read from a sheet are the only numbers
      of an unbounded size, and the statements that depend on them are
      made for safe ids;
    - a [Map] is an association list in insertion order;
    - [console.log] and [console.error] calls have no effect on any value
      and are left out. *)

From Stdlib Require Import ZArith List Bool Ascii String Lia Permutation Sorted.
Import ListNotations.

Open Scope string_scope.
Open Scope Z_scope.

(** ** JavaScript primitives used by the two classes *)

Module Js.

(** [String.prototype.toLowerCase] on one code unit below 256: the letters
    A-Z and the upper-case letters of the Latin-1 supplement (0xC0-0xDE
    without the multiplication sign 0xD7) move up by 32. *)
Definition lowerChar (c : ascii) : ascii :=
  let n := nat_of_ascii c in
  if ((65 <=? n) && (n <=? 90))%nat then ascii_of_nat (n + 32)
  else if ((192 <=? n) && (n <=? 222) && negb (n =? 215))%nat
       then ascii_of_nat (n + 32)
  else c.

Fixpoint toLowerCase (s : string) : string :=
  match s with
  | EmptyString => EmptyString
  | String c s' => String (lowerChar c) (toLowerCase s')
  end.

(** White space and line terminators below 256: TAB, LF, VT, FF, CR, SP and
    NBSP. *)
Definition isWhiteSpace (c : ascii) : bool :=
  let n := nat_of_ascii c in
  ((n =? 9) || (n =? 10) || (n =? 11) || (n =? 12) || (n =? 13)
   || (n =? 32) || (n =? 160))%nat.

Fixpoint trimStart (s : string) : string :=
  match s with
  | EmptyString => EmptyString
  | String c s' => if isWhiteSpace c then trimStart s' else s
  end.

(** [trimEnd] keeps a character when it is not white space or when something
    that is kept follows it. *)
Fixpoint trimEnd (s : string) : string :=
  match s with
  | EmptyString => EmptyString
  | String c s' =>
      match trimEnd s' with
      | EmptyString => if isWhiteSpace c then EmptyString else String c EmptyString
      | r => String c r
      end
  end.

Definition trim (s : string) : string := trimEnd (trimStart s).

(** [s.includes(sub)]: [sub] occurs in [s] at some position. *)
Fixpoint includes (s sub : string) : bool :=
  prefix sub s
  || match s with
     | EmptyString => false
     | String _ s' => includes s' sub
     end.

(** Truthiness of a string, and [x || d] on strings and on cells that may be
    [undefined]. *)
Definition truthy (s : string) : bool := negb (String.eqb s "").

Definition orElse (s d : string) : string := if truthy s then s else d.

(** [x || null] for a cell: an absent or empty cell becomes [null]. *)
Definition orNull (s : string) : option string :=
  if truthy s then Some s else None.

(** [a && b] used as a condition on two nullable strings. *)
Definition bothTruthy (a b : option string) : bool :=
  match a, b with
  | Some x, Some y => truthy x && truthy y
  | _, _ => false
  end.

Definition optTruthy (a : option string) : bool :=
  match a with Some x => truthy x | None => false end.

(** A nullable string inside a template literal ([undefined] cannot reach
    the places where this is used, they are guarded by a truthiness test). *)
Definition optText (a : option string) : string :=
  match a with Some x => x | None => "null" end.

(** *** [parseInt] with no radix

    Leading white space is skipped, then an optional sign, then an optional
    [0x]/[0X] prefix that selects radix 16, then the longest run of digits.
    No digit at all gives [NaN], embedded as [None].  The digits are
    accumulated exactly in [Z]: the result is the integer the numeral
    denotes.  The number the code gets is the double nearest to it
    ([JsNum.roundToDouble]): the same integer when it is a safe integer,
    and [Infinity] for a numeral of more than 308 digits. *)
Definition digitValue (c : ascii) : option Z :=
  let n := nat_of_ascii c in
  if ((48 <=? n) && (n <=? 57))%nat then Some (Z.of_nat (n - 48))
  else if ((97 <=? n) && (n <=? 122))%nat then Some (Z.of_nat (n - 87))
  else if ((65 <=? n) && (n <=? 90))%nat then Some (Z.of_nat (n - 55))
  else None.

Definition digitIn (radix : Z) (c : ascii) : option Z :=
  match digitValue c with
  | Some d => if d <? radix then Some d else None
  | None => None
  end.

(** Longest run of digits of [s], most significant first: [acc] is the value
    read so far and [seen] tells whether a digit was read. *)
Fixpoint parseDigits (radix : Z) (s : string) (acc : Z) (seen : bool)
  : option Z :=
  match s with
  | EmptyString => if seen then Some acc else None
  | String c s' =>
      match digitIn radix c with
      | Some d => parseDigits radix s' (acc * radix + d) true
      | None => if seen then Some acc else None
      end
  end.

Definition parseInt (input : string) : option Z :=
  let s := trimStart input in
  let '(sign, s1) :=
    match s with
    | String "-" r => (-1, r)
    | String "+" r => (1, r)
    | _ => (1, s)
    end in
  let '(radix, s2) :=
    match s1 with
    | String "0" (String "x" r) => (16, r)
    | String "0" (String "X" r) => (16, r)
    | _ => (10, s1)
    end in
  match parseDigits radix s2 0 false with
  | Some n => Some (sign * n)
  | None => None
  end.

(** [n || d] on the result of [parseInt]: [NaN] and 0 are falsy. *)
Definition numOr (n : option Z) (d : Z) : Z :=
  match n with
  | Some v => if v =? 0 then d else v
  | None => d
  end.

(** [arr[i]] for [i < arr.length] on a literal array of strings. *)
Definition pick (l : list string) (i : nat) : string := nth i l "".

(** [row[i] || ''] is the cell, an absent cell counting as empty. *)
Definition cell (row : list string) (i : nat) : string := nth i row "".

End Js.

(** ** server/google-sheets.ts *)

(** The value a category lookup can return.  [categoryMap] is an object
    literal, so [categoryMap[k]] also finds the properties every object
    inherits from [Object.prototype]; those are functions or objects, never
    strings. *)
Inductive CategoryValue : Type :=
| CatStr (s : string)
| CatInherited (property : string).

(** Names of the properties inherited from [Object.prototype]. *)
Definition inheritedProperties : list string :=
  [ "constructor"; "__defineGetter__"; "__defineSetter__"; "hasOwnProperty";
    "__lookupGetter__"; "__lookupSetter__"; "isPrototypeOf";
    "propertyIsEnumerable"; "toString"; "valueOf"; "__proto__";
    "toLocaleString" ].

(** [categoryMap] of [mapToValidCategory], in source order. *)
Definition categoryMap : list (string * string) :=
  [
    ("global", "global");
    ("world", "global");
    ("international", "global");
    ("us market", "global");
    ("dow", "global");
    ("nasdaq", "global");
    ("s&p", "global");
    ("nifty", "nifty");
    ("market", "nifty");
    ("markets", "nifty");
    ("index", "nifty");
    ("sensex", "nifty");
    ("banknifty", "nifty");
    ("bank nifty", "nifty");
    ("warrant", "warrant");
    ("warrants", "warrant");
    ("call warrant", "warrant");
    ("put warrant", "warrant");
    ("breakout", "breakout");
    ("breakouts", "breakout");
    ("technical", "breakout");
    ("chart", "breakout");
    ("research report", "research_report");
    ("research_report", "research_report");
    ("researchreport", "research_report");
    ("research", "research_report");
    ("report", "research_report");
    ("analysis", "research_report");
    ("analyst", "research_report");
    ("movers", "movers");
    ("mover", "movers");
    ("most active", "movers");
    ("mostactive", "movers");
    ("gainers", "movers");
    ("losers", "movers");
    ("top gainers", "movers");
    ("top losers", "movers");
    ("orderwins", "order_wins");
    ("order wins", "order_wins");
    ("order_wins", "order_wins");
    ("orderwin", "order_wins");
    ("order win", "order_wins");
    ("wins", "order_wins");
    ("deal", "order_wins");
    ("contract", "order_wins");
    ("ath", "ath");
    ("all time high", "ath");
    ("all-time high", "ath");
    ("record high", "ath");
    ("new high", "ath");
    ("results", "results");
    ("result", "results");
    ("earnings", "results");
    ("quarterly", "results");
    ("q1", "results");
    ("q2", "results");
    ("q3", "results");
    ("q4", "results");
    ("ipo", "ipo");
    ("ipos", "ipo");
    ("initial public offering", "ipo");
    ("public offering", "ipo");
    ("listing", "ipo");
    ("sme ipo", "sme ipo");
    ("smeipo", "sme ipo");
    ("sme", "sme ipo");
    ("small medium enterprises", "sme ipo");
    ("mcx", "others");
    ("commodity", "others");
    ("commodities", "others");
    ("gold", "others");
    ("silver", "others");
    ("crude", "others");
    ("oil", "others");
    ("others", "others");
    ("other", "others");
    ("general", "others");
    ("news", "others");
    ("policy", "others");
    ("rbi", "others");
    ("government", "others")
  ].

Definition isInherited (k : string) : bool :=
  existsb (String.eqb k) inheritedProperties.

(** Own-property lookup in an object literal given as an association list. *)
Fixpoint ownProperty (m : list (string * string)) (k : string)
  : option string :=
  match m with
  | [] => None
  | (k', v) :: m' => if String.eqb k k' then Some v else ownProperty m' k
  end.

(** [categoryMap[rawCategory]]: own properties first, then the prototype. *)
Definition categoryLookup (rawCategory : string) : option CategoryValue :=
  match ownProperty categoryMap rawCategory with
  | Some v => Some (CatStr v)
  | None =>
      if isInherited rawCategory then Some (CatInherited rawCategory)
      else None
  end.

(** The loop over [Object.entries(categoryMap)]: the first entry whose key
    is contained in [rawCategory] or contains it. *)
Fixpoint partialMatch (m : list (string * string)) (rawCategory : string)
  : option string :=
  match m with
  | [] => None
  | (key, value) :: m' =>
      if Js.includes rawCategory key || Js.includes key rawCategory
      then Some value
      else partialMatch m' rawCategory
  end.

Definition mapToValidCategory (rawCategory : string) : CategoryValue :=
  match categoryLookup rawCategory with
  | Some v => v
  | None =>
      match partialMatch categoryMap rawCategory with
      | Some value => CatStr value
      | None => CatStr "others"
      end
  end.

(** The two lines of [fetchArticles] that normalise the category cell. *)
Definition normalizeCategory (cellText : string) : CategoryValue :=
  mapToValidCategory (Js.trim (Js.toLowerCase cellText)).

(** How a category value prints inside a template literal. *)
Definition catText (c : CategoryValue) : string :=
  match c with
  | CatStr s => s
  | CatInherited p =>
      if String.eqb p "__proto__" then "[object Object]"
      else if String.eqb p "constructor"
           then "function Object() { [native code] }"
      else "function " ++ p ++ "() { [native code] }"
  end.

(** [article.category === c] for a string [c]. *)
Definition catIs (v : CategoryValue) (c : string) : bool :=
  match v with
  | CatStr s => String.eqb s c
  | CatInherited _ => false
  end.

(** An [Article] as the two classes build it ([shared/schema.ts] plus the
    [priceTarget] and [viewCount] properties they add).  [createdAt] is the
    millisecond time stamp of the [Date]; [viewCount] is [None] while the
    property is absent. *)
Record Article : Type := mkArticle {
  id : Z;
  title : string;
  content : string;
  category : CategoryValue;
  stockSymbol : option string;
  stockPrice : option string;
  priceChange : option string;
  exchange : option string;
  timeAgo : string;
  isPremium : bool;
  createdAt : Z;
  source : option string;
  sentiment : option string;
  priceTarget : option string;
  imageUrl : string;
  viewCount : option Z
}.

Definition setContent (a : Article) (c : string) : Article :=
  mkArticle (id a) (title a) c (category a) (stockSymbol a) (stockPrice a)
    (priceChange a) (exchange a) (timeAgo a) (isPremium a) (createdAt a)
    (source a) (sentiment a) (priceTarget a) (imageUrl a) (viewCount a).

Definition setViewCount (a : Article) (v : option Z) : Article :=
  mkArticle (id a) (title a) (content a) (category a) (stockSymbol a)
    (stockPrice a) (priceChange a) (exchange a) (timeAgo a) (isPremium a)
    (createdAt a) (source a) (sentiment a) (priceTarget a) (imageUrl a) v.

Definition setImageUrl (a : Article) (u : string) : Article :=
  mkArticle (id a) (title a) (content a) (category a) (stockSymbol a)
    (stockPrice a) (priceChange a) (exchange a) (timeAgo a) (isPremium a)
    (createdAt a) (source a) (sentiment a) (priceTarget a) u (viewCount a).

(** What [getArticleImage] is given: the fields section 4.3 of the
    specification lets it read.  [createArticle] passes no [id]. *)
Record ImageRequest : Type := mkImageRequest {
  imgId : option Z;
  imgTitle : string;
  imgContent : string;
  imgCategory : CategoryValue;
  imgStockSymbol : option string
}.

(** [contentTemplates[category] || contentTemplates.default] of
    [generateUniqueContent], for the values [mapToValidCategory] returns. *)
Definition contentTemplates (title categoryText : string)
  (category : CategoryValue) : list string :=
  if catIs category "nifty" then
    [ title ++ " reflects the current market sentiment with significant trading activity. The index movement indicates strong investor confidence amid favorable market conditions.";
      "Market analysts are closely watching " ++ title ++ " as it impacts broader market trends. Technical indicators suggest continued momentum in the " ++ categoryText ++ " segment.";
      title ++ " represents a key development in the equity markets. Institutional investors are showing increased interest in this market segment." ]
  else if catIs category "trending" then
    [ title ++ " has caught the attention of market participants today. This development could influence sector-wide performance and investor sentiment.";
      "Breaking: " ++ title ++ " is making headlines across financial markets. Expert analysis suggests this could be a significant market catalyst.";
      title ++ " emerges as a key market story with potential long-term implications for investors and traders." ]
  else if catIs category "breakout" then
    [ title ++ " represents a significant breakout pattern in technical analysis. Chart patterns indicate potential for continued upward momentum.";
      "Technical breakout alert: " ++ title ++ " has crossed key resistance levels. Volume analysis supports the sustainability of this move.";
      title ++ " shows strong breakout characteristics with robust trading volumes. This could signal the beginning of a new trend." ]
  else if catIs category "research_report" then
    [ "Latest research report highlights: " ++ title ++ ". Detailed fundamental analysis reveals key investment insights and recommendations.";
      title ++ " - Comprehensive research analysis covering financial metrics, growth prospects, and market positioning.";
      "Research update: " ++ title ++ " provides in-depth sector analysis and stock-specific recommendations for informed investment decisions." ]
  else
    [ title ++ " represents an important development in the financial markets. Market dynamics and investor sentiment continue to evolve.";
      title ++ " captures current market attention with significant implications for sector performance and trading strategies.";
      "Latest update: " ++ title ++ " reflects ongoing market trends and provides insights into current investment opportunities." ].

Definition marketInsights : list string :=
  [ "Trading volumes remain robust with sustained institutional interest.";
    "Market volatility presents both opportunities and challenges for investors.";
    "Sectoral rotation continues as investors seek value across different segments.";
    "Risk-on sentiment prevails amid favorable macroeconomic conditions.";
    "Technical charts indicate potential for further momentum in this direction." ].

(** [generateUniqueContent] of [GoogleSheetsService].  The stock arguments
    are raw cells, an absent cell being the empty string. *)
Definition generateUniqueContent (title : string) (category : CategoryValue)
  (stockSymbol stockPrice priceChange : string) (articleIndex : nat)
  : string :=
  let templates := contentTemplates title (catText category) category in
  let baseContent :=
    Js.pick templates (articleIndex mod List.length templates) in
  let insight :=
    Js.pick marketInsights (articleIndex mod List.length marketInsights) in
  let stockDetails :=
    if Js.truthy stockSymbol && Js.truthy stockPrice then
      " " ++ stockSymbol ++ " is currently trading at " ++ stockPrice
      ++ (if Js.truthy priceChange
          then " with a movement of " ++ priceChange else "")
      ++ " in the current trading session."
    else "" in
  baseContent ++ " " ++ insight ++ stockDetails
  ++ " Market participants continue to monitor these developments for strategic positioning.".

(** The filter of [fetchArticles]:
    [row.length >= 3 && row[0] && row[1]]. *)
Definition usableRow (row : list string) : bool :=
  (3 <=? List.length row)%nat
  && Js.truthy (Js.cell row 0) && Js.truthy (Js.cell row 1).

Definition isGenericContent (content : string) : bool :=
  Js.includes content "Domestic indices extended gains"
  || Js.includes content "Technical analysts highlight"
  || String.eqb (Js.trim content) "".

(** [arr.map((x, index) => f x index)], counting from [start]. *)
Fixpoint mapIndexFrom {A B : Type} (f : A -> nat -> B) (start : nat)
  (l : list A) : list B :=
  match l with
  | [] => []
  | x :: l' => f x start :: mapIndexFrom f (S start) l'
  end.

Definition mapIndex {A B : Type} (f : A -> nat -> B) (l : list A) : list B :=
  mapIndexFrom f 0 l.

(** The result of an asynchronous call: the promise resolves with a value
    or rejects. *)
Inductive Outcome (A : Type) : Type :=
| Returned (value : A)
| Threw (error : string).
Arguments Returned {A} value.
Arguments Threw {A} error.

(** What [sheets.spreadsheets.values.get] does when it is awaited: it
    rejects, or it resolves with [response.data.values], which is absent for
    an empty range. *)
Definition SheetsResponse : Type := Outcome (option (list (list string))).

Section Pipeline.

(** [getArticleImage] of [server/image-logic.ts], taken in this section as
    a function that returns: the section gives the two classes on the
    sheets on which the call returns for every usable row.
    [ImageLogic.getArticleImage] below embeds its text, and the module
    [Wired] puts it in place, with the rows on which it throws. *)
Variable getArticleImage : ImageRequest -> string.

(** [rowTime k] is what [new Date()] reads while row [k] is mapped. *)
Variable rowTime : nat -> Z.

(** The callback of [rows.filter(...).map(...)]. *)
Definition mapRow (row : list string) (index : nat) : Article :=
  let rawCategory := Js.trim (Js.toLowerCase (Js.cell row 3)) in
  let cat := mapToValidCategory rawCategory in
  let content0 := Js.cell row 2 in
  let content1 :=
    if isGenericContent content0
    then generateUniqueContent (Js.orElse (Js.cell row 1) "Untitled") cat
           (Js.cell row 4) (Js.cell row 5) (Js.cell row 6) index
    else content0 in
  let articleData :=
    {| id := Js.numOr (Js.parseInt (Js.cell row 0)) (Z.of_nat index + 1);
       title := Js.orElse (Js.cell row 1) "Untitled";
       content := content1;
       category := cat;
       stockSymbol := Js.orNull (Js.cell row 4);
       stockPrice := Js.orNull (Js.cell row 5);
       priceChange := Js.orNull (Js.cell row 6);
       exchange := Js.orNull (Js.cell row 7);
       timeAgo := Js.orElse (Js.cell row 9) "Just now";
       isPremium := String.eqb (Js.toLowerCase (Js.cell row 10)) "true";
       createdAt := rowTime index;
       source := Js.orNull (Js.cell row 11);
       sentiment := Js.orNull (Js.cell row 13);
       priceTarget := Js.orNull (Js.cell row 12);
       imageUrl := "";
       viewCount := None |} in
  setImageUrl articleData
    (getArticleImage
       {| imgId := Some (id articleData);
          imgTitle := title articleData;
          imgContent := content articleData;
          imgCategory := category articleData;
          imgStockSymbol := stockSymbol articleData |}).

Definition mapRows (rows : list (list string)) : list Article :=
  mapIndex mapRow (filter usableRow rows).

(** [fetchArticles]: the whole body is inside [try], and the [catch] returns
    the empty array, so the promise always resolves. *)
Definition fetchArticles (response : SheetsResponse)
  : Outcome (list Article) :=
  match response with
  | Returned values =>
      let rows := match values with Some r => r | None => [] end in
      Returned (mapRows rows)
  | Threw _ => Returned []
  end.

End Pipeline.

(** ** server/storage.ts *)

(** A JavaScript [Map] with number keys: its entries in insertion order,
    which is the order [Array.from(this.articles.values())] hands to the
    stable sort.  [set] on a key already present replaces the value where
    it stands. *)
Module JsMap.

Definition t (V : Type) : Type := list (Z * V).

Definition clear {V : Type} : t V := [].

Fixpoint get {V : Type} (k : Z) (m : t V) : option V :=
  match m with
  | [] => None
  | (k', v) :: m' => if k =? k' then Some v else get k m'
  end.

Fixpoint set {V : Type} (k : Z) (v : V) (m : t V) : t V :=
  match m with
  | [] => [(k, v)]
  | (k', v') :: m' =>
      if k =? k' then (k, v) :: m' else (k', v') :: set k v m'
  end.

Definition keys {V : Type} (m : t V) : list Z := map fst m.

Definition values {V : Type} (m : t V) : list V := map snd m.

Definition size {V : Type} (m : t V) : nat := List.length m.

End JsMap.

(** [Array.prototype.sort(cmp)]: the sort is stable, and for a consistent
    comparator its result is fixed by that; it is embedded as the stable
    insertion sort.  [x] goes in front of the first element it does not
    have to follow. *)
Fixpoint insertSorted {A : Type} (cmp : A -> A -> Z) (x : A) (l : list A)
  : list A :=
  match l with
  | [] => [x]
  | y :: l' =>
      if 0 <? cmp x y then y :: insertSorted cmp x l' else x :: y :: l'
  end.

Definition sortWith {A : Type} (cmp : A -> A -> Z) (l : list A) : list A :=
  fold_right (insertSorted cmp) [] l.

Record GoogleSheetsService : Type := mkService {
  spreadsheetId : string;
  sheetName : string
}.

(** The fields of [MemStorage] that the article methods read or write (the
    bookmark map and its counter are untouched by them). *)
Record MemStorage : Type := mkStorage {
  articles : JsMap.t Article;
  currentArticleId : Z;
  googleSheets : option GoogleSheetsService;
  lastSyncTime : Z
}.

(** [syncInterval]: two minutes in milliseconds. *)
Definition syncInterval : Z := 2 * 60 * 1000.

Definition contentVariations (title categoryText : string) : list string :=
  [ title ++ " - Market analysis reveals significant developments in the " ++ categoryText ++ " sector. ";
    "Breaking: " ++ title ++ " has emerged as a key market story today. ";
    title ++ " represents important movements in current market dynamics. ";
    "Latest update on " ++ title ++ " shows evolving trends in the " ++ categoryText ++ " space. ";
    title ++ " captures investor attention with notable market implications. " ].

Definition additionalInsights : list string :=
  [ "Technical indicators suggest continued momentum with strong volume support.";
    "Fundamental analysis reveals robust growth prospects and market positioning.";
    "Institutional activity indicates sustained interest from major market participants.";
    "Sector rotation patterns highlight potential opportunities for strategic investors.";
    "Market sentiment remains positive with favorable risk-reward dynamics." ].

Definition closingSentence : string :=
  " Traders and investors are monitoring these developments for potential market opportunities.".

(** [generateUniqueArticleContent] of [MemStorage]. *)
Definition generateUniqueArticleContent (title : string)
  (category : CategoryValue) (stockSymbol stockPrice priceChange : option string)
  (index : nat) : string :=
  let variations := contentVariations title (catText category) in
  let baseContent := Js.pick variations (index mod List.length variations) in
  let insight :=
    Js.pick additionalInsights (index mod List.length additionalInsights) in
  let stockDetails :=
    if Js.bothTruthy stockSymbol stockPrice then
      " " ++ Js.optText stockSymbol ++ " is currently trading at "
      ++ Js.optText stockPrice
      ++ (if Js.optTruthy priceChange
          then " showing " ++ Js.optText priceChange ++ " movement" else "")
      ++ " in the current session."
    else "" in
  baseContent ++ insight ++ stockDetails ++ closingSentence.

(** State of the [forEach] of [syncFromGoogleSheets] between two
    iterations.  [processed] holds the elements of [sheetsArticles] already
    visited, as the iteration left them: the loop assigns to the objects of
    the array, and later iterations read them back. *)
Record SyncLoop : Type := mkLoop {
  processed : list Article;
  store : JsMap.t Article;
  nextId : Z
}.

(** [article.content] is seen as duplicate when an earlier element of the
    array carries the same content and that content is not blank. *)
Definition isDuplicateContent (earlier : list Article) (article : Article)
  : bool :=
  (0 <? List.length earlier)%nat
  && existsb
       (fun otherArticle =>
          String.eqb (content otherArticle) (content article)
          && negb (String.eqb (Js.trim (content article)) ""))
       earlier.

Definition needsNewContent (earlier : list Article) (article : Article)
  : bool :=
  negb (Js.truthy (content article))
  || String.eqb (Js.trim (content article)) ""
  || isDuplicateContent earlier article.

(** The first half of an iteration: the content is replaced when it is
    empty, blank or a duplicate; [index] is the position in the array. *)
Definition withUniqueContent (earlier : list Article) (article : Article)
  : Article :=
  let index := List.length earlier in
  if needsNewContent earlier article
  then setContent article
         (generateUniqueArticleContent (title article) (category article)
            (stockSymbol article) (stockPrice article) (priceChange article)
            index)
  else article.

(** The second half: [this.articles.get(article.id)] decides the view
    count. *)
Definition withViewCount (m : JsMap.t Article) (article : Article)
  : Article :=
  setViewCount article
    (match JsMap.get (id article) m with
     | Some existingArticle => Some (Js.numOr (viewCount existingArticle) 0)
     | None => Some 0
     end).

(** One iteration of the [forEach], for the element at index
    [length (processed l)].  [article.id + 1] is the sum of [Z], which is
    the number of the code for an id that is a safe integer. *)
Definition syncStep (l : SyncLoop) (article : Article) : SyncLoop :=
  let article' :=
    withViewCount (store l) (withUniqueContent (processed l) article) in
  {| processed := (processed l ++ [article'])%list;
     store := JsMap.set (id article') article' (store l);
     nextId :=
       if nextId l <=? id article' then id article' + 1 else nextId l |}.

(** The body of the [if (sheetsArticles.length > 0)]: the map is cleared and
    the counter reset before the loop runs. *)
Definition syncLoop (sheetsArticles : list Article) : SyncLoop :=
  fold_left syncStep sheetsArticles
    {| processed := []; store := JsMap.clear; nextId := 1 |}.

(** [syncFromGoogleSheets] once [fetchArticles] has settled.  A rejection is
    caught by the [catch] around the whole body. *)
Definition syncWith (fetched : Outcome (list Article)) (dateNow : Z)
  (st : MemStorage) : MemStorage :=
  match fetched with
  | Threw _ => st
  | Returned sheetsArticles =>
      if (0 <? List.length sheetsArticles)%nat then
        let l := syncLoop sheetsArticles in
        {| articles := store l;
           currentArticleId := nextId l;
           googleSheets := googleSheets st;
           lastSyncTime := dateNow |}
      else st
  end.

(** What a call to a storage method meets outside the storage: the answer
    of the spreadsheet service, the clock while rows are mapped, and
    [Date.now()] at the end of the sync. *)
Record World : Type := mkWorld {
  response : SheetsResponse;
  rowTime : nat -> Z;
  dateNow : Z
}.

(** The fields of [InsertArticle] that [createArticle] reads. *)
Record InsertArticle : Type := mkInsertArticle {
  insTitle : string;
  insContent : string;
  insCategory : string;
  insTimeAgo : string;
  insStockSymbol : option string;
  insStockPrice : option string;
  insPriceChange : option string;
  insExchange : option string
}.

(** [a.viewCount || 0]. *)
Definition views (a : Article) : Z := Js.numOr (viewCount a) 0.

(** The comparator of [getTrendingArticles]. *)
Definition compareByViews (a b : Article) : Z :=
  let viewCountA := views a in
  let viewCountB := views b in
  if negb (viewCountA =? viewCountB) then viewCountB - viewCountA
  else createdAt b - createdAt a.

(** The comparator [(a, b) => b.createdAt.getTime() - a.createdAt.getTime()]. *)
Definition compareByDate (a b : Article) : Z := createdAt b - createdAt a.

Definition inCategory (c : string) (a : Article) : bool :=
  catIs (category a) c.

Definition inNoneOf (cs : list string) (a : Article) : bool :=
  negb (existsb (catIs (category a)) cs).

Definition trendingCategories : list string :=
  [ "nifty"; "breakout"; "ipo"; "research_report"; "movers" ].

Definition sortedByViews (st : MemStorage) : list Article :=
  sortWith compareByViews (JsMap.values (articles st)).

Definition diverseContent (remainingArticles : list Article) : list Article :=
  firstn 2 (filter (inCategory "nifty") remainingArticles)
  ++ firstn 2 (filter (inCategory "breakout") remainingArticles)
  ++ firstn 2 (filter (inCategory "ipo") remainingArticles)
  ++ firstn 2 (filter (inCategory "research_report") remainingArticles)
  ++ firstn 2 (filter (inCategory "movers") remainingArticles)
  ++ firstn 5 (filter (inNoneOf trendingCategories) remainingArticles).

Definition getTrendingArticles (st : MemStorage) : list Article :=
  let mostViewed := firstn 15 (sortedByViews st) in
  let remainingArticles := skipn 15 (sortedByViews st) in
  mostViewed ++ diverseContent remainingArticles.

Definition incrementViewCount (articleId : Z) (st : MemStorage) : MemStorage :=
  match JsMap.get articleId (articles st) with
  | Some article =>
      {| articles :=
           JsMap.set articleId (setViewCount article (Some (views article + 1)))
             (articles st);
         currentArticleId := currentArticleId st;
         googleSheets := googleSheets st;
         lastSyncTime := lastSyncTime st |}
  | None => st
  end.

Section Storage.

Variable getArticleImage : ImageRequest -> string.

Definition syncFromGoogleSheets (w : World) (st : MemStorage) : MemStorage :=
  match googleSheets st with
  | None => st
  | Some _ =>
      syncWith (fetchArticles getArticleImage (rowTime w) (response w))
        (dateNow w) st
  end.

Definition forceSyncFromGoogleSheets (w : World) (st : MemStorage)
  : MemStorage :=
  syncFromGoogleSheets w
    {| articles := articles st;
       currentArticleId := currentArticleId st;
       googleSheets := googleSheets st;
       lastSyncTime := 0 |}.

(** [createArticle]; [now] is what [new Date()] reads. *)
Definition createArticle (now : Z) (insertArticle : InsertArticle)
  (st : MemStorage) : MemStorage * Article :=
  let article :=
    {| id := currentArticleId st;
       title := insTitle insertArticle;
       content := insContent insertArticle;
       category := CatStr (insCategory insertArticle);
       stockSymbol := insStockSymbol insertArticle;
       stockPrice := insStockPrice insertArticle;
       priceChange := insPriceChange insertArticle;
       exchange := insExchange insertArticle;
       timeAgo := insTimeAgo insertArticle;
       isPremium := false;
       createdAt := now;
       source := None;
       sentiment := None;
       priceTarget := None;
       imageUrl :=
         getArticleImage
           {| imgId := None;
              imgTitle := insTitle insertArticle;
              imgContent := insContent insertArticle;
              imgCategory := CatStr (insCategory insertArticle);
              imgStockSymbol := insStockSymbol insertArticle |};
       viewCount := None |} in
  ({| articles := JsMap.set (id article) article (articles st);
      currentArticleId := currentArticleId st + 1;
      googleSheets := googleSheets st;
      lastSyncTime := lastSyncTime st |},
   article).

(** [getArticles]: [now] is the [Date.now()] of its first line, [w] is what
    the sync meets if it runs.  The result is the storage after the call
    and the array returned. *)
Definition getArticles (now : Z) (w : World) (category : option string)
  (st : MemStorage) : MemStorage * list Article :=
  let st1 :=
    match googleSheets st with
    | Some _ =>
        if (syncInterval <? now - lastSyncTime st)
           || (JsMap.size (articles st) =? 0)%nat
        then syncFromGoogleSheets w st else st
    | None => st
    end in
  let allArticles := JsMap.values (articles st1) in
  let wanted := match category with Some c => c | None => "" end in
  if Js.truthy wanted && negb (String.eqb wanted "all")
     && negb (String.eqb wanted "trending")
  then (st1, sortWith compareByDate (filter (inCategory wanted) allArticles))
  else if String.eqb wanted "trending" then (st1, getTrendingArticles st1)
  else
    (st1,
     (sortWith compareByDate (filter (inCategory "nifty") allArticles)
     ++ sortWith compareByDate (filter (inCategory "breakout") allArticles)
     ++ sortWith compareByDate (filter (inCategory "ipo") allArticles)
     ++ sortWith compareByDate (filter (inCategory "sme ipo") allArticles)
     ++ sortWith compareByDate (filter (inCategory "warrant") allArticles)
     ++ sortWith compareByDate
          (filter (inNoneOf ["nifty"; "breakout"; "ipo"; "sme ipo"; "warrant"])
             allArticles))%list).

End Storage.

(** ** Notions used in the statements *)

Open Scope list_scope.

(** The article the store holds under [i] when the visited elements are
    [fs]: the last of them that carries this id. *)
Definition lastWithId (i : Z) (fs : list Article) : option Article :=
  find (fun f => id f =? i) (rev fs).

(** What an iteration leaves in the array once the view count is known to
    be 0. *)
Definition settled (earlier : list Article) (a : Article) : Article :=
  setViewCount (withUniqueContent earlier a) (Some 0).

(** The categories the code can produce: the values of [categoryMap] and
    the fallback. *)
Definition validCategories : list string :=
  [ "nifty"; "breakout"; "movers"; "warrant"; "ipo"; "sme ipo"; "order_wins";
    "ath"; "results"; "research_report"; "others"; "global" ]%string.

(** The category set as the specification spells it. *)
Definition specCategories : list string :=
  [ "nifty"; "breakout"; "movers"; "warrant"; "ipo"; "sme_ipo"; "order_wins";
    "ath"; "results"; "research_report"; "others"; "global" ]%string.

(** Membership in [validCategories], as a test. *)
Definition isValid (v : string) : bool :=
  existsb (String.eqb v) validCategories.

(** The code units A-Z, and the strings without any of them. *)
Definition isUpperAscii (c : ascii) : bool :=
  let n := nat_of_ascii c in ((65 <=? n) && (n <=? 90))%nat.

Fixpoint noUpper (s : string) : bool :=
  match s with
  | EmptyString => true
  | String c s' => negb (isUpperAscii c) && noUpper s'
  end.

(** [s.endsWith(suffix)]. *)
Fixpoint endsWith (s suffix : string) : bool :=
  String.eqb s suffix
  || match s with
     | EmptyString => false
     | String _ s' => endsWith s' suffix
     end.

(** [x] may stand before [y] in an array sorted with [cmp]. *)
Definition notAfter {A : Type} (cmp : A -> A -> Z) (x y : A) : Prop :=
  cmp x y <= 0.

(** [a] ranks no later than [b]: more views, or as many and created no
    earlier. *)
Definition ranksNoLater (a b : Article) : Prop :=
  views b < views a \/ (views a = views b /\ createdAt b <= createdAt a).

(** [a] has strictly more views than [b]. *)
Definition moreViews (a b : Article) : Prop := views b < views a.

(** The numbers of [l] are pairwise different, as a test. *)
Fixpoint distinctZ (l : list Z) : bool :=
  match l with
  | [] => true
  | x :: l' => negb (existsb (Z.eqb x) l') && distinctZ l'
  end.

(** ** Concrete runs

    Stand-ins for the collaborators when the code is run on an explicit
    input: one URL for every image and a clock that advances one
    millisecond per row. *)

Definition sampleImage : ImageRequest -> string :=
  fun _ => "https://images.unsplash.com/photo-1611974789855-9c2a0a7236a3?w=800&h=400&fit=crop".

Definition clockFrom (start : Z) : nat -> Z := fun k => start + Z.of_nat k.

Definition sheetsService : GoogleSheetsService :=
  {| spreadsheetId := "sheet-1"; sheetName := "Sheet1" |}.

(** A storage with the service configured and nothing stored yet. *)
Definition emptyStorage : MemStorage :=
  {| articles := JsMap.clear;
     currentArticleId := 1;
     googleSheets := Some sheetsService;
     lastSyncTime := 0 |}.

Definition sheetWith (rows : list (list string)) (start : Z) : World :=
  {| response := Returned (Some rows);
     rowTime := clockFrom start;
     dateNow := start + 1000 |}.

Definition rowSeven : list string :=
  ["7"; "Nifty up"; "Content A"; "nifty"; "NIFTY"; "23000"; "+1%"; "NSE"; "";
   "5 min ago"; "false"; ""; ""; ""].

(** Article 7 is synced once and then viewed 42 times. *)
Definition viewedStorage : MemStorage :=
  Nat.iter 42 (incrementViewCount 7)
    (syncFromGoogleSheets sampleImage (sheetWith [rowSeven] 1000) emptyStorage).

(** The same sheet is then synced again. *)
Definition resyncedStorage : MemStorage :=
  syncFromGoogleSheets sampleImage (sheetWith [rowSeven] 500000) viewedStorage.

(** A warrant row without the premium flag cell, and the same article as
    an insert. *)
Definition warrantRow : list string :=
  ["12"; "HDFC Bank call warrants active"; "Volumes are up 340% today.";
   "warrant"; "HDFCBANK"; "1845.30"; "+2.8%"; "NSE"].

Definition warrantInsert : InsertArticle :=
  {| insTitle := "HDFC Bank call warrants active";
     insContent := "Volumes are up 340% today.";
     insCategory := "warrant";
     insTimeAgo := "Just now";
     insStockSymbol := Some "HDFCBANK"%string;
     insStockPrice := None;
     insPriceChange := None;
     insExchange := None |}.

(** A row with an id and no title. *)
Definition idOnlyRow : list string := ["5"; ""; "Body text"].

(** A row of a sheet that repeats one headline. *)
Definition repeatedRow (rowId body : string) : list string :=
  [rowId; "Nifty up"; body; "nifty"; "NIFTY"; "23000"; "+1%"; "NSE"; "";
   "5 min ago"; "false"; ""; ""; ""].

(** Seven such rows; those at positions 0, 1 and 6 share their content. *)
Definition repeatedHeadlineSheet : list (list string) :=
  [ repeatedRow "1" "Content A"; repeatedRow "2" "Content A";
    repeatedRow "3" "Content B"; repeatedRow "4" "Content C";
    repeatedRow "5" "Content D"; repeatedRow "6" "Content E";
    repeatedRow "7" "Content A" ].

(** A sheet of 20 rows; after the sync, article [k] is viewed
    [7 * k mod 23] times, which gives 20 different view counts. *)
Definition twentyRows : list (list string) :=
  map (fun p : string * string =>
         [fst p; ("Headline " ++ fst p)%string; ("Body of " ++ fst p)%string;
          snd p])
    [ ("1", "nifty"); ("2", "breakout"); ("3", "ipo"); ("4", "movers");
      ("5", "research report"); ("6", "warrant"); ("7", "results");
      ("8", "nifty"); ("9", "breakout"); ("10", "ipo"); ("11", "movers");
      ("12", "ath"); ("13", "global"); ("14", "nifty"); ("15", "gold");
      ("16", "nifty"); ("17", "sme"); ("18", "order wins"); ("19", "ipo");
      ("20", "nifty") ]%string.

Definition twentyStorage : MemStorage :=
  fold_left
    (fun st k =>
       Nat.iter ((7 * k) mod 23) (incrementViewCount (Z.of_nat k)) st)
    (seq 1 20)
    (syncFromGoogleSheets sampleImage (sheetWith twentyRows 1000) emptyStorage).

(** Two rows that carry the same id. *)
Definition sameIdRows : list (list string) :=
  [ ["1"; "First headline"; "First body"; "nifty"];
    ["1"; "Second headline"; "Second body"; "ipo"] ].

(** ** Numbers

    A JavaScript number is a double.  It holds the integer [n] exactly when
    [n] is a safe integer, [Z.abs n <= 2^53 - 1]; a larger integer is held
    by the nearest double, and from about 1.8e308 by [Infinity], which is
    not embedded. *)

Module JsNum.

(** [Number.MAX_SAFE_INTEGER], and [Number.isSafeInteger] on an integer. *)
Definition maxSafeInteger : Z := 2 ^ 53 - 1.

Definition isSafeInteger (n : Z) : bool := Z.abs n <=? maxSafeInteger.

(** The double nearest to the integer [n], for [Z.abs n < 2^1024]: the
    53 leading bits are kept, the rest is rounded to nearest, a tie going
    to the even significand. *)
Definition roundToDouble (n : Z) : Z :=
  let m := Z.abs n in
  if m <? 2 ^ 53 then n
  else
    let ulp := 2 ^ (Z.log2 m - 52) in
    let q := m / ulp in
    let r := m mod ulp in
    let q' :=
      if 2 * r <? ulp then q
      else if ulp <? 2 * r then q + 1
      else if Z.even q then q else q + 1 in
    Z.sgn n * (q' * ulp).

(** [x + y] on two numbers that hold integers. *)
Definition add (x y : Z) : Z := roundToDouble (x + y).

(** [String(n)] for an integer [n >= 0] below 1e21: its decimal numeral,
    written from the last digit backwards in front of [tail]. *)
Fixpoint decimalFrom (fuel : nat) (n : Z) (tail : string) : string :=
  let tail' := String (ascii_of_nat (48 + Z.to_nat (n mod 10))) tail in
  match fuel with
  | O => tail'
  | S fuel' => if n <? 10 then tail' else decimalFrom fuel' (n / 10) tail'
  end.

Definition decimal (n : Z) : string :=
  decimalFrom (Z.to_nat (Z.log2 n)) n "".

End JsNum.

(** ** server/image-logic.ts

    [getArticleImage], imported by both classes; its text stands after the
    routes in [server/routes.ts]. *)

Module ImageLogic.

(** [ToInt32]: a number wrapped into the signed 32-bit range. *)
Definition toInt32 (z : Z) : Z := (z + 2 ^ 31) mod 2 ^ 32 - 2 ^ 31.

(** [a << n] and [a & b] on numbers. *)
Definition shiftLeft (a n : Z) : Z := toInt32 (Z.shiftl (toInt32 a) n).

Definition bitAnd (a b : Z) : Z := Z.land (toInt32 a) (toInt32 b).

Definition charCode (c : ascii) : Z := Z.of_nat (nat_of_ascii c).

(** The reducer of [contentHash]:
    [a = ((a << 5) - a) + b.charCodeAt(0); return a & a]. *)
Definition hashStep (a : Z) (b : ascii) : Z :=
  let a1 := (shiftLeft a 5 - a) + charCode b in
  bitAnd a1 a1.

Definition contentHash (text : string) : Z :=
  fold_left hashStep (list_ascii_of_string text) 0.

Definition marketPool : list string :=
  [ "https://images.pexels.com/photos/6801648/pexels-photo-6801648.jpeg?auto=compress&cs=tinysrgb&w=600&h=400";
    "https://images.pexels.com/photos/3184358/pexels-photo-3184358.jpeg?auto=compress&cs=tinysrgb&w=600&h=400";
    "https://images.pexels.com/photos/590041/pexels-photo-590041.jpeg?auto=compress&cs=tinysrgb&w=600&h=400";
    "https://images.pexels.com/photos/6802042/pexels-photo-6802042.jpeg?auto=compress&cs=tinysrgb&w=600&h=400";
    "https://images.pexels.com/photos/4386464/pexels-photo-4386464.jpeg?auto=compress&cs=tinysrgb&w=600&h=400" ]%string.

Definition bankingPool : list string :=
  [ "https://images.pexels.com/photos/259200/pexels-photo-259200.jpeg?auto=compress&cs=tinysrgb&w=600&h=400";
    "https://images.pexels.com/photos/4386476/pexels-photo-4386476.jpeg?auto=compress&cs=tinysrgb&w=600&h=400";
    "https://images.pexels.com/photos/259027/pexels-photo-259027.jpeg?auto=compress&cs=tinysrgb&w=600&h=400";
    "https://images.pexels.com/photos/6289065/pexels-photo-6289065.jpeg?auto=compress&cs=tinysrgb&w=600&h=400";
    "https://images.pexels.com/photos/4386433/pexels-photo-4386433.jpeg?auto=compress&cs=tinysrgb&w=600&h=400" ]%string.

Definition technologyPool : list string :=
  [ "https://images.pexels.com/photos/3861969/pexels-photo-3861969.jpeg?auto=compress&cs=tinysrgb&w=600&h=400";
    "https://images.pexels.com/photos/3184306/pexels-photo-3184306.jpeg?auto=compress&cs=tinysrgb&w=600&h=400";
    "https://images.pexels.com/photos/3184633/pexels-photo-3184633.jpeg?auto=compress&cs=tinysrgb&w=600&h=400";
    "https://images.pexels.com/photos/4164418/pexels-photo-4164418.jpeg?auto=compress&cs=tinysrgb&w=600&h=400";
    "https://images.pexels.com/photos/4348401/pexels-photo-4348401.jpeg?auto=compress&cs=tinysrgb&w=600&h=400" ]%string.

Definition automotivePool : list string :=
  [ "https://images.pexels.com/photos/3802510/pexels-photo-3802510.jpeg?auto=compress&cs=tinysrgb&w=600&h=400";
    "https://images.pexels.com/photos/170811/pexels-photo-170811.jpeg?auto=compress&cs=tinysrgb&w=600&h=400";
    "https://images.pexels.com/photos/1007410/pexels-photo-1007410.jpeg?auto=compress&cs=tinysrgb&w=600&h=400";
    "https://images.pexels.com/photos/1149137/pexels-photo-1149137.jpeg?auto=compress&cs=tinysrgb&w=600&h=400";
    "https://images.pexels.com/photos/2079246/pexels-photo-2079246.jpeg?auto=compress&cs=tinysrgb&w=600&h=400" ]%string.

Definition energyPool : list string :=
  [ "https://images.pexels.com/photos/2800832/pexels-photo-2800832.jpeg?auto=compress&cs=tinysrgb&w=600&h=400";
    "https://images.pexels.com/photos/356036/pexels-photo-356036.jpeg?auto=compress&cs=tinysrgb&w=600&h=400";
    "https://images.pexels.com/photos/433308/pexels-photo-433308.jpeg?auto=compress&cs=tinysrgb&w=600&h=400";
    "https://images.pexels.com/photos/2800830/pexels-photo-2800830.jpeg?auto=compress&cs=tinysrgb&w=600&h=400";
    "https://images.pexels.com/photos/415974/pexels-photo-415974.jpeg?auto=compress&cs=tinysrgb&w=600&h=400" ]%string.

Definition healthcarePool : list string :=
  [ "https://images.pexels.com/photos/3683074/pexels-photo-3683074.jpeg?auto=compress&cs=tinysrgb&w=600&h=400";
    "https://images.pexels.com/photos/4033148/pexels-photo-4033148.jpeg?auto=compress&cs=tinysrgb&w=600&h=400";
    "https://images.pexels.com/photos/3825368/pexels-photo-3825368.jpeg?auto=compress&cs=tinysrgb&w=600&h=400";
    "https://images.pexels.com/photos/4167541/pexels-photo-4167541.jpeg?auto=compress&cs=tinysrgb&w=600&h=400";
    "https://images.pexels.com/photos/4386466/pexels-photo-4386466.jpeg?auto=compress&cs=tinysrgb&w=600&h=400" ]%string.

Definition retailPool : list string :=
  [ "https://images.pexels.com/photos/264636/pexels-photo-264636.jpeg?auto=compress&cs=tinysrgb&w=600&h=400";
    "https://images.pexels.com/photos/230544/pexels-photo-230544.jpeg?auto=compress&cs=tinysrgb&w=600&h=400";
    "https://images.pexels.com/photos/1005638/pexels-photo-1005638.jpeg?auto=compress&cs=tinysrgb&w=600&h=400";
    "https://images.pexels.com/photos/811101/pexels-photo-811101.jpeg?auto=compress&cs=tinysrgb&w=600&h=400";
    "https://images.pexels.com/photos/2292953/pexels-photo-2292953.jpeg?auto=compress&cs=tinysrgb&w=600&h=400" ]%string.

Definition fintechPool : list string :=
  [ "https://images.pexels.com/photos/919734/pexels-photo-919734.jpeg?auto=compress&cs=tinysrgb&w=600&h=400";
    "https://images.pexels.com/photos/3184360/pexels-photo-3184360.jpeg?auto=compress&cs=tinysrgb&w=600&h=400";
    "https://images.pexels.com/photos/4386467/pexels-photo-4386467.jpeg?auto=compress&cs=tinysrgb&w=600&h=400";
    "https://images.pexels.com/photos/6289025/pexels-photo-6289025.jpeg?auto=compress&cs=tinysrgb&w=600&h=400";
    "https://images.pexels.com/photos/4164418/pexels-photo-4164418.jpeg?auto=compress&cs=tinysrgb&w=600&h=400" ]%string.

Definition tradingPool : list string :=
  [ "https://images.pexels.com/photos/590041/pexels-photo-590041.jpeg?auto=compress&cs=tinysrgb&w=600&h=400";
    "https://images.pexels.com/photos/7567438/pexels-photo-7567438.jpeg?auto=compress&cs=tinysrgb&w=600&h=400";
    "https://images.pexels.com/photos/590016/pexels-photo-590016.jpeg?auto=compress&cs=tinysrgb&w=600&h=400";
    "https://images.pexels.com/photos/6802042/pexels-photo-6802042.jpeg?auto=compress&cs=tinysrgb&w=600&h=400";
    "https://images.pexels.com/photos/3184320/pexels-photo-3184320.jpeg?auto=compress&cs=tinysrgb&w=600&h=400" ]%string.

(** [selectUniqueImage], with the two variables it closes over.  The sum
    is a sum of numbers; [Math.abs] and [%] are exact on the integer it
    gives.  ([articleId] is finite here; on [Infinity] the index would be
    [NaN].) *)
Definition selectUniqueImage (hash articleId : Z) (pool : list string)
  : string :=
  let index :=
    Z.abs (JsNum.add hash articleId) mod Z.of_nat (List.length pool) in
  Js.pick pool (Z.to_nat index).

(** [fullText.includes(k1) || fullText.includes(k2) || ...]. *)
Definition mentions (fullText : string) (keywords : list string) : bool :=
  existsb (Js.includes fullText) keywords.

(** [getArticleImage].  [article.category] is the only field that can hold
    something else than a string or [null]: on a value inherited from
    [Object.prototype] the call of [toLowerCase] throws a [TypeError]. *)
Definition getArticleImage (article : ImageRequest) : Outcome string :=
  match imgCategory article with
  | CatInherited _ => Threw "TypeError: toLowerCase is not a function"
  | CatStr categoryText =>
      let title := Js.toLowerCase (imgTitle article) in
      let content := Js.toLowerCase (imgContent article) in
      let category := Js.toLowerCase categoryText in
      let stockSymbol :=
        Js.toLowerCase
          (match imgStockSymbol article with Some s => s | None => "" end) in
      let articleId := Js.numOr (imgId article) 1 in
      let hash := contentHash (title ++ content ++ stockSymbol) in
      let fullText := (title ++ " " ++ content)%string in
      Returned
        (if mentions fullText ["nifty"; "sensex"; "index"; "market"]%string
         then selectUniqueImage hash articleId marketPool
         else if mentions fullText
                   ["bank"; "hdfc"; "sbi"; "icici"; "kotak"; "axis"]%string
         then selectUniqueImage hash articleId bankingPool
         else if mentions fullText
                   ["tcs"; "infosys"; "wipro"; "tech"; "software"; "it ";
                    "digital"]%string
         then selectUniqueImage hash articleId technologyPool
         else if mentions fullText
                   ["maruti"; "tata motors"; "mahindra"; "bajaj auto"; "auto";
                    "car"; "vehicle"]%string
         then selectUniqueImage hash articleId automotivePool
         else if mentions fullText
                   ["ntpc"; "ongc"; "coal"; "power"; "energy"; "oil";
                    "gas"]%string
         then selectUniqueImage hash articleId energyPool
         else if mentions fullText
                   ["pharma"; "drug"; "medicine"; "health"; "cipla";
                    "sun pharma"]%string
         then selectUniqueImage hash articleId healthcarePool
         else if mentions fullText
                   ["dmart"; "retail"; "consumer"; "fmcg"; "goods";
                    "store"]%string
         then selectUniqueImage hash articleId retailPool
         else if mentions fullText
                   ["paytm"; "payment"; "fintech"; "wallet"; "upi";
                    "digital payment"]%string
         then selectUniqueImage hash articleId fintechPool
         else if existsb (String.eqb category)
                   ["breakout"; "warrant"; "movers"]%string
         then selectUniqueImage hash articleId tradingPool
         else selectUniqueImage hash articleId marketPool)
  end.

(** Every URL of [diverseImagePools]. *)
Definition allPools : list string :=
  marketPool ++ bankingPool ++ technologyPool ++ automotivePool ++ energyPool
  ++ healthcarePool ++ retailPool ++ fintechPool ++ tradingPool.

(** The request with every text lower-cased. *)
Definition lowerCased (article : ImageRequest) : ImageRequest :=
  {| imgId := imgId article;
     imgTitle := Js.toLowerCase (imgTitle article);
     imgContent := Js.toLowerCase (imgContent article);
     imgCategory :=
       match imgCategory article with
       | CatStr c => CatStr (Js.toLowerCase c)
       | CatInherited p => CatInherited p
       end;
     imgStockSymbol := option_map Js.toLowerCase (imgStockSymbol article) |}.

End ImageLogic.

(** ** The two classes with [getArticleImage] in place

    [fetchArticles] calls [getArticleImage] inside its [try]: when the call
    throws for one row, the [map] is abandoned and the [catch] returns the
    empty array. *)

Module Wired.

(** The URL when the call returns. *)
Definition imageUrlOf (article : ImageRequest) : string :=
  match ImageLogic.getArticleImage article with
  | Returned url => url
  | Threw _ => ""
  end.

(** The callback of the [map]: [articleData] is built as in [mapRow] (its
    [imageUrl] is the empty string until the call returns). *)
Definition mapRow (clock : nat -> Z) (row : list string) (index : nat)
  : Outcome Article :=
  let articleData := mapRow (fun _ => ""%string) clock row index in
  match
    ImageLogic.getArticleImage
      {| imgId := Some (id articleData);
         imgTitle := title articleData;
         imgContent := content articleData;
         imgCategory := category articleData;
         imgStockSymbol := stockSymbol articleData |}
  with
  | Returned url => Returned (setImageUrl articleData url)
  | Threw error => Threw error
  end.

(** [rows.map(callback)] from index [start], up to the first throw. *)
Fixpoint mapFrom (clock : nat -> Z) (start : nat) (rows : list (list string))
  : Outcome (list Article) :=
  match rows with
  | [] => Returned []
  | row :: rest =>
      match mapRow clock row start with
      | Threw error => Threw error
      | Returned article =>
          match mapFrom clock (S start) rest with
          | Threw error => Threw error
          | Returned articles => Returned (article :: articles)
          end
      end
  end.

Definition fetchArticles (clock : nat -> Z) (response : SheetsResponse)
  : Outcome (list Article) :=
  match response with
  | Returned values =>
      let rows := match values with Some r => r | None => [] end in
      match mapFrom clock 0 (filter usableRow rows) with
      | Returned articles => Returned articles
      | Threw _ => Returned []
      end
  | Threw _ => Returned []
  end.

(** The category cell of the row makes [getArticleImage] throw. *)
Definition rowThrows (row : list string) : bool :=
  isInherited (Js.trim (Js.toLowerCase (Js.cell row 3))).

Definition syncFromGoogleSheets (w : World) (st : MemStorage) : MemStorage :=
  match googleSheets st with
  | None => st
  | Some _ => syncWith (fetchArticles (rowTime w) (response w)) (dateNow w) st
  end.

End Wired.

(** ** server/storage.ts: the remaining methods *)

Definition getArticle (articleId : Z) (st : MemStorage) : option Article :=
  JsMap.get articleId (articles st).

(** [Map.prototype.delete]. *)
Fixpoint mapDelete {V : Type} (k : Z) (m : JsMap.t V) : JsMap.t V :=
  match m with
  | [] => []
  | (k', v) :: m' => if k =? k' then m' else (k', v) :: mapDelete k m'
  end.

(** A [Bookmark]; [bookmarkedArticle] is its [articleId]. *)
Record Bookmark : Type := mkBookmark {
  bookmarkId : Z;
  userId : Z;
  bookmarkedArticle : Z;
  bookmarkCreatedAt : Z
}.

(** [InsertBookmark]: the two fields the spread copies. *)
Record InsertBookmark : Type := mkInsertBookmark {
  insUserId : Z;
  insArticleId : Z
}.

(** The two fields of [MemStorage] the bookmark methods use. *)
Record BookmarkStore : Type := mkBookmarkStore {
  bookmarks : JsMap.t Bookmark;
  currentBookmarkId : Z
}.

Definition getBookmarks (st : BookmarkStore) : list Bookmark :=
  JsMap.values (bookmarks st).

Definition addBookmark (now : Z) (insertBookmark : InsertBookmark)
  (st : BookmarkStore) : BookmarkStore * Bookmark :=
  let bookmark :=
    {| bookmarkId := currentBookmarkId st;
       userId := insUserId insertBookmark;
       bookmarkedArticle := insArticleId insertBookmark;
       bookmarkCreatedAt := now |} in
  ({| bookmarks := JsMap.set (bookmarkId bookmark) bookmark (bookmarks st);
      currentBookmarkId := currentBookmarkId st + 1 |},
   bookmark).

(** The key of the first entry, in iteration order, whose bookmark is for
    [articleId]. *)
Fixpoint firstBookmarkFor (articleId : Z) (entries : JsMap.t Bookmark)
  : option Z :=
  match entries with
  | [] => None
  | (key, bookmark) :: rest =>
      if bookmarkedArticle bookmark =? articleId then Some key
      else firstBookmarkFor articleId rest
  end.

(** [removeBookmark]: the loop deletes the first match and breaks. *)
Definition removeBookmark (articleId : Z) (st : BookmarkStore)
  : BookmarkStore :=
  match firstBookmarkFor articleId (bookmarks st) with
  | Some key =>
      {| bookmarks := mapDelete key (bookmarks st);
         currentBookmarkId := currentBookmarkId st |}
  | None => st
  end.

Definition isBookmarked (articleId : Z) (st : BookmarkStore) : bool :=
  existsb (fun bookmark => bookmarkedArticle bookmark =? articleId)
    (JsMap.values (bookmarks st)).

(** ** Notions used in the further statements *)

(** Every key of the article map is below the counter. *)
Definition idsBelowCounter (st : MemStorage) : Prop :=
  forall k, In k (JsMap.keys (articles st)) -> k < currentArticleId st.

(** The keys of the bookmark map are pairwise different and below the
    counter. *)
Definition bookmarkIdsFresh (st : BookmarkStore) : Prop :=
  NoDup (JsMap.keys (bookmarks st))
  /\ forall k, In k (JsMap.keys (bookmarks st)) -> k < currentBookmarkId st.

(** The id the callback of [fetchArticles] gives the row it maps at
    [index]: [parseInt(row[0]) || index + 1]. *)
Definition rowId (row : list string) (index : nat) : Z :=
  Js.numOr (Js.parseInt (Js.cell row 0)) (Z.of_nat index + 1).

(** Every id read from the usable rows of a sheet is a safe integer. *)
Definition safeIdRows (rows : list (list string)) : bool :=
  forallb JsNum.isSafeInteger (mapIndex rowId (filter usableRow rows)).

(** Every id of the batch is a safe integer. *)
Definition safeIds (batch : list Article) : bool :=
  forallb (fun a => JsNum.isSafeInteger (id a)) batch.

(** A letter of the ASCII range. *)
Definition isAsciiLetter (c : ascii) : bool :=
  let n := nat_of_ascii c in
  (((65 <=? n) && (n <=? 90)) || ((97 <=? n) && (n <=? 122)))%nat.

(** A string of white space only. *)
Fixpoint isBlank (s : string) : bool :=
  match s with
  | EmptyString => true
  | String c s' => Js.isWhiteSpace c && isBlank s'
  end.

(** [a] was created no earlier than [b]. *)
Definition newerFirst (a b : Article) : Prop := createdAt b <= createdAt a.

(** Two articles that differ at most in [content] and [viewCount]. *)
Definition sameButContentAndViews (a b : Article) : Prop :=
  setViewCount (setContent a "") None = setViewCount (setContent b "") None.

(** The string is empty or starts with something else than white space. *)
Definition startsClean (s : string) : bool :=
  match s with
  | EmptyString => true
  | String c _ => negb (Js.isWhiteSpace c)
  end.

(** ** Further concrete runs *)

(** A storage that holds the articles 7 and 12. *)
Definition twoArticleStorage : MemStorage :=
  syncFromGoogleSheets sampleImage (sheetWith [rowSeven; warrantRow] 1000)
    emptyStorage.

(** Article 7 is created by a first sync at time 1000, and the sheet is
    synced a second time at time 500000. *)
Definition stampedStorage : MemStorage :=
  Wired.syncFromGoogleSheets (sheetWith [rowSeven] 1000) emptyStorage.

Definition restampedStorage : MemStorage :=
  Wired.syncFromGoogleSheets (sheetWith [rowSeven] 500000) stampedStorage.

(** The content of the element at index [k] once the loop of the sync has
    run over the articles [fetchArticles] returns for the sheet. *)
Definition finalContentAt (rows : list (list string)) (k : nat)
  : option string :=
  match Wired.fetchArticles (clockFrom 0) (Returned (Some rows)) with
  | Returned batch =>
      option_map content (nth_error (processed (syncLoop batch)) k)
  | Threw _ => None
  end.

(** The same storage after one view of the article 12. *)
Definition viewedTwoStorage : MemStorage := incrementViewCount 12 twoArticleStorage.

(** A bookmark store with the article 7 bookmarked twice and the article 9
    once. *)
Definition threeBookmarks : BookmarkStore :=
  fst (addBookmark 30 {| insUserId := 1; insArticleId := 7 |}
         (fst (addBookmark 20 {| insUserId := 1; insArticleId := 9 |}
                 (fst (addBookmark 10 {| insUserId := 1; insArticleId := 7 |}
                         {| bookmarks := JsMap.clear;
                            currentBookmarkId := 1 |}))))).

(** ** Facts about the primitives *)

Module JsMapFacts.

Lemma get_set_same {V : Type} (k : Z) (v : V) (m : JsMap.t V) :
  JsMap.get k (JsMap.set k v m) = Some v.
Proof.
  induction m as [| [k' v'] m IH]; simpl.
  - now rewrite Z.eqb_refl.
  - destruct (k =? k') eqn:E; simpl.
    + now rewrite Z.eqb_refl.
    + now rewrite E.
Qed.

Lemma get_set_other {V : Type} (k j : Z) (v : V) (m : JsMap.t V) :
  j <> k -> JsMap.get j (JsMap.set k v m) = JsMap.get j m.
Proof.
  intros Hjk. induction m as [| [k' v'] m IH]; simpl.
  - destruct (j =? k) eqn:E; [apply Z.eqb_eq in E; contradiction | reflexivity].
  - destruct (k =? k') eqn:E; simpl.
    + apply Z.eqb_eq in E. subst k'.
      destruct (j =? k) eqn:E'; [apply Z.eqb_eq in E'; contradiction | reflexivity].
    + destruct (j =? k'); [reflexivity | exact IH].
Qed.

Lemma keys_set_in {V : Type} (k j : Z) (v : V) (m : JsMap.t V) :
  In j (JsMap.keys (JsMap.set k v m)) <-> j = k \/ In j (JsMap.keys m).
Proof.
  induction m as [| [k' v'] m IH]; simpl.
  - intuition auto.
  - destruct (k =? k') eqn:E; simpl.
    + apply Z.eqb_eq in E. subst k'. intuition auto.
    + rewrite IH. intuition auto.
Qed.

Lemma set_NoDup {V : Type} (k : Z) (v : V) (m : JsMap.t V) :
  NoDup (JsMap.keys m) -> NoDup (JsMap.keys (JsMap.set k v m)).
Proof.
  induction m as [| [k' v'] m IH]; simpl; intros Hm.
  - constructor; [intros [] | constructor].
  - inversion Hm as [| x xs Hnotin Hrest]; subst.
    destruct (k =? k') eqn:E; simpl.
    + apply Z.eqb_eq in E. subst k'. now constructor.
    + constructor; [| now apply IH].
      intros Hin. apply keys_set_in in Hin. destruct Hin as [-> | Hin].
      * now rewrite Z.eqb_refl in E.
      * contradiction.
Qed.

(** A new key makes the map one longer, a known key leaves its size. *)
Lemma size_set {V : Type} (k : Z) (v : V) (m : JsMap.t V) :
  JsMap.size (JsMap.set k v m)
  = match JsMap.get k m with
    | Some _ => JsMap.size m
    | None => S (JsMap.size m)
    end.
Proof.
  unfold JsMap.size. induction m as [| [k' v'] m IH]; simpl.
  - reflexivity.
  - destruct (k =? k') eqn:E; simpl.
    + reflexivity.
    + rewrite IH. now destruct (JsMap.get k m).
Qed.

Lemma get_in_values {V : Type} (k : Z) (v : V) (m : JsMap.t V) :
  JsMap.get k m = Some v -> In v (JsMap.values m).
Proof.
  induction m as [| [k' v'] m IH]; simpl; [discriminate |].
  destruct (k =? k'); intros H.
  - left. congruence.
  - right. now apply IH.
Qed.

Lemma get_some_key {V : Type} (k : Z) (m : JsMap.t V) :
  In k (JsMap.keys m) <-> exists v, JsMap.get k m = Some v.
Proof.
  induction m as [| [k' v'] m IH]; simpl.
  - split; [intros [] | intros [v H]; discriminate].
  - destruct (k =? k') eqn:E.
    + apply Z.eqb_eq in E. subst. split; eauto.
    + rewrite IH. split; [intros [Heq | H]; [| exact H] | auto].
      subst. now rewrite Z.eqb_refl in E.
Qed.

End JsMapFacts.

Module ListFacts.

Lemma StronglySorted_app_inv {A : Type} (R : A -> A -> Prop) (l1 l2 : list A) :
  StronglySorted R (l1 ++ l2) ->
  StronglySorted R l1 /\ StronglySorted R l2
  /\ forall a b, In a l1 -> In b l2 -> R a b.
Proof.
  induction l1 as [| x l1 IH]; simpl; intros Hs.
  - repeat split; [constructor | exact Hs | intros a b []].
  - apply StronglySorted_inv in Hs. destruct Hs as [Hs Hx].
    destruct (IH Hs) as (H1 & H2 & H12). apply Forall_app in Hx.
    destruct Hx as [Hx1 Hx2]. repeat split.
    + now constructor.
    + exact H2.
    + intros a b [<- | Ha] Hb; [| now apply H12].
      rewrite Forall_forall in Hx2. now apply Hx2.
Qed.

Lemma StronglySorted_strengthen {A : Type} (R R' : A -> A -> Prop)
  (key : A -> Z) (l : list A) :
  (forall a b, R a b -> key a <> key b -> R' a b) ->
  StronglySorted R l -> NoDup (map key l) -> StronglySorted R' l.
Proof.
  intros Hstep Hs. induction Hs as [| a l Hs IH Ha]; intros Hnd.
  - constructor.
  - simpl in Hnd. inversion Hnd as [| x xs Hnotin Hrest]; subst.
    constructor; [now apply IH |].
    rewrite Forall_forall in *. intros b Hb. apply Hstep; [now apply Ha |].
    intros E. apply Hnotin. rewrite E. now apply in_map.
Qed.

Lemma filter_all {A : Type} (p : A -> bool) (l : list A) :
  (forall a, In a l -> p a = true) -> filter p l = l.
Proof.
  induction l as [| x l IH]; simpl; intros H; [reflexivity |].
  rewrite (H x) by now left. f_equal. apply IH. intros a Ha. apply H. now right.
Qed.

Lemma filter_none {A : Type} (p : A -> bool) (l : list A) :
  (forall a, In a l -> p a = false) -> filter p l = [].
Proof.
  induction l as [| x l IH]; simpl; intros H; [reflexivity |].
  rewrite (H x) by now left. apply IH. intros a Ha. apply H. now right.
Qed.

Lemma in_firstn {A : Type} (n : nat) (l : list A) (a : A) :
  In a (firstn n l) -> In a l.
Proof.
  intros H. rewrite <- (firstn_skipn n l). apply in_or_app. now left.
Qed.

Lemma in_bucket {A : Type} (q : A -> bool) (n : nat) (l : list A) (a : A) :
  In a (firstn n (filter q l)) -> q a = true.
Proof.
  intros H. apply in_firstn in H. now apply filter_In in H.
Qed.

(** What a filter leaves of a bucket drawn with a filter that implies it,
    and of one drawn with a filter that excludes it. *)
Lemma filter_bucket_same {A : Type} (p q : A -> bool) (n : nat) (l : list A) :
  (forall a, q a = true -> p a = true) ->
  filter p (firstn n (filter q l)) = firstn n (filter q l).
Proof. intros H. apply filter_all. intros a Ha. eapply H, in_bucket, Ha. Qed.

Lemma filter_bucket_other {A : Type} (p q : A -> bool) (n : nat) (l : list A) :
  (forall a, q a = true -> p a = false) ->
  filter p (firstn n (filter q l)) = [].
Proof. intros H. apply filter_none. intros a Ha. eapply H, in_bucket, Ha. Qed.

End ListFacts.

(** ** Sorting *)

Section SortFacts.

Context {A : Type} (cmp : A -> A -> Z).

Hypothesis cmp_flip : forall x y, 0 < cmp x y -> cmp y x <= 0.
Hypothesis cmp_trans :
  forall x y z, cmp x y <= 0 -> cmp y z <= 0 -> cmp x z <= 0.

Lemma insertSorted_perm (x : A) (l : list A) :
  Permutation (x :: l) (insertSorted cmp x l).
Proof.
  induction l as [| y l IH]; simpl; [reflexivity |].
  destruct (0 <? cmp x y); [| reflexivity].
  rewrite perm_swap. now apply perm_skip.
Qed.

Lemma insertSorted_sorted (x : A) (l : list A) :
  StronglySorted (notAfter cmp) l -> StronglySorted (notAfter cmp) (insertSorted cmp x l).
Proof.
  induction l as [| y l IH]; simpl; intros Hs.
  - repeat constructor.
  - apply StronglySorted_inv in Hs. destruct Hs as [Hl Hy].
    destruct (Z.ltb_spec 0 (cmp x y)) as [Hlt | Hge].
    + constructor; [now apply IH |].
      eapply Permutation_Forall; [apply insertSorted_perm |].
      constructor; [now apply cmp_flip | exact Hy].
    + constructor; [now constructor |].
      constructor; [exact Hge |].
      eapply Forall_impl; [| exact Hy].
      intros z Hz. now apply cmp_trans with y.
Qed.

Lemma sortWith_perm (l : list A) : Permutation l (sortWith cmp l).
Proof.
  induction l as [| x l IH]; simpl; [reflexivity |].
  rewrite <- insertSorted_perm. now apply perm_skip.
Qed.

Lemma sortWith_sorted (l : list A) : StronglySorted (notAfter cmp) (sortWith cmp l).
Proof.
  induction l as [| x l IH]; simpl; [constructor |].
  now apply insertSorted_sorted.
Qed.

End SortFacts.

(** ** Facts about [fetchArticles] *)

Module FetchFacts.

Lemma mapIndexFrom_nth {A B : Type} (f : A -> nat -> B) (l : list A) :
  forall (start k : nat),
    nth_error (mapIndexFrom f start l) k
    = option_map (fun x => f x (start + k)%nat) (nth_error l k).
Proof.
  induction l as [| x l IH]; intros start k.
  - now destruct k.
  - destruct k as [| k]; simpl.
    + now rewrite Nat.add_0_r.
    + rewrite IH. now rewrite Nat.add_succ_r.
Qed.

Lemma mapIndex_nth {A B : Type} (f : A -> nat -> B) (l : list A) (k : nat) :
  nth_error (mapIndex f l) k = option_map (fun x => f x k) (nth_error l k).
Proof. unfold mapIndex. now rewrite mapIndexFrom_nth. Qed.

Lemma mapIndexFrom_length {A B : Type} (f : A -> nat -> B) (l : list A) :
  forall start, List.length (mapIndexFrom f start l) = List.length l.
Proof. induction l as [| x l IH]; intros start; simpl; [| rewrite IH]; reflexivity. Qed.

Lemma truthy_iff (s : string) : Js.truthy s = true <-> s <> ""%string.
Proof.
  unfold Js.truthy. destruct (String.eqb_spec s ""); simpl; split; congruence.
Qed.

Lemma usableRow_iff (row : list string) :
  usableRow row = true
  <-> (3 <= List.length row)%nat
      /\ Js.cell row 0 <> ""%string /\ Js.cell row 1 <> ""%string.
Proof.
  unfold usableRow. rewrite !andb_true_iff, Nat.leb_le, !truthy_iff. tauto.
Qed.

Section WithCollaborators.

Variable getArticleImage : ImageRequest -> string.
Variable clock : nat -> Z.

Lemma mapRow_isPremium (row : list string) (k : nat) :
  isPremium (mapRow getArticleImage clock row k)
  = String.eqb (Js.toLowerCase (Js.cell row 10)) "true".
Proof. reflexivity. Qed.

Lemma mapRow_keeps_content (row : list string) (k : nat) :
  isGenericContent (Js.cell row 2) = false ->
  content (mapRow getArticleImage clock row k) = Js.cell row 2.
Proof. intros H. simpl. now rewrite H. Qed.

Lemma mapRow_createdAt (row : list string) (k : nat) :
  createdAt (mapRow getArticleImage clock row k) = clock k.
Proof. reflexivity. Qed.

Lemma mapRow_id (row : list string) (k : nat) :
  id (mapRow getArticleImage clock row k)
  = Js.numOr (Js.parseInt (Js.cell row 0)) (Z.of_nat k + 1).
Proof. reflexivity. Qed.

Lemma mapRows_nth (rows : list (list string)) (k : nat) (row : list string) :
  nth_error (filter usableRow rows) k = Some row ->
  nth_error (mapRows getArticleImage clock rows) k
  = Some (mapRow getArticleImage clock row k).
Proof. intros H. unfold mapRows. now rewrite mapIndex_nth, H. Qed.

Lemma mapRows_length (rows : list (list string)) :
  List.length (mapRows getArticleImage clock rows)
  = List.length (filter usableRow rows).
Proof. unfold mapRows, mapIndex. apply mapIndexFrom_length. Qed.

Lemma mapRows_skip (before after : list (list string)) (row : list string) :
  usableRow row = false ->
  mapRows getArticleImage clock (before ++ row :: after)
  = mapRows getArticleImage clock (before ++ after).
Proof.
  intros H. unfold mapRows. rewrite !filter_app. simpl. now rewrite H.
Qed.

(** A rejected call and an empty sheet give [fetchArticles] the same
    result. *)
Lemma fetchArticles_rejected (error : string) :
  fetchArticles getArticleImage clock (Threw error) = Returned [].
Proof. reflexivity. Qed.

End WithCollaborators.

End FetchFacts.

(** ** Category normalisation *)

Module CategoryFacts.

Lemma isValid_In (v : string) : isValid v = true -> In v validCategories.
Proof.
  unfold isValid. rewrite existsb_exists. intros (x & Hin & Heq).
  apply String.eqb_eq in Heq. now subst.
Qed.

Lemma categoryMap_values_valid :
  forallb (fun kv => isValid (snd kv)) categoryMap = true.
Proof. vm_compute. reflexivity. Qed.

Lemma ownProperty_value (m : list (string * string)) (k v : string) :
  ownProperty m k = Some v -> In (k, v) m.
Proof.
  induction m as [| [k' v'] m IH]; simpl; [discriminate |].
  destruct (String.eqb_spec k k') as [-> | Hne]; intros H.
  - left. congruence.
  - right. now apply IH.
Qed.

Lemma partialMatch_value (m : list (string * string)) (raw v : string) :
  partialMatch m raw = Some v -> exists k, In (k, v) m.
Proof.
  induction m as [| [k' v'] m IH]; simpl; [discriminate |].
  destruct (Js.includes raw k' || Js.includes k' raw); intros H.
  - exists k'. left. congruence.
  - destruct (IH H) as [k Hk]. exists k. now right.
Qed.

Lemma table_entry_valid (k v : string) :
  In (k, v) categoryMap -> In v validCategories.
Proof.
  intros Hin. apply isValid_In.
  pose proof categoryMap_values_valid as T. rewrite forallb_forall in T.
  exact (T (k, v) Hin).
Qed.

(** Outside the inherited property names the lookup ends in a category. *)
Lemma mapToValidCategory_valid (raw : string) :
  isInherited raw = false ->
  exists c, In c validCategories /\ mapToValidCategory raw = CatStr c.
Proof.
  intros Hinh. unfold mapToValidCategory, categoryLookup. rewrite Hinh.
  destruct (ownProperty categoryMap raw) as [v |] eqn:Own.
  - exists v. split; [| reflexivity].
    eapply table_entry_valid, ownProperty_value, Own.
  - destruct (partialMatch categoryMap raw) as [v |] eqn:Part.
    + exists v. split; [| reflexivity].
      destruct (partialMatch_value _ _ _ Part) as [k Hk].
      eapply table_entry_valid, Hk.
    + exists "others"%string. split; [| reflexivity]. simpl. tauto.
Qed.

Lemma lowerChar_not_upper (c : ascii) : isUpperAscii (Js.lowerChar c) = false.
Proof. destruct c as [[] [] [] [] [] [] [] []]; reflexivity. Qed.

Lemma toLowerCase_noUpper (s : string) : noUpper (Js.toLowerCase s) = true.
Proof.
  induction s as [| c s IH]; simpl; [reflexivity |].
  now rewrite lowerChar_not_upper, IH.
Qed.

Lemma trimStart_noUpper (s : string) :
  noUpper s = true -> noUpper (Js.trimStart s) = true.
Proof.
  induction s as [| c s IH]; simpl; [reflexivity |].
  intros H. destruct (Js.isWhiteSpace c); [| exact H].
  apply andb_true_iff in H. now apply IH.
Qed.

Lemma trimEnd_noUpper (s : string) :
  noUpper s = true -> noUpper (Js.trimEnd s) = true.
Proof.
  induction s as [| c s IH]; simpl; [reflexivity |].
  intros H. apply andb_true_iff in H. destruct H as [Hc Hs].
  specialize (IH Hs). destruct (Js.trimEnd s) as [| c' r].
  - destruct (Js.isWhiteSpace c); simpl; [reflexivity | now rewrite Hc].
  - simpl in *. now rewrite Hc, IH.
Qed.

(** After lower-casing and trimming, the only inherited property names left
    are the two written without capitals. *)
Lemma inherited_after_normalising (s : string) :
  let raw := Js.trim (Js.toLowerCase s) in
  isInherited raw = true ->
  raw = "constructor"%string \/ raw = "__proto__"%string.
Proof.
  intros raw Hinh.
  assert (Hlow : noUpper raw = true).
  { apply trimEnd_noUpper, trimStart_noUpper, toLowerCase_noUpper. }
  unfold isInherited in Hinh. rewrite existsb_exists in Hinh.
  destruct Hinh as (name & Hin & Heq). apply String.eqb_eq in Heq.
  rewrite Heq in *. clear Heq.
  simpl in Hin.
  repeat (destruct Hin as [<- | Hin];
          [first [now left | now right | discriminate Hlow] |]).
  contradiction.
Qed.

End CategoryFacts.

(** ** The loop of [syncFromGoogleSheets] *)

Module SyncFacts.

Lemma syncLoop_snoc (l : list Article) (a : Article) :
  syncLoop (l ++ [a]) = syncStep (syncLoop l) a.
Proof. unfold syncLoop. now rewrite fold_left_app. Qed.

Lemma withUniqueContent_id earlier a : id (withUniqueContent earlier a) = id a.
Proof. unfold withUniqueContent. now destruct (needsNewContent earlier a). Qed.

Lemma withUniqueContent_createdAt earlier a :
  createdAt (withUniqueContent earlier a) = createdAt a.
Proof. unfold withUniqueContent. now destruct (needsNewContent earlier a). Qed.

Lemma withUniqueContent_title earlier a :
  title (withUniqueContent earlier a) = title a.
Proof. unfold withUniqueContent. now destruct (needsNewContent earlier a). Qed.

Lemma processed_length (l : list Article) :
  List.length (processed (syncLoop l)) = List.length l.
Proof.
  induction l as [| a l IH] using rev_ind; [reflexivity |].
  rewrite syncLoop_snoc. simpl. rewrite !length_app, IH. reflexivity.
Qed.

Lemma store_is_last (l : list Article) (i : Z) :
  JsMap.get i (store (syncLoop l)) = lastWithId i (processed (syncLoop l)).
Proof.
  induction l as [| a l IH] using rev_ind; [reflexivity |].
  rewrite syncLoop_snoc. unfold lastWithId in *. simpl.
  rewrite rev_app_distr. simpl.
  destruct (id (withUniqueContent (processed (syncLoop l)) a) =? i) eqn:E.
  - apply Z.eqb_eq in E. rewrite <- E. apply JsMapFacts.get_set_same.
  - rewrite JsMapFacts.get_set_other; [exact IH |].
    intros ->. now rewrite Z.eqb_refl in E.
Qed.

Lemma processed_views (l : list Article) :
  Forall (fun f => viewCount f = Some 0) (processed (syncLoop l)).
Proof.
  induction l as [| a l IH] using rev_ind; [constructor |].
  rewrite syncLoop_snoc. simpl. apply Forall_app. split; [exact IH |].
  constructor; [| constructor]. unfold withViewCount. simpl.
  rewrite store_is_last. unfold lastWithId.
  destruct (find _ _) as [e |] eqn:F; [| reflexivity].
  apply find_some in F. destruct F as [Hin _]. apply in_rev in Hin.
  rewrite Forall_forall in IH. rewrite (IH e Hin). reflexivity.
Qed.

(** Inside the loop every [get] finds an article whose count is 0, or
    nothing: the count written is 0. *)
Lemma step_settles (l : list Article) (a : Article) :
  processed (syncLoop (l ++ [a]))
  = (processed (syncLoop l) ++ [settled (processed (syncLoop l)) a])%list.
Proof.
  pose proof (processed_views (l ++ [a])) as V.
  rewrite syncLoop_snoc in *. simpl in *. f_equal. f_equal.
  apply Forall_app in V. destruct V as [_ V]. inversion V as [| x xs Hx _]; subst.
  unfold withViewCount in *. simpl in Hx. unfold settled. now rewrite Hx.
Qed.

Lemma processed_app (l1 l2 : list Article) :
  exists rest,
    processed (syncLoop (l1 ++ l2)) = (processed (syncLoop l1) ++ rest)%list.
Proof.
  induction l2 as [| a l2 IH] using rev_ind.
  - exists []. now rewrite !app_nil_r.
  - destruct IH as [rest IH]. rewrite app_assoc, step_settles, IH.
    eexists. now rewrite <- app_assoc.
Qed.

Lemma processed_firstn (l : list Article) (k : nat) :
  firstn k (processed (syncLoop l)) = processed (syncLoop (firstn k l)).
Proof.
  destruct (Nat.le_gt_cases (List.length l) k) as [Hk | Hk].
  - rewrite !firstn_all2; [reflexivity | exact Hk |].
    now rewrite processed_length.
  - rewrite <- (firstn_skipn k l) at 1.
    destruct (processed_app (firstn k l) (skipn k l)) as [rest ->].
    rewrite firstn_app.
    replace (k - List.length (processed (syncLoop (firstn k l))))%nat with 0%nat.
    + rewrite firstn_all2, app_nil_r; [reflexivity |].
      rewrite processed_length, length_firstn. lia.
    + rewrite processed_length, length_firstn. lia.
Qed.

(** The element at index [k] of the array after the loop. *)
Lemma processed_nth (l : list Article) (k : nat) (a : Article) :
  nth_error l k = Some a ->
  nth_error (processed (syncLoop l)) k
  = Some (settled (firstn k (processed (syncLoop l))) a).
Proof.
  intros Hk. rewrite processed_firstn.
  destruct (nth_error_split l k Hk) as (l1 & l2 & -> & Hlen).
  replace (l1 ++ a :: l2) with ((l1 ++ [a]) ++ l2) by now rewrite <- app_assoc.
  destruct (processed_app (l1 ++ [a]) l2) as [rest ->].
  rewrite step_settles.
  rewrite <- app_assoc at 1. simpl.
  rewrite nth_error_app2; rewrite processed_length; [| lia].
  rewrite Hlen, Nat.sub_diag. simpl. do 2 f_equal.
  rewrite <- app_assoc, firstn_app, firstn_all2 by lia.
  replace (k - List.length l1)%nat with 0%nat by lia.
  simpl. now rewrite app_nil_r.
Qed.

Lemma store_keys_NoDup (l : list Article) :
  NoDup (JsMap.keys (store (syncLoop l))).
Proof.
  induction l as [| a l IH] using rev_ind; [constructor |].
  rewrite syncLoop_snoc. simpl. now apply JsMapFacts.set_NoDup.
Qed.

Lemma store_size (l : list Article) :
  (JsMap.size (store (syncLoop l)) <= List.length l)%nat.
Proof.
  induction l as [| a l IH] using rev_ind; [simpl; lia |].
  rewrite syncLoop_snoc. simpl. rewrite JsMapFacts.size_set, length_app. simpl.
  destruct (JsMap.get _ _); lia.
Qed.

End SyncFacts.

(** ** What the store holds after a sync *)

Module StoreFacts.

Import SyncFacts.

Lemma settled_id earlier a : id (settled earlier a) = id a.
Proof. unfold settled. simpl. apply withUniqueContent_id. Qed.

Lemma settled_createdAt earlier a : createdAt (settled earlier a) = createdAt a.
Proof. unfold settled. simpl. apply withUniqueContent_createdAt. Qed.

Lemma settled_title earlier a : title (settled earlier a) = title a.
Proof. unfold settled. simpl. apply withUniqueContent_title. Qed.

(** The last element with a given id is the one the lookup returns. *)
Lemma lastWithId_nth (fs : list Article) (k : nat) (f : Article) :
  nth_error fs k = Some f ->
  (forall k' f', (k < k')%nat -> nth_error fs k' = Some f' -> id f' <> id f) ->
  lastWithId (id f) fs = Some f.
Proof.
  unfold lastWithId. induction fs as [| x fs IH] using rev_ind; intros Hk Hlast.
  - now destruct k.
  - rewrite rev_app_distr. simpl.
    destruct (Nat.lt_ge_cases k (List.length fs)) as [Hlt | Hge].
    + rewrite nth_error_app1 in Hk by exact Hlt.
      assert (Hx : id x <> id f).
      { apply (Hlast (List.length fs) x Hlt).
        now rewrite nth_error_app2, Nat.sub_diag by lia. }
      apply Z.eqb_neq in Hx. rewrite Hx. apply IH; [exact Hk |].
      intros k' f' Hk' Hf'. apply (Hlast k' f' Hk').
      rewrite nth_error_app1; [exact Hf' |].
      apply nth_error_Some. now rewrite Hf'.
    + rewrite nth_error_app2 in Hk by exact Hge.
      destruct (k - List.length fs)%nat as [| n] eqn:E; simpl in Hk.
      * injection Hk as ->. now rewrite Z.eqb_refl.
      * now destruct n.
Qed.

(** Every element of the array after the loop comes from the element of the
    fetched array at the same index. *)
Lemma processed_source (batch : list Article) (k : nat) (f : Article) :
  nth_error (processed (syncLoop batch)) k = Some f ->
  exists a,
    nth_error batch k = Some a
    /\ f = settled (firstn k (processed (syncLoop batch))) a.
Proof.
  intros Hf.
  assert (Hk : (k < List.length batch)%nat).
  { rewrite <- processed_length. apply nth_error_Some. now rewrite Hf. }
  destruct (nth_error batch k) as [a |] eqn:Ha.
  - exists a. split; [reflexivity |].
    rewrite (processed_nth batch k a Ha) in Hf. congruence.
  - apply nth_error_None in Ha. lia.
Qed.

(** When the element at [k] is the last one of the batch with its id, the
    store holds what the loop made of it. *)
Lemma stored_is_last_occurrence (batch : list Article) (k : nat) (a : Article) :
  nth_error batch k = Some a ->
  (forall k' a', (k < k')%nat -> nth_error batch k' = Some a' -> id a' <> id a) ->
  JsMap.get (id a) (store (syncLoop batch))
  = Some (settled (firstn k (processed (syncLoop batch))) a).
Proof.
  intros Hk Hlast. rewrite store_is_last.
  rewrite <- (settled_id (firstn k (processed (syncLoop batch))) a).
  apply lastWithId_nth with (k := k).
  - now apply processed_nth.
  - intros k' f' Hk' Hf'. destruct (processed_source batch k' f' Hf') as (a' & Ha' & ->).
    rewrite !settled_id. now apply (Hlast k' a').
Qed.

(** Whatever the store returns under [i] carries the id [i] and comes from
    an element of the batch. *)
Lemma stored_source (batch : list Article) (i : Z) (f : Article) :
  JsMap.get i (store (syncLoop batch)) = Some f ->
  id f = i
  /\ exists k a,
       nth_error batch k = Some a /\ id a = i
       /\ f = settled (firstn k (processed (syncLoop batch))) a.
Proof.
  rewrite store_is_last. unfold lastWithId. intros F.
  apply find_some in F. destruct F as [Hin Hid]. apply Z.eqb_eq in Hid.
  split; [exact Hid |].
  apply in_rev in Hin. apply In_nth_error in Hin. destruct Hin as [k Hk].
  destruct (processed_source batch k f Hk) as (a & Ha & Hf).
  exists k, a. split; [exact Ha |]. split; [| exact Hf].
  rewrite Hf in Hid. now rewrite settled_id in Hid.
Qed.

(** Every id of the batch is a key of the store. *)
Lemma batch_id_stored (batch : list Article) (k : nat) (a : Article) :
  nth_error batch k = Some a ->
  exists f, JsMap.get (id a) (store (syncLoop batch)) = Some f.
Proof.
  intros Hk. rewrite store_is_last. unfold lastWithId.
  destruct (find (fun f => id f =? id a) (rev (processed (syncLoop batch))))
    as [f |] eqn:F; [now exists f |].
  exfalso.
  pose proof (processed_nth batch k a Hk) as Hf.
  apply nth_error_In, in_rev in Hf.
  pose proof (find_none _ _ F _ Hf) as Hnone. cbv beta in Hnone.
  rewrite settled_id, Z.eqb_refl in Hnone. discriminate.
Qed.

End StoreFacts.

Module BatchFacts.

Lemma mapRows_nth_inv (getArticleImage : ImageRequest -> string)
  (clock : nat -> Z) (rows : list (list string)) (k : nat) (a : Article) :
  nth_error (mapRows getArticleImage clock rows) k = Some a ->
  exists row,
    nth_error (filter usableRow rows) k = Some row
    /\ a = mapRow getArticleImage clock row k.
Proof.
  unfold mapRows. rewrite FetchFacts.mapIndex_nth.
  destruct (nth_error (filter usableRow rows) k) as [row |]; simpl;
    [| discriminate].
  intros H. exists row. split; [reflexivity | congruence].
Qed.

Lemma nonempty_length {A : Type} (l : list A) (k : nat) (a : A) :
  nth_error l k = Some a -> (0 <? List.length l)%nat = true.
Proof.
  intros H. apply Nat.ltb_lt. destruct l; [now destruct k | simpl; lia].
Qed.

End BatchFacts.

(** ** Duplicate content inside one batch *)

Module EndsWithFacts.

Lemma endsWith_refl (s : string) : endsWith s s = true.
Proof. destruct s; cbn [endsWith]; now rewrite String.eqb_refl. Qed.

Lemma endsWith_app (p s suffix : string) :
  endsWith s suffix = true -> endsWith (p ++ s)%string suffix = true.
Proof.
  intros H. induction p as [| c p IH]; simpl; [exact H |].
  rewrite IH. apply orb_true_r.
Qed.

End EndsWithFacts.

Module DedupFacts.

Import EndsWithFacts.

Lemma generated_ends_with_closing title category stockSymbol stockPrice
  priceChange index :
  endsWith
    (generateUniqueArticleContent title category stockSymbol stockPrice
       priceChange index)
    closingSentence = true.
Proof.
  unfold generateUniqueArticleContent.
  repeat apply endsWith_app. apply endsWith_refl.
Qed.

(** A content that is not blank stays in the array once it has been seen:
    either its article keeps it, or the article was a duplicate of an
    earlier one that carries it. *)
Lemma content_stays (l : list Article) (a : Article) :
  In a l ->
  Js.trim (content a) <> ""%string ->
  exists f, In f (processed (syncLoop l)) /\ content f = content a.
Proof.
  induction l as [| x l IH] using rev_ind; [intros [] |].
  intros Hin Hnb. rewrite SyncFacts.step_settles.
  apply in_app_or in Hin. destruct Hin as [Hin | [-> | []]].
  - destruct (IH Hin Hnb) as (f & Hf & Hc).
    exists f. split; [apply in_or_app; now left | exact Hc].
  - unfold settled, withUniqueContent.
    destruct (needsNewContent (processed (syncLoop l)) a) eqn:N.
    + unfold needsNewContent in N.
      assert (Htr : Js.truthy (content a) = true).
      { apply FetchFacts.truthy_iff. intros E. apply Hnb. now rewrite E. }
      rewrite Htr in N. apply String.eqb_neq in Hnb. rewrite Hnb in N.
      simpl in N. unfold isDuplicateContent in N.
      apply andb_true_iff in N. destruct N as [_ N].
      apply existsb_exists in N. destruct N as (o & Ho & Heq).
      apply andb_true_iff in Heq. destruct Heq as [Heq _].
      apply String.eqb_eq in Heq.
      exists o. split; [apply in_or_app; now left | exact Heq].
    + eexists. split; [apply in_or_app; right; left; reflexivity |].
      reflexivity.
Qed.

(** The element at [j] is seen as a duplicate as soon as an earlier element
    of the fetched array has its content. *)
Lemma later_duplicate_detected (batch : list Article) (i j : nat)
  (ai aj : Article) :
  (i < j)%nat ->
  nth_error batch i = Some ai ->
  nth_error batch j = Some aj ->
  content ai = content aj ->
  Js.trim (content aj) <> ""%string ->
  needsNewContent (firstn j (processed (syncLoop batch))) aj = true.
Proof.
  intros Hij Hi Hj Hc Hnb. rewrite SyncFacts.processed_firstn.
  assert (Hin : In ai (firstn j batch)).
  { apply nth_error_In with (n := i). rewrite nth_error_firstn.
    destruct (Nat.ltb_spec i j); [exact Hi | lia]. }
  assert (Hnb' : Js.trim (content ai) <> ""%string) by now rewrite Hc.
  destruct (content_stays _ _ Hin Hnb') as (f & Hf & Hcf).
  unfold needsNewContent, isDuplicateContent.
  assert (Hex :
    existsb
      (fun otherArticle =>
         String.eqb (content otherArticle) (content aj)
         && negb (String.eqb (Js.trim (content aj)) ""))
      (processed (syncLoop (firstn j batch))) = true).
  { apply existsb_exists. exists f. split; [exact Hf |].
    cbv beta. rewrite Hcf, Hc, String.eqb_refl. apply String.eqb_neq in Hnb.
    now rewrite Hnb. }
  rewrite Hex.
  destruct (processed (syncLoop (firstn j batch))); [destruct Hf |].
  simpl. now rewrite !orb_true_r.
Qed.

(** The pass on the fetched array: the element at [j] gets the generated
    text as soon as an earlier element carries its content. *)
Lemma duplicate_in_batch_regenerated (batch : list Article) (i j : nat)
  (ai aj : Article) :
  (i < j)%nat ->
  nth_error batch i = Some ai ->
  nth_error batch j = Some aj ->
  content ai = content aj ->
  Js.trim (content aj) <> ""%string ->
  exists fi fj,
    nth_error (processed (syncLoop batch)) i = Some fi
    /\ nth_error (processed (syncLoop batch)) j = Some fj
    /\ content fj
       = generateUniqueArticleContent (title aj) (category aj) (stockSymbol aj)
           (stockPrice aj) (priceChange aj) j
    /\ endsWith (content fj) closingSentence = true
    /\ (endsWith (content aj) closingSentence = false ->
        content fj <> content aj
        /\ (content fi = content ai -> content fj <> content fi)).
Proof.
  intros Hij Hi Hj Hc Hnb.
  pose proof (later_duplicate_detected batch i j ai aj
                Hij Hi Hj Hc Hnb) as Hdup.
  pose proof (SyncFacts.processed_nth batch j aj Hj) as Hfj.
  pose proof (SyncFacts.processed_nth batch i ai Hi) as Hfi.
  eexists. eexists. split; [exact Hfi |]. split; [exact Hfj |].
  assert (Hgen :
    content (settled (firstn j (processed (syncLoop batch))) aj)
    = generateUniqueArticleContent (title aj) (category aj) (stockSymbol aj)
        (stockPrice aj) (priceChange aj) j).
  { unfold settled, withUniqueContent. rewrite Hdup. simpl.
    rewrite length_firstn, SyncFacts.processed_length.
    assert (j < List.length batch)%nat
      by (apply nth_error_Some; now rewrite Hj).
    now rewrite Nat.min_l by lia. }
  split; [exact Hgen |].
  assert (Hend :
    endsWith
      (content (settled (firstn j (processed (syncLoop batch))) aj))
      closingSentence = true).
  { rewrite Hgen. apply generated_ends_with_closing. }
  split; [exact Hend |].
  intros Hraw.
  assert (Hne :
    content (settled (firstn j (processed (syncLoop batch))) aj)
    <> content aj).
  { intros E. rewrite E in Hend. congruence. }
  split; [exact Hne |].
  intros Hkept E. apply Hne. now rewrite E, Hkept.
Qed.

End DedupFacts.

(** ** Trending *)

Module TrendingFacts.

Lemma compareByViews_flip (x y : Article) :
  0 < compareByViews x y -> compareByViews y x <= 0.
Proof.
  unfold compareByViews.
  destruct (Z.eqb_spec (views x) (views y)), (Z.eqb_spec (views y) (views x));
    simpl; lia.
Qed.

Lemma compareByViews_trans (x y z : Article) :
  compareByViews x y <= 0 -> compareByViews y z <= 0 ->
  compareByViews x z <= 0.
Proof.
  unfold compareByViews.
  destruct (Z.eqb_spec (views x) (views y)), (Z.eqb_spec (views y) (views z)),
    (Z.eqb_spec (views x) (views z)); simpl; lia.
Qed.

Lemma compareByViews_ranks (a b : Article) :
  compareByViews a b <= 0 <-> ranksNoLater a b.
Proof.
  unfold compareByViews, ranksNoLater.
  destruct (Z.eqb_spec (views a) (views b)); simpl; lia.
Qed.

Lemma sortedByViews_perm (st : MemStorage) :
  Permutation (JsMap.values (articles st)) (sortedByViews st).
Proof. apply sortWith_perm. Qed.

Lemma sortedByViews_sorted (st : MemStorage) :
  StronglySorted ranksNoLater (sortedByViews st).
Proof.
  pose proof (sortWith_sorted compareByViews compareByViews_flip
                compareByViews_trans (JsMap.values (articles st))) as Hs.
  unfold sortedByViews.
  induction Hs as [| a l Hs IH Ha]; constructor; [exact IH |].
  eapply Forall_impl; [| exact Ha].
  intros b Hb. now apply compareByViews_ranks.
Qed.

Lemma inCategory_disjoint (c c' : string) (a : Article) :
  c <> c' -> inCategory c a = true -> inCategory c' a = false.
Proof.
  unfold inCategory, catIs. destruct (category a) as [s | p]; [| reflexivity].
  intros Hne Hc. apply String.eqb_eq in Hc. subst s. now apply String.eqb_neq.
Qed.

Lemma inNoneOf_excludes (cs : list string) (c : string) (a : Article) :
  In c cs -> inNoneOf cs a = true -> inCategory c a = false.
Proof.
  unfold inNoneOf, inCategory. intros Hin Hnone.
  destruct (catIs (category a) c) eqn:E; [| reflexivity].
  apply negb_true_iff in Hnone.
  assert (existsb (catIs (category a)) cs = true)
    by (apply existsb_exists; now exists c).
  congruence.
Qed.

Lemma inCategory_excludes_none (cs : list string) (c : string) (a : Article) :
  In c cs -> inCategory c a = true -> inNoneOf cs a = false.
Proof.
  intros Hin Hc. destruct (inNoneOf cs a) eqn:E; [| reflexivity].
  rewrite (inNoneOf_excludes cs c a Hin E) in Hc. discriminate.
Qed.

(** The articles of one of the five categories in the tail: the first two
    of that category in the remainder, in the remainder's order. *)
Lemma tail_of_category (c : string) (rest : list Article) :
  In c trendingCategories ->
  filter (inCategory c) (diverseContent rest)
  = firstn 2 (filter (inCategory c) rest).
Proof.
  intros Hc. unfold diverseContent. rewrite !filter_app.
  assert (Hothers :
    filter (inCategory c)
      (firstn 5 (filter (inNoneOf trendingCategories) rest)) = []).
  { apply ListFacts.filter_bucket_other. intros a.
    now apply inNoneOf_excludes. }
  rewrite Hothers.
  simpl in Hc.
  destruct Hc as [<- | [<- | [<- | [<- | [<- | []]]]]];
    repeat first
      [ rewrite (ListFacts.filter_bucket_other (inCategory _) (inCategory _))
          by (intros a; apply inCategory_disjoint; discriminate)
      | rewrite ListFacts.filter_bucket_same by (intros a Ha; exact Ha) ];
    now rewrite ?app_nil_r.
Qed.

Lemma tail_of_others (rest : list Article) :
  filter (inNoneOf trendingCategories) (diverseContent rest)
  = firstn 5 (filter (inNoneOf trendingCategories) rest).
Proof.
  unfold diverseContent. rewrite !filter_app.
  rewrite !(ListFacts.filter_bucket_other (inNoneOf trendingCategories)
              (inCategory _))
    by (intros a; apply inCategory_excludes_none; simpl; tauto).
  rewrite ListFacts.filter_bucket_same by (intros a Ha; exact Ha).
  reflexivity.
Qed.

Lemma getArticles_trending (getArticleImage : ImageRequest -> string)
  (now : Z) (w : World) (st : MemStorage) :
  snd (getArticles getArticleImage now w (Some "trending"%string) st)
  = getTrendingArticles
      (fst (getArticles getArticleImage now w (Some "trending"%string) st)).
Proof. reflexivity. Qed.

End TrendingFacts.

Lemma distinctZ_NoDup (l : list Z) : distinctZ l = true -> NoDup l.
Proof.
  induction l as [| x l IH]; simpl; intros H; [constructor |].
  apply andb_true_iff in H. destruct H as [Hx Hl].
  constructor; [| now apply IH].
  intros Hin. apply negb_true_iff in Hx.
  assert (existsb (Z.eqb x) l = true)
    by (apply existsb_exists; exists x; split; [exact Hin | apply Z.eqb_refl]).
  congruence.
Qed.

(** ** [getArticleImage] in the pipeline *)

Module ImageFacts.

Import ImageLogic.

Lemma lowerChar_idempotent (c : ascii) :
  Js.lowerChar (Js.lowerChar c) = Js.lowerChar c.
Proof. destruct c as [[] [] [] [] [] [] [] []]; reflexivity. Qed.

Lemma toLowerCase_idempotent (s : string) :
  Js.toLowerCase (Js.toLowerCase s) = Js.toLowerCase s.
Proof.
  induction s as [| c s IH]; simpl; [reflexivity |].
  now rewrite lowerChar_idempotent, IH.
Qed.

Lemma select_in_pool (hash articleId : Z) (pool : list string) :
  pool <> [] -> In (selectUniqueImage hash articleId pool) pool.
Proof.
  intros Hne. unfold selectUniqueImage, Js.pick. apply nth_In.
  assert (0 < Z.of_nat (List.length pool)) by (destruct pool; [contradiction | simpl; lia]).
  pose proof (Z.mod_pos_bound (Z.abs (JsNum.add hash articleId))
                (Z.of_nat (List.length pool)) H) as B.
  lia.
Qed.

Lemma pools_not_empty_strings :
  forallb (fun url => negb (String.eqb url "")) allPools = true.
Proof. vm_compute. reflexivity. Qed.

Lemma inherited_lookup (raw : string) :
  isInherited raw = true -> mapToValidCategory raw = CatInherited raw.
Proof.
  intros H. unfold isInherited in H. apply existsb_exists in H.
  destruct H as (name & Hin & Heq). apply String.eqb_eq in Heq. subst name.
  simpl in Hin.
  repeat (destruct Hin as [<- | Hin]; [vm_compute; reflexivity |]).
  contradiction.
Qed.

(** The callback with the image function in place: it throws on the rows
    whose category cell names an inherited property, and otherwise returns
    what [mapRow] returns with the URL of the call. *)
Lemma wired_mapRow (clock : nat -> Z) (row : list string) (index : nat) :
  (Wired.rowThrows row = true ->
   exists error, Wired.mapRow clock row index = Threw error)
  /\ (Wired.rowThrows row = false ->
      Wired.mapRow clock row index
      = Returned (mapRow Wired.imageUrlOf clock row index)).
Proof.
  unfold Wired.rowThrows. split; intros H.
  - unfold Wired.mapRow. cbn [category mapRow setImageUrl].
    rewrite (inherited_lookup _ H). unfold getArticleImage. cbn [imgCategory].
    eexists. reflexivity.
  - destruct (CategoryFacts.mapToValidCategory_valid _ H) as (c & _ & Hc).
    unfold Wired.mapRow, mapRow, Wired.imageUrlOf, getArticleImage.
    cbn [category setImageUrl imgCategory id title content stockSymbol
         stockPrice priceChange exchange timeAgo isPremium createdAt source
         sentiment priceTarget imageUrl viewCount].
    rewrite Hc. reflexivity.
Qed.

Lemma wired_mapFrom_throws (clock : nat -> Z) (rows : list (list string)) :
  forall start,
    existsb Wired.rowThrows rows = true ->
    exists error, Wired.mapFrom clock start rows = Threw error.
Proof.
  induction rows as [| row rows IH]; intros start H; [discriminate |].
  simpl in H. cbn [Wired.mapFrom].
  destruct (Wired.rowThrows row) eqn:E.
  - destruct (proj1 (wired_mapRow clock row start) E) as [error ->].
    now exists error.
  - rewrite (proj2 (wired_mapRow clock row start) E).
    destruct (IH (S start) H) as [error ->]. now exists error.
Qed.

Lemma wired_mapFrom_returns (clock : nat -> Z) (rows : list (list string)) :
  forall start,
    existsb Wired.rowThrows rows = false ->
    Wired.mapFrom clock start rows
    = Returned (mapIndexFrom (mapRow Wired.imageUrlOf clock) start rows).
Proof.
  induction rows as [| row rows IH]; intros start H; [reflexivity |].
  simpl in H. apply orb_false_iff in H. destruct H as [E H].
  cbn [Wired.mapFrom mapIndexFrom].
  rewrite (proj2 (wired_mapRow clock row start) E), (IH (S start) H).
  reflexivity.
Qed.

(** Whatever [getArticleImage] returns is a URL of the pools. *)
Lemma image_in_pools (article : ImageRequest) (c : string) :
  imgCategory article = CatStr c ->
  exists url,
    getArticleImage article = Returned url
    /\ In url allPools
    /\ url <> ""%string.
Proof.
  intros Hc.
  assert (Hpool : forall hash articleId pool,
             pool <> [] -> (forall u, In u pool -> In u allPools) ->
             In (selectUniqueImage hash articleId pool)
               allPools).
  { intros hash articleId pool Hne Hsub.
    apply Hsub, select_in_pool, Hne. }
  assert (Hin : exists url,
             getArticleImage article = Returned url
             /\ In url allPools).
  { unfold getArticleImage. rewrite Hc. eexists.
    split; [reflexivity |].
    repeat match goal with
           | |- In (if ?b then _ else _) _ => destruct b
           end;
      apply Hpool; try discriminate;
      intros u Hu; unfold allPools;
      repeat (apply in_or_app; first [left; exact Hu | right]); exact Hu. }
  destruct Hin as (url & Hurl & Hin). exists url.
  split; [exact Hurl |]. split; [exact Hin |].
  pose proof pools_not_empty_strings as P.
  rewrite forallb_forall in P. specialize (P url Hin).
  apply negb_true_iff, String.eqb_neq in P. exact P.
Qed.

Lemma returned_image_in_pools (article : ImageRequest) (url : string) :
  getArticleImage article = Returned url ->
  In url allPools /\ url <> ""%string.
Proof.
  intros H. destruct (imgCategory article) as [c | p] eqn:E.
  - destruct (image_in_pools article c E) as (url' & Hr & Hin & Hne).
    rewrite Hr in H. injection H as <-. now split.
  - unfold getArticleImage in H. rewrite E in H. discriminate H.
Qed.

Lemma wired_mapFrom_images (clock : nat -> Z) (rows : list (list string)) :
  forall start articles,
    Wired.mapFrom clock start rows = Returned articles ->
    forall a, In a articles -> In (imageUrl a) allPools /\ imageUrl a <> ""%string.
Proof.
  induction rows as [| row rows IH]; intros start articles H a Ha.
  - injection H as <-. destruct Ha.
  - cbn [Wired.mapFrom] in H. unfold Wired.mapRow in H.
    destruct (getArticleImage _) as [url |] eqn:G; [| discriminate H].
    destruct (Wired.mapFrom clock (S start) rows) as [l |] eqn:M;
      [| discriminate H].
    injection H as <-. destruct Ha as [<- | Ha].
    + cbn [imageUrl setImageUrl]. now apply returned_image_in_pools in G.
    + now apply (IH (S start) l M).
Qed.

End ImageFacts.

(** A sheet whose second row has the category cell "Constructor". *)
Example constructor_sheet_is_dropped :
  Wired.fetchArticles (clockFrom 0)
    (Returned
       (Some [rowSeven;
              ["8"; "Builders rally"; "Cement stocks gain."; "Constructor"]]))
  = Returned [].
Proof. vm_compute. reflexivity. Qed.

(** ** Numbers and numerals *)

Module JsNumFacts.

(** A safe integer is held exactly. *)
Lemma safe_is_held (n : Z) :
  JsNum.isSafeInteger n = true -> JsNum.roundToDouble n = n.
Proof.
  unfold JsNum.isSafeInteger, JsNum.maxSafeInteger, JsNum.roundToDouble.
  intros H. apply Z.leb_le in H. cbv zeta.
  destruct (Z.abs n <? 2 ^ 53) eqn:E; [reflexivity |].
  apply Z.ltb_ge in E. lia.
Qed.

(** From 2^53 on the integers are rounded: the cell "9007199254740993" is
    read as 9007199254740992, and adding 1 to that number gives it back. *)
Example rounding_begins_at_2_53 :
  JsNum.roundToDouble 9007199254740993 = 9007199254740992
  /\ JsNum.add 9007199254740992 1 = 9007199254740992
  /\ JsNum.isSafeInteger 9007199254740992 = false
  /\ JsNum.add 9007199254740991 1 = 9007199254740992.
Proof. repeat split. Qed.

Lemma digit_char (d : Z) :
  0 <= d < 10 -> Js.digitIn 10 (ascii_of_nat (48 + Z.to_nat d)) = Some d.
Proof.
  intros H.
  assert (C : d = 0 \/ d = 1 \/ d = 2 \/ d = 3 \/ d = 4 \/ d = 5 \/ d = 6
              \/ d = 7 \/ d = 8 \/ d = 9) by lia.
  repeat (destruct C as [-> | C]; [reflexivity |]). subst d. reflexivity.
Qed.

(** Reading a numeral written by [decimalFrom] appends its value to what
    was read before. *)
Lemma decimalFrom_parse (fuel : nat) :
  forall n,
    0 <= n < 10 ^ (Z.of_nat fuel + 1) ->
    exists k,
      0 <= k
      /\ forall tail acc seen,
           Js.parseDigits 10 (JsNum.decimalFrom fuel n tail) acc seen
           = Js.parseDigits 10 tail (acc * 10 ^ k + n) true.
Proof.
  assert (Hone : forall n, 0 <= n < 10 ->
            forall tail acc seen,
              Js.parseDigits 10
                (String (ascii_of_nat (48 + Z.to_nat (n mod 10))) tail) acc seen
              = Js.parseDigits 10 tail (acc * 10 ^ 1 + n) true).
  { intros n Hn tail acc seen. cbn [Js.parseDigits].
    rewrite (Z.mod_small n 10 Hn), (digit_char n Hn). now rewrite Z.pow_1_r. }
  induction fuel as [| fuel IH]; intros n Hn.
  - exists 1. split; [lia |]. intros tail acc seen. cbn [JsNum.decimalFrom].
    apply Hone. simpl in Hn. lia.
  - cbn [JsNum.decimalFrom]. destruct (n <? 10) eqn:E.
    + apply Z.ltb_lt in E. exists 1. split; [lia |]. intros tail acc seen.
      apply Hone. lia.
    + apply Z.ltb_ge in E.
      assert (Hq : 0 <= n / 10 < 10 ^ (Z.of_nat fuel + 1)).
      { split; [apply Z.div_pos; lia |].
        apply Z.div_lt_upper_bound; [lia |].
        replace (Z.of_nat (S fuel) + 1) with (Z.succ (Z.of_nat fuel + 1)) in Hn
          by lia.
        rewrite Z.pow_succ_r in Hn by lia. lia. }
      destruct (IH (n / 10) Hq) as (k & Hk & Hparse).
      exists (Z.succ k). split; [lia |]. intros tail acc seen.
      rewrite Hparse. cbn [Js.parseDigits].
      assert (Hd : 0 <= n mod 10 < 10) by (apply Z.mod_pos_bound; lia).
      rewrite (digit_char _ Hd). f_equal.
      rewrite Z.pow_succ_r by exact Hk.
      pose proof (Z.div_mod n 10 ltac:(lia)) as Hdm. lia.
Qed.

(** A numeral written by [decimalFrom] starts with a digit, and what
    follows the first digit is [tail] or starts with a digit. *)
Lemma decimalFrom_head (fuel : nat) :
  forall n tail,
    exists d s,
      0 <= d < 10
      /\ JsNum.decimalFrom fuel n tail
         = String (ascii_of_nat (48 + Z.to_nat d)) s
      /\ (s = tail
          \/ exists d' s',
               0 <= d' < 10
               /\ s = String (ascii_of_nat (48 + Z.to_nat d')) s').
Proof.
  assert (Hd : forall n, 0 <= n mod 10 < 10)
    by (intros n; apply Z.mod_pos_bound; lia).
  induction fuel as [| fuel IH]; intros n tail.
  - exists (n mod 10), tail. cbn [JsNum.decimalFrom]. auto.
  - cbn [JsNum.decimalFrom]. destruct (n <? 10).
    + exists (n mod 10), tail. auto.
    + destruct (IH (n / 10)
                  (String (ascii_of_nat (48 + Z.to_nat (n mod 10))) tail))
        as (d & s & Hdd & E & [-> | Hs]).
      * exists d. eexists. split; [exact Hdd |]. split; [exact E |].
        right. exists (n mod 10), tail. auto.
      * exists d, s. auto.
Qed.

(** [parseInt] on a string that starts with a decimal digit which no [x]
    follows reads the digits in radix 10. *)
Lemma parseInt_digits (d : Z) (s : string) :
  0 <= d < 10 ->
  (s = ""%string
   \/ exists d' s',
        0 <= d' < 10 /\ s = String (ascii_of_nat (48 + Z.to_nat d')) s') ->
  Js.parseInt (String (ascii_of_nat (48 + Z.to_nat d)) s)
  = match
      Js.parseDigits 10 (String (ascii_of_nat (48 + Z.to_nat d)) s) 0 false
    with
    | Some n => Some (1 * n)
    | None => None
    end.
Proof.
  intros Hd Hs.
  assert (C : d = 0 \/ d = 1 \/ d = 2 \/ d = 3 \/ d = 4 \/ d = 5 \/ d = 6
              \/ d = 7 \/ d = 8 \/ d = 9) by lia.
  destruct C as [-> | C].
  - destruct Hs as [-> | (d' & s' & Hd' & ->)]; [reflexivity |].
    assert (C' : d' = 0 \/ d' = 1 \/ d' = 2 \/ d' = 3 \/ d' = 4 \/ d' = 5
                 \/ d' = 6 \/ d' = 7 \/ d' = 8 \/ d' = 9) by lia.
    repeat (destruct C' as [-> | C']; [reflexivity |]). subst d'. reflexivity.
  - repeat (destruct C as [-> | C]; [reflexivity |]). subst d. reflexivity.
Qed.

(** [parseInt] reads back the numeral of a non-negative integer. *)
Lemma parseInt_decimal (n : Z) :
  0 <= n -> Js.parseInt (JsNum.decimal n) = Some n.
Proof.
  intros Hn. unfold JsNum.decimal.
  set (fuel := Z.to_nat (Z.log2 n)).
  assert (Hfuel : 0 <= n < 10 ^ (Z.of_nat fuel + 1)).
  { split; [exact Hn |]. unfold fuel.
    rewrite Z2Nat.id by apply Z.log2_nonneg.
    destruct (Z.eq_dec n 0) as [-> | Hz]; [reflexivity |].
    pose proof (Z.log2_spec n ltac:(lia)) as [_ Hlt].
    pose proof (Z.log2_nonneg n) as Hl.
    pose proof (Z.pow_le_mono_l 2 10 (Z.succ (Z.log2 n)) ltac:(lia)) as Hp.
    replace (Z.log2 n + 1) with (Z.succ (Z.log2 n)) by lia. lia. }
  destruct (decimalFrom_parse fuel n Hfuel) as (k & _ & Hparse).
  destruct (decimalFrom_head fuel n "") as (d & s & Hd & E & Hs).
  specialize (Hparse ""%string 0 false).
  rewrite E in Hparse |- *.
  rewrite (parseInt_digits d s Hd Hs), Hparse. cbn [Js.parseDigits].
  f_equal. lia.
Qed.

(** A string that starts with a letter is no numeral. *)
Lemma parseInt_letter (c : ascii) (s : string) :
  isAsciiLetter c = true -> Js.parseInt (String c s) = None.
Proof.
  destruct c as [[] [] [] [] [] [] [] []]; intros H;
    first [discriminate H | reflexivity].
Qed.

End JsNumFacts.

(** ** The sync with [getArticleImage] in place *)

Module WiredFacts.

Lemma fetch_returns_mapped (clock : nat -> Z) (rows : list (list string)) :
  existsb Wired.rowThrows (filter usableRow rows) = false ->
  Wired.fetchArticles clock (Returned (Some rows))
  = Returned (mapRows Wired.imageUrlOf clock rows).
Proof.
  intros H. unfold Wired.fetchArticles, mapRows, mapIndex.
  now rewrite (ImageFacts.wired_mapFrom_returns clock _ 0%nat H).
Qed.

Lemma fetch_dropped (clock : nat -> Z) (rows : list (list string)) :
  existsb Wired.rowThrows (filter usableRow rows) = true ->
  Wired.fetchArticles clock (Returned (Some rows)) = Returned [].
Proof.
  intros H. unfold Wired.fetchArticles.
  now destruct (ImageFacts.wired_mapFrom_throws clock _ 0%nat H) as [error ->].
Qed.

Lemma sync_as_mapped (w : World) (st : MemStorage)
  (service : GoogleSheetsService) (rows : list (list string)) :
  googleSheets st = Some service ->
  response w = Returned (Some rows) ->
  existsb Wired.rowThrows (filter usableRow rows) = false ->
  Wired.syncFromGoogleSheets w st
  = syncWith (Returned (mapRows Wired.imageUrlOf (rowTime w) rows))
      (dateNow w) st.
Proof.
  intros Hsvc Hresp H. unfold Wired.syncFromGoogleSheets.
  now rewrite Hsvc, Hresp, (fetch_returns_mapped _ _ H).
Qed.

Lemma sync_dropped (w : World) (st : MemStorage)
  (rows : list (list string)) :
  response w = Returned (Some rows) ->
  existsb Wired.rowThrows (filter usableRow rows) = true ->
  Wired.syncFromGoogleSheets w st = st.
Proof.
  intros Hresp H. unfold Wired.syncFromGoogleSheets.
  destruct (googleSheets st); [| reflexivity].
  now rewrite Hresp, (fetch_dropped _ _ H).
Qed.

Lemma filter_skip (before after : list (list string)) (row : list string) :
  usableRow row = false ->
  filter usableRow (before ++ row :: after) = filter usableRow (before ++ after).
Proof.
  intros H. rewrite !filter_app. cbn [filter]. now rewrite H.
Qed.

Lemma safe_row (rows : list (list string)) (k : nat) (row : list string) :
  safeIdRows rows = true ->
  nth_error (filter usableRow rows) k = Some row ->
  JsNum.isSafeInteger (rowId row k) = true.
Proof.
  intros Hsafe Hrow. unfold safeIdRows in Hsafe.
  rewrite forallb_forall in Hsafe. apply Hsafe.
  apply nth_error_In with (n := k).
  now rewrite FetchFacts.mapIndex_nth, Hrow.
Qed.

Lemma loop_counter_from_one (l : list Article) : 1 <= nextId (syncLoop l).
Proof.
  induction l as [| a l IH] using rev_ind; [simpl; lia |].
  rewrite SyncFacts.syncLoop_snoc. cbn [syncStep nextId].
  unfold withViewCount. cbn [id setViewCount].
  rewrite SyncFacts.withUniqueContent_id.
  destruct (Z.leb_spec (nextId (syncLoop l)) (id a)); lia.
Qed.

(** The counter of the loop is at most one above the largest id. *)
Lemma loop_counter_bound (l : list Article) (bound : Z) :
  0 <= bound ->
  (forall a, In a l -> id a <= bound) ->
  nextId (syncLoop l) <= bound + 1.
Proof.
  intros Hb. induction l as [| a l IH] using rev_ind; intros H; [simpl; lia |].
  rewrite SyncFacts.syncLoop_snoc. cbn [syncStep nextId].
  assert (IH' : nextId (syncLoop l) <= bound + 1)
    by (apply IH; intros b Hin; apply H, in_or_app; now left).
  assert (Ha : id a <= bound) by (apply H, in_or_app; right; now left).
  unfold withViewCount. cbn [id setViewCount].
  rewrite SyncFacts.withUniqueContent_id.
  destruct (nextId (syncLoop l) <=? id a); lia.
Qed.

End WiredFacts.

(** ** The properties *)

(** After a sync that stored anything, every view count is 0, whatever the
    storage held before. *)
Lemma sync_view_counts_zero (batch : list Article) (now : Z) (st : MemStorage)
  (i : Z) (f : Article) :
  batch <> [] ->
  JsMap.get i (articles (syncWith (Returned batch) now st)) = Some f ->
  viewCount f = Some 0.
Proof.
  intros Hne. unfold syncWith.
  destruct batch as [| a batch]; [contradiction |]. simpl List.length.
  cbv iota beta. simpl articles. rewrite SyncFacts.store_is_last.
  unfold lastWithId. intros F. apply find_some in F.
  destruct F as [Hin _]. apply in_rev in Hin.
  pose proof (SyncFacts.processed_views (a :: batch)) as V.
  rewrite Forall_forall in V. now apply V.
Qed.

(** C1 (the code departs from the claim): article 7 is stored with 42
    views, the sheet is fetched again with the same row 7, and the stored
    article 7 ends with 0 views: the map is cleared before the loop looks
    the old article up. *)
Theorem resync_resets_view_count :
  option_map viewCount (JsMap.get 7 (articles viewedStorage)) = Some (Some 42)
  /\ option_map viewCount (JsMap.get 7 (articles resyncedStorage))
     = Some (Some 0).
Proof. split; vm_compute; reflexivity. Qed.

(** C2: when the fetch fails, [syncFromGoogleSheets] returns the storage it
    was given, with the same articles under the same ids: both when the
    spreadsheet call rejects inside [fetchArticles] and when the awaited
    [fetchArticles] itself rejects; [forceSyncFromGoogleSheets] then leaves
    the article map as it was too. *)
Theorem failed_fetch_keeps_store (getArticleImage : ImageRequest -> string)
  (error : string) (clock : nat -> Z) (now : Z) (st : MemStorage) :
  syncFromGoogleSheets getArticleImage (mkWorld (Threw error) clock now) st = st
  /\ syncWith (Threw error) now st = st
  /\ articles
       (forceSyncFromGoogleSheets getArticleImage
          (mkWorld (Threw error) clock now) st)
     = articles st.
Proof.
  unfold forceSyncFromGoogleSheets, syncFromGoogleSheets. simpl.
  repeat split; destruct (googleSheets st); reflexivity.
Qed.

(** C3 (the code departs from the claim): a mapped row is premium exactly
    when its flag cell reads as true, and [createArticle] never marks an
    article premium, whatever the category; so the row with category
    warrant and no flag, and the inserted warrant article, are both not
    premium. *)
Theorem premium_ignores_category :
  (forall getArticleImage clock row k,
      isPremium (mapRow getArticleImage clock row k)
      = String.eqb (Js.toLowerCase (Js.cell row 10)) "true")
  /\ (forall getArticleImage now insertArticle st,
         isPremium (snd (createArticle getArticleImage now insertArticle st))
         = false)
  /\ category (mapRow sampleImage (clockFrom 0) warrantRow 0) = CatStr "warrant"
  /\ isPremium (mapRow sampleImage (clockFrom 0) warrantRow 0) = false
  /\ category (snd (createArticle sampleImage 0 warrantInsert emptyStorage))
     = CatStr "warrant"
  /\ isPremium (snd (createArticle sampleImage 0 warrantInsert emptyStorage))
     = false.
Proof. repeat split. Qed.

(** C4 (the code departs from the claim): the loop of the sync announces
    unique content for duplicates, and does not always give it.  In the
    sheet of seven rows with one headline, the rows at positions 0, 1 and 6
    carry the raw content "Content A"; the loop regenerates the contents at
    1 and 6, and since the generator picks its texts by the position modulo
    5 the two articles end with the same content. *)
Theorem regenerated_duplicates_collide :
  option_map (fun row => Js.cell row 2) (nth_error repeatedHeadlineSheet 1)
  = Some "Content A"%string
  /\ option_map (fun row => Js.cell row 2) (nth_error repeatedHeadlineSheet 6)
     = Some "Content A"%string
  /\ finalContentAt repeatedHeadlineSheet 1
     = finalContentAt repeatedHeadlineSheet 6
  /\ finalContentAt repeatedHeadlineSheet 6
     = Some
         "Breaking: Nifty up has emerged as a key market story today. Fundamental analysis reveals robust growth prospects and market positioning. NIFTY is currently trading at 23000 showing +1% movement in the current session. Traders and investors are monitoring these developments for potential market opportunities."%string.
Proof. repeat split; vm_compute; reflexivity. Qed.

(** C5, as stated, fails: the alias "sme" is normalised to the category
    the code writes with a blank, which the stated set does not contain. *)
Lemma sme_leaves_the_stated_set :
  normalizeCategory "sme" = CatStr "sme ipo"
  /\ ~ In (normalizeCategory "sme") (map CatStr specCategories).
Proof.
  split; [vm_compute; reflexivity |].
  intros Hin. vm_compute in Hin.
  repeat (destruct Hin as [Hin | Hin]; [discriminate Hin |]).
  exact Hin.
Qed.

(** C5, amended: category normalisation is a total function, and for every
    input whose lower-cased, trimmed form is neither "constructor" nor
    "__proto__" it returns one category of nifty, breakout, movers,
    warrant, ipo, "sme ipo", order_wins, ath, results, research_report,
    others, global; "GLOBAL", "Global " and " global" are normalised like
    "global", and the empty string and unknown text get a category too. *)
Theorem normalizeCategory_total (s : string) :
  Js.trim (Js.toLowerCase s) <> "constructor"%string ->
  Js.trim (Js.toLowerCase s) <> "__proto__"%string ->
  (exists c, In c validCategories /\ normalizeCategory s = CatStr c)
  /\ normalizeCategory "GLOBAL" = normalizeCategory "global"
  /\ normalizeCategory "Global " = normalizeCategory "global"
  /\ normalizeCategory " global" = normalizeCategory "global"
  /\ normalizeCategory "global" = CatStr "global"
  /\ normalizeCategory "" = CatStr "global"
  /\ normalizeCategory "zzz" = CatStr "others".
Proof.
  intros Hc Hp. split.
  - apply CategoryFacts.mapToValidCategory_valid.
    destruct (isInherited (Js.trim (Js.toLowerCase s))) eqn:E; [| reflexivity].
    destruct (CategoryFacts.inherited_after_normalising s E); contradiction.
  - repeat split; vm_compute; reflexivity.
Qed.

(** The amended C5 at the mixed-case alias "Most Active". *)
Lemma normalizeCategory_total_witness :
  exists c, In c validCategories /\ normalizeCategory "Most Active" = CatStr c.
Proof.
  apply (normalizeCategory_total "Most Active"); vm_compute; discriminate.
Defined.

(** C6, as stated, fails: the spreadsheet call rejects and [fetchArticles]
    still resolves, with the empty array an empty sheet gives, not with an
    error. *)
Lemma rejected_fetch_looks_empty :
  fetchArticles sampleImage (clockFrom 0) (Threw "socket hang up")
  = fetchArticles sampleImage (clockFrom 0) (Returned (Some []))
  /\ forall error,
       fetchArticles sampleImage (clockFrom 0) (Threw "socket hang up")
       <> Threw error.
Proof. split; [reflexivity | intros error; discriminate]. Qed.

(** C6, amended: when the spreadsheet call rejects, [fetchArticles] catches
    the error and resolves with the empty array, the same result as for a
    sheet without rows; [syncFromGoogleSheets] takes its "no articles"
    branch and returns the storage unchanged. *)
Theorem rejected_fetch_returns_empty
  (getArticleImage : ImageRequest -> string) (clock : nat -> Z)
  (error : string) :
  fetchArticles getArticleImage clock (Threw error) = Returned []
  /\ fetchArticles getArticleImage clock (Threw error)
     = fetchArticles getArticleImage clock (Returned None)
  /\ fetchArticles getArticleImage clock (Threw error)
     = fetchArticles getArticleImage clock (Returned (Some []))
  /\ forall now st,
       syncFromGoogleSheets getArticleImage (mkWorld (Threw error) clock now) st
       = st.
Proof.
  repeat split. intros now st. unfold syncFromGoogleSheets.
  now destruct (googleSheets st).
Qed.

(** C7: [getTrendingArticles] returns a head followed by a tail.  The head
    is the first 15 of the stored articles ordered by view count
    descending, ties by [createdAt] descending, so each article of the
    head ranks no later than each article left out of it.  The tail holds,
    of each of nifty, breakout, ipo, research_report and movers, the first
    two articles of the remainder, and of all other categories together
    the first five, in the remainder's order.  [getArticles("trending")]
    returns the same list.  On a store of 20 articles with distinct view
    counts the head is the 15 most viewed articles in strictly descending
    view count. *)
Theorem trending_head_then_quota (getArticleImage : ImageRequest -> string)
  (now : Z) (w : World) (st : MemStorage) :
  let stored := JsMap.values (articles st) in
  let ranked := sortedByViews st in
  let head := firstn 15 ranked in
  let rest := skipn 15 ranked in
  Permutation stored ranked
  /\ StronglySorted ranksNoLater ranked
  /\ (forall a b, In a head -> In b rest -> ranksNoLater a b)
  /\ (exists tail,
         getTrendingArticles st = head ++ tail
         /\ (forall c, In c trendingCategories ->
               filter (inCategory c) tail = firstn 2 (filter (inCategory c) rest)
               /\ (List.length (filter (inCategory c) tail) <= 2)%nat)
         /\ filter (inNoneOf trendingCategories) tail
            = firstn 5 (filter (inNoneOf trendingCategories) rest)
         /\ (List.length (filter (inNoneOf trendingCategories) tail) <= 5)%nat)
  /\ snd (getArticles getArticleImage now w (Some "trending"%string) st)
     = getTrendingArticles
         (fst (getArticles getArticleImage now w (Some "trending"%string) st))
  /\ (List.length stored = 20%nat ->
      NoDup (map views stored) ->
      firstn 15 (getTrendingArticles st) = head
      /\ List.length head = 15%nat
      /\ StronglySorted moreViews head
      /\ forall a b, In a head -> In b stored -> ~ In b head -> moreViews a b).
Proof.
  intros stored ranked head rest.
  pose proof (TrendingFacts.sortedByViews_perm st) as Hperm.
  pose proof (TrendingFacts.sortedByViews_sorted st) as Hsorted.
  fold stored ranked in Hperm. fold ranked in Hsorted.
  assert (Hsplit : ranked = head ++ rest)
    by (unfold head, rest; now rewrite firstn_skipn).
  split; [exact Hperm |]. split; [exact Hsorted |].
  split.
  { rewrite Hsplit in Hsorted.
    now apply ListFacts.StronglySorted_app_inv in Hsorted. }
  split.
  { exists (diverseContent rest). split; [reflexivity |].
    split; [| split].
    - intros c Hc. rewrite (TrendingFacts.tail_of_category c rest Hc).
      split; [reflexivity | apply firstn_le_length].
    - apply TrendingFacts.tail_of_others.
    - rewrite TrendingFacts.tail_of_others. apply firstn_le_length. }
  split; [apply TrendingFacts.getArticles_trending |].
  intros Hlen Hnd.
  assert (Hlen' : List.length ranked = 20%nat)
    by (rewrite <- Hlen; symmetry; now apply Permutation_length).
  assert (Hhead : List.length head = 15%nat)
    by (unfold head; rewrite length_firstn; lia).
  assert (Hstrict : StronglySorted moreViews ranked).
  { apply (ListFacts.StronglySorted_strengthen ranksNoLater moreViews views).
    - unfold ranksNoLater, moreViews. intros a b [H | [H _]] Hne; [exact H |].
      contradiction.
    - exact Hsorted.
    - eapply Permutation_NoDup; [| exact Hnd]. now apply Permutation_map. }
  rewrite Hsplit in Hstrict.
  apply ListFacts.StronglySorted_app_inv in Hstrict.
  destruct Hstrict as (Hs1 & _ & Hcross).
  split.
  { unfold getTrendingArticles. fold ranked head rest.
    rewrite firstn_app, Hhead, Nat.sub_diag, firstn_0, app_nil_r.
    apply firstn_all2. lia. }
  split; [exact Hhead |]. split; [exact Hs1 |].
  intros a b Ha Hb Hnot. apply Hcross; [exact Ha |].
  assert (Hin : In b ranked) by (eapply Permutation_in; eauto).
  rewrite Hsplit in Hin. apply in_app_or in Hin. tauto.
Qed.

(** C7 on the store of 20 articles. *)
Lemma trending_head_then_quota_witness :
  List.length (firstn 15 (sortedByViews twentyStorage)) = 15%nat
  /\ StronglySorted moreViews (firstn 15 (sortedByViews twentyStorage))
  /\ firstn 15 (getTrendingArticles twentyStorage)
     = firstn 15 (sortedByViews twentyStorage).
Proof.
  destruct (trending_head_then_quota sampleImage 0 (sheetWith [] 0)
              twentyStorage) as (_ & _ & _ & _ & _ & H).
  destruct H as (Hfirst & Hlen & Hs & _).
  - vm_compute. reflexivity.
  - apply distinctZ_NoDup. vm_compute. reflexivity.
  - split; [exact Hlen |]. split; [exact Hs | exact Hfirst].
Defined.

Example trending_on_twenty :
  map (fun a => (id a, views a)) (getTrendingArticles twentyStorage)
  = [ (13, 22); (3, 21); (16, 20); (6, 19); (19, 18); (9, 17); (12, 15);
      (2, 14); (15, 13); (5, 12); (18, 11); (8, 10); (11, 8); (1, 7);
      (14, 6); (20, 2); (10, 1); (4, 5); (17, 4); (7, 3) ].
Proof. vm_compute. reflexivity. Qed.

(** C8, as stated, fails: the row has an id, and it is skipped; the batch
    holds the article of the other row, mapped at index 0. *)
Lemma row_with_id_only_is_skipped :
  Js.truthy (Js.cell idOnlyRow 0) = true
  /\ usableRow idOnlyRow = false
  /\ Wired.fetchArticles (clockFrom 0) (Returned (Some [idOnlyRow; rowSeven]))
     = Wired.fetchArticles (clockFrom 0) (Returned (Some [rowSeven]))
  /\ exists a,
       Wired.fetchArticles (clockFrom 0) (Returned (Some [idOnlyRow; rowSeven]))
       = Returned [a]
       /\ title a = "Nifty up"%string /\ createdAt a = 0.
Proof.
  split; [reflexivity |]. split; [reflexivity |].
  split; [reflexivity |].
  eexists. split; [vm_compute; reflexivity |]. split; reflexivity.
Qed.

(** C8, amended: a row is usable exactly when it has at least three cells
    and both its id cell and its title cell are non-empty; every other row
    is skipped, and skipping never aborts the batch: [fetchArticles]
    returns what it returns for the sheet without the row.  When
    [getArticleImage] throws on no usable row, every usable row is mapped,
    in order, with its position among the usable rows as index.  It throws
    on the rows whose category cell reads "constructor" or "__proto__" once
    lower-cased and trimmed, and then [fetchArticles] returns the empty
    array. *)
Theorem rows_need_id_and_title (clock : nat -> Z) :
  (forall row,
      usableRow row = true
      <-> (3 <= List.length row)%nat
          /\ Js.cell row 0 <> ""%string /\ Js.cell row 1 <> ""%string)
  /\ (forall before row after,
         usableRow row = false ->
         Wired.fetchArticles clock (Returned (Some (before ++ row :: after)))
         = Wired.fetchArticles clock (Returned (Some (before ++ after))))
  /\ (forall rows,
         existsb Wired.rowThrows (filter usableRow rows) = false ->
         exists batch,
           Wired.fetchArticles clock (Returned (Some rows)) = Returned batch
           /\ List.length batch = List.length (filter usableRow rows)
           /\ forall k row,
                nth_error (filter usableRow rows) k = Some row ->
                exists a,
                  nth_error batch k = Some a
                  /\ title a = Js.cell row 1
                  /\ category a = normalizeCategory (Js.cell row 3)
                  /\ createdAt a = clock k)
  /\ (forall rows,
         existsb Wired.rowThrows (filter usableRow rows) = true ->
         Wired.fetchArticles clock (Returned (Some rows)) = Returned [])
  /\ (forall row,
         Wired.rowThrows row = true
         <-> Js.trim (Js.toLowerCase (Js.cell row 3)) = "constructor"%string
             \/ Js.trim (Js.toLowerCase (Js.cell row 3)) = "__proto__"%string).
Proof.
  split; [exact FetchFacts.usableRow_iff |].
  split.
  { intros before row after H. unfold Wired.fetchArticles.
    now rewrite (WiredFacts.filter_skip before after row H). }
  split.
  { intros rows H. exists (mapRows Wired.imageUrlOf clock rows).
    split; [now apply WiredFacts.fetch_returns_mapped |].
    split; [apply FetchFacts.mapRows_length |].
    intros k row Hrow. exists (mapRow Wired.imageUrlOf clock row k).
    split; [now apply FetchFacts.mapRows_nth |].
    split; [| split; reflexivity].
    apply nth_error_In, filter_In in Hrow. destruct Hrow as [_ Hu].
    apply FetchFacts.usableRow_iff in Hu. destruct Hu as (_ & _ & Ht).
    simpl. unfold Js.orElse.
    apply FetchFacts.truthy_iff in Ht. now rewrite Ht. }
  split; [intros rows H; now apply WiredFacts.fetch_dropped |].
  intros row. split.
  - intros H. now apply CategoryFacts.inherited_after_normalising.
  - unfold Wired.rowThrows. intros [-> | ->]; reflexivity.
Qed.

(** The amended C8 at a batch whose middle row has no title. *)
Lemma rows_need_id_and_title_witness :
  Wired.fetchArticles (clockFrom 0)
    (Returned (Some ([rowSeven] ++ idOnlyRow :: [warrantRow])))
  = Wired.fetchArticles (clockFrom 0)
      (Returned (Some ([rowSeven] ++ [warrantRow])))
  /\ exists batch,
       Wired.fetchArticles (clockFrom 0)
         (Returned (Some [rowSeven; idOnlyRow; warrantRow]))
       = Returned batch
       /\ List.length batch = 2%nat.
Proof.
  pose proof (rows_need_id_and_title (clockFrom 0)) as T.
  destruct T as (_ & Hskip & Hmap & _).
  split.
  - apply Hskip. reflexivity.
  - destruct (Hmap [rowSeven; idOnlyRow; warrantRow] eq_refl)
      as (batch & Hb & Hl & _).
    exists batch. split; [exact Hb | exact Hl].
Defined.

(** C9, as stated, fails: article 7 is first created by a sync at time
    1000; the sheet is synced again at time 500000 with the same row, and
    the stored [createdAt] of article 7 is then 500000. *)
Lemma resync_overwrites_createdAt :
  option_map createdAt (getArticle 7 stampedStorage) = Some 1000
  /\ option_map createdAt (getArticle 7 restampedStorage) = Some 500000
  /\ option_map createdAt (getArticle 7 restampedStorage)
     <> option_map createdAt (getArticle 7 stampedStorage).
Proof.
  split; [vm_compute; reflexivity |].
  split; [vm_compute; reflexivity |].
  vm_compute. discriminate.
Qed.

(** C9, amended: when [fetchArticles] returns a batch (no usable row makes
    [getArticleImage] throw) whose ids are safe integers, then for each
    row of the batch the article stored under its id after the sync
    carries as [createdAt] the time at which the last row of the batch
    with that id was mapped in this sync ([new Date()] in
    [fetchArticles]); the [createdAt] stored before plays no part.  The id
    is a number that holds the integer read in the cell. *)
Theorem resync_restamps_createdAt (w : World) (st : MemStorage)
  (service : GoogleSheetsService) (rows : list (list string)) (k : nat)
  (row : list string) :
  googleSheets st = Some service ->
  response w = Returned (Some rows) ->
  existsb Wired.rowThrows (filter usableRow rows) = false ->
  safeIdRows rows = true ->
  nth_error (filter usableRow rows) k = Some row ->
  (forall k' row',
      (k < k')%nat ->
      nth_error (filter usableRow rows) k' = Some row' ->
      rowId row' k' <> rowId row k) ->
  exists f,
    getArticle (rowId row k) (Wired.syncFromGoogleSheets w st) = Some f
    /\ id f = rowId row k
    /\ JsNum.roundToDouble (id f) = id f
    /\ createdAt f = rowTime w k.
Proof.
  intros Hsvc Hresp Hthrow Hsafe Hrow Hlast.
  rewrite (WiredFacts.sync_as_mapped w st service rows Hsvc Hresp Hthrow).
  pose proof (FetchFacts.mapRows_nth Wired.imageUrlOf (rowTime w) rows k row
                Hrow) as Ha.
  unfold getArticle, syncWith. rewrite (BatchFacts.nonempty_length _ _ _ Ha).
  cbn [articles].
  eexists. split; [| split; [| split]].
  - change (rowId row k) with (id (mapRow Wired.imageUrlOf (rowTime w) row k)).
    apply StoreFacts.stored_is_last_occurrence with (k := k); [exact Ha |].
    intros k' a' Hk' Ha'.
    destruct (BatchFacts.mapRows_nth_inv _ _ _ _ _ Ha') as (row' & Hrow' & ->).
    exact (Hlast k' row' Hk' Hrow').
  - now rewrite StoreFacts.settled_id.
  - rewrite StoreFacts.settled_id. apply JsNumFacts.safe_is_held.
    exact (WiredFacts.safe_row rows k row Hsafe Hrow).
  - now rewrite StoreFacts.settled_createdAt.
Qed.

(** The amended C9 on the second sync of row 7. *)
Lemma resync_restamps_createdAt_witness :
  exists f,
    getArticle 7 restampedStorage = Some f
    /\ id f = 7
    /\ JsNum.roundToDouble (id f) = id f
    /\ createdAt f = 500000.
Proof.
  refine (resync_restamps_createdAt (sheetWith [rowSeven] 500000)
            stampedStorage sheetsService [rowSeven] 0 rowSeven _ _ _ _ _ _).
  - reflexivity.
  - reflexivity.
  - reflexivity.
  - reflexivity.
  - reflexivity.
  - intros k' row' Hk' Hrow'. destruct k' as [| [| k']]; [inversion Hk' | |];
      discriminate Hrow'.
Defined.

(** C10: when [fetchArticles] returns the mapped rows (no usable row makes
    [getArticleImage] throw) and the ids read from the sheet are safe
    integers, each mapped article gets as id the integer [parseInt] reads
    in the first cell of its row (the integer [n] for the numeral of [n]),
    or its index among the mapped rows plus one when that is [NaN] (as for
    a cell that starts with a letter) or 0, and is stored under that id.
    When several elements of a batch carry one id, the store holds what the
    loop made of the last of them.  The keys of the store stay pairwise
    different, so the store holds at most as many articles as the batch has
    elements, and fewer when an id repeats, as it does for two rows with
    the id 1.  When a usable row makes [getArticleImage] throw, nothing is
    mapped and the store is left as it was. *)
Theorem batch_is_keyed_by_id (w : World) (st : MemStorage)
  (service : GoogleSheetsService) (rows : list (list string)) :
  googleSheets st = Some service ->
  response w = Returned (Some rows) ->
  safeIdRows rows = true ->
  NoDup (JsMap.keys (articles st)) ->
  let st' := Wired.syncFromGoogleSheets w st in
  (existsb Wired.rowThrows (filter usableRow rows) = false ->
   exists batch,
     Wired.fetchArticles (rowTime w) (response w) = Returned batch
     /\ List.length batch = List.length (filter usableRow rows)
     /\ (forall k row,
            nth_error (filter usableRow rows) k = Some row ->
            exists a f,
              nth_error batch k = Some a
              /\ id a = Js.numOr (Js.parseInt (Js.cell row 0)) (Z.of_nat k + 1)
              /\ JsNum.roundToDouble (id a) = id a
              /\ (forall n, 0 < n -> Js.cell row 0 = JsNum.decimal n -> id a = n)
              /\ (forall c rest,
                     Js.cell row 0 = String c rest ->
                     isAsciiLetter c = true -> id a = Z.of_nat k + 1)
              /\ (forall n,
                     Js.parseInt (Js.cell row 0) = Some n -> n <> 0 -> id a = n)
              /\ (Js.parseInt (Js.cell row 0) = None
                  \/ Js.parseInt (Js.cell row 0) = Some 0 ->
                  id a = Z.of_nat k + 1)
              /\ getArticle (id a) st' = Some f
              /\ id f = id a)
     /\ (forall k k' a a',
            (k < k')%nat ->
            nth_error batch k = Some a ->
            nth_error batch k' = Some a' ->
            id a = id a' ->
            (forall k'' a'',
                (k' < k'')%nat -> nth_error batch k'' = Some a'' ->
                id a'' <> id a') ->
            exists f,
              getArticle (id a) st' = Some f
              /\ nth_error (processed (syncLoop batch)) k' = Some f
              /\ title f = title a' /\ createdAt f = createdAt a')
     /\ (batch <> [] -> (JsMap.size (articles st') <= List.length batch)%nat))
  /\ (existsb Wired.rowThrows (filter usableRow rows) = true ->
      Wired.fetchArticles (rowTime w) (response w) = Returned [] /\ st' = st)
  /\ NoDup (JsMap.keys (articles st'))
  /\ (exists twice,
         Wired.fetchArticles (rowTime w) (Returned (Some sameIdRows))
         = Returned twice
         /\ List.length twice = 2%nat
         /\ JsMap.size (articles (syncWith (Returned twice) (dateNow w) st))
            = 1%nat).
Proof.
  intros Hsvc Hresp Hsafe Hst st'.
  split.
  { intros Hthrow.
    set (batch := mapRows Wired.imageUrlOf (rowTime w) rows).
    assert (Hsync : st' = syncWith (Returned batch) (dateNow w) st)
      by (apply (WiredFacts.sync_as_mapped w st service rows Hsvc Hresp Hthrow)).
    assert (Hstore : forall k a, nth_error batch k = Some a ->
                                 articles st' = store (syncLoop batch)).
    { intros k a Ha. rewrite Hsync. unfold syncWith.
      now rewrite (BatchFacts.nonempty_length _ _ _ Ha). }
    exists batch.
    split; [rewrite Hresp; now apply WiredFacts.fetch_returns_mapped |].
    split; [apply FetchFacts.mapRows_length |].
    split.
    { intros k row Hrow.
      pose proof (FetchFacts.mapRows_nth Wired.imageUrlOf (rowTime w) rows k row
                    Hrow) as Ha. fold batch in Ha.
      destruct (StoreFacts.batch_id_stored batch k _ Ha) as [f Hf].
      exists (mapRow Wired.imageUrlOf (rowTime w) row k), f.
      split; [exact Ha |]. split; [reflexivity |].
      split.
      { apply JsNumFacts.safe_is_held.
        exact (WiredFacts.safe_row rows k row Hsafe Hrow). }
      split.
      { intros n Hn Hcell. rewrite FetchFacts.mapRow_id, Hcell.
        rewrite JsNumFacts.parseInt_decimal by lia. cbn [Js.numOr].
        destruct (Z.eqb_spec n 0); [lia | reflexivity]. }
      split.
      { intros c rest Hcell Hc. rewrite FetchFacts.mapRow_id, Hcell.
        now rewrite (JsNumFacts.parseInt_letter c rest Hc). }
      split.
      { intros n Hn Hn0. rewrite FetchFacts.mapRow_id, Hn. simpl.
        apply Z.eqb_neq in Hn0. now rewrite Hn0. }
      split.
      { intros [Hn | Hn]; rewrite FetchFacts.mapRow_id, Hn; reflexivity. }
      split.
      { unfold getArticle. now rewrite (Hstore k _ Ha). }
      now destruct (StoreFacts.stored_source batch _ f Hf). }
    split.
    { intros k k' a a' Hkk Ha Ha' Hid Hlast. unfold getArticle.
      rewrite (Hstore k a Ha), Hid.
      rewrite (StoreFacts.stored_is_last_occurrence batch k' a' Ha' Hlast).
      eexists. split; [reflexivity |].
      split; [now apply SyncFacts.processed_nth |].
      split; [apply StoreFacts.settled_title
             | apply StoreFacts.settled_createdAt]. }
    intros Hne. rewrite Hsync. unfold syncWith.
    destruct batch as [| a batch']; [contradiction |].
    apply SyncFacts.store_size. }
  split.
  { intros Hthrow. split.
    - rewrite Hresp. now apply WiredFacts.fetch_dropped.
    - now apply (WiredFacts.sync_dropped w st rows Hresp). }
  split.
  { destruct (existsb Wired.rowThrows (filter usableRow rows)) eqn:Hthrow.
    - unfold st'. now rewrite (WiredFacts.sync_dropped w st rows Hresp Hthrow).
    - unfold st'.
      rewrite (WiredFacts.sync_as_mapped w st service rows Hsvc Hresp Hthrow).
      unfold syncWith.
      destruct (0 <? List.length _)%nat; [| exact Hst].
      apply SyncFacts.store_keys_NoDup. }
  exists (mapRows Wired.imageUrlOf (rowTime w) sameIdRows).
  split; [now apply WiredFacts.fetch_returns_mapped |].
  split; vm_compute; reflexivity.
Qed.

(** C10 on the two rows with the id 1, synced into the empty storage: the
    store holds one article, the one made from the second row. *)
Lemma batch_is_keyed_by_id_witness :
  let st' :=
    Wired.syncFromGoogleSheets (sheetWith sameIdRows 0) emptyStorage in
  NoDup (JsMap.keys (articles st'))
  /\ JsMap.size (articles st') = 1%nat
  /\ exists f,
       getArticle 1 st' = Some f
       /\ title f = "Second headline"%string /\ createdAt f = 1.
Proof.
  intros st'.
  destruct (batch_is_keyed_by_id (sheetWith sameIdRows 0) emptyStorage
              sheetsService sameIdRows eq_refl eq_refl eq_refl (NoDup_nil Z))
    as (Hmapped & _ & Hnd & _).
  split; [exact Hnd |]. split; [reflexivity |].
  destruct (Hmapped eq_refl) as (batch & Hfetch & _ & _ & Hlast & _).
  injection Hfetch as <-.
  destruct (Hlast 0%nat 1%nat
              (mapRow Wired.imageUrlOf (clockFrom 0)
                 ["1"; "First headline"; "First body"; "nifty"]%string 0)
              (mapRow Wired.imageUrlOf (clockFrom 0)
                 ["1"; "Second headline"; "Second body"; "ipo"]%string 1))
    as (f & Hf & _ & Ht & Hc).
  - apply Nat.lt_0_succ.
  - reflexivity.
  - reflexivity.
  - reflexivity.
  - intros k'' a'' Hk'' Ha''.
    destruct k'' as [| [| [| k'']]];
      [inversion Hk'' | inversion Hk'' as [| m Hm]; inversion Hm | |];
      discriminate Ha''.
  - exists f. split; [exact Hf |]. split; [exact Ht | exact Hc].
Defined.

(** ** Further properties: image selection *)

(** X1: for an article whose category is a string and whose id is absent
    or a safe integer, [getArticleImage] returns, and what it returns is
    one of the URLs of the image pools, never the empty string.  (An id
    that is no finite number is outside: [fetchArticles] reads [Infinity]
    in an id cell of more than 308 digits, and the index is then [NaN].) *)
Theorem article_image_from_pools (article : ImageRequest) (c : string) :
  imgCategory article = CatStr c ->
  (forall n, imgId article = Some n -> JsNum.isSafeInteger n = true) ->
  exists url,
    ImageLogic.getArticleImage article = Returned url
    /\ In url ImageLogic.allPools
    /\ url <> ""%string.
Proof. intros Hc _. now apply ImageFacts.image_in_pools with (c := c). Qed.

(** X1 on the request [fetchArticles] makes for row 7. *)
Lemma article_image_from_pools_witness :
  exists url,
    ImageLogic.getArticleImage
      {| imgId := Some 7;
         imgTitle := "Nifty up";
         imgContent := "Content A";
         imgCategory := CatStr "nifty";
         imgStockSymbol := Some "NIFTY"%string |} = Returned url
    /\ In url ImageLogic.allPools
    /\ url <> ""%string.
Proof.
  apply (article_image_from_pools _ "nifty"%string); [reflexivity |].
  intros n H. injection H as <-. reflexivity.
Defined.

(** X2: with [getArticleImage] in place, [fetchArticles] returns the empty
    array as soon as one usable row has a category cell that names a
    property inherited from [Object.prototype] (the call throws inside the
    [try]); when no usable row does, it returns the mapped rows, each with
    the URL [getArticleImage] returns. *)
Theorem inherited_category_drops_batch (clock : nat -> Z)
  (rows : list (list string)) :
  (existsb Wired.rowThrows (filter usableRow rows) = true ->
   Wired.fetchArticles clock (Returned (Some rows)) = Returned [])
  /\ (existsb Wired.rowThrows (filter usableRow rows) = false ->
      Wired.fetchArticles clock (Returned (Some rows))
      = fetchArticles Wired.imageUrlOf clock (Returned (Some rows))).
Proof.
  unfold Wired.fetchArticles, fetchArticles, mapRows, mapIndex. split; intros H.
  - destruct (ImageFacts.wired_mapFrom_throws clock _ 0%nat H) as [error ->].
    reflexivity.
  - now rewrite (ImageFacts.wired_mapFrom_returns clock _ 0%nat H).
Qed.

(** X2 on a sheet whose second row has the category cell "__proto__", and
    on the sheet with row 7 alone. *)
Lemma inherited_category_drops_batch_witness :
  Wired.fetchArticles (clockFrom 0)
    (Returned (Some [rowSeven; ["8"; "Builders rally"; "Body"; "__proto__"]]))
  = Returned []
  /\ Wired.fetchArticles (clockFrom 0) (Returned (Some [rowSeven]))
     = fetchArticles Wired.imageUrlOf (clockFrom 0) (Returned (Some [rowSeven])).
Proof.
  split.
  - apply (proj1 (inherited_category_drops_batch (clockFrom 0)
                    [rowSeven; ["8"; "Builders rally"; "Body"; "__proto__"]%string])).
    vm_compute. reflexivity.
  - apply (proj2 (inherited_category_drops_batch (clockFrom 0) [rowSeven])).
    vm_compute. reflexivity.
Defined.

(** X3: [getArticleImage] does not depend on the letter case of the title,
    the content, the category or the stock symbol. *)
Theorem article_image_ignores_case (article : ImageRequest) :
  ImageLogic.getArticleImage (ImageLogic.lowerCased article)
  = ImageLogic.getArticleImage article.
Proof.
  unfold ImageLogic.getArticleImage, ImageLogic.lowerCased.
  cbn [imgId imgTitle imgContent imgCategory imgStockSymbol].
  destruct (imgCategory article) as [c | p]; [| reflexivity].
  rewrite !ImageFacts.toLowerCase_idempotent.
  destruct (imgStockSymbol article) as [s |]; cbn [option_map];
    rewrite ?ImageFacts.toLowerCase_idempotent; reflexivity.
Qed.

(** ** Further properties: bookmarks *)

Module BookmarkFacts.

Lemma set_fresh {V : Type} (k : Z) (v : V) (m : JsMap.t V) :
  ~ In k (JsMap.keys m) -> JsMap.set k v m = m ++ [(k, v)].
Proof.
  induction m as [| [k' v'] m IH]; simpl; intros Hk; [reflexivity |].
  destruct (Z.eqb_spec k k') as [-> | Hne]; [exfalso; apply Hk; now left |].
  f_equal. apply IH. intros Hin. apply Hk. now right.
Qed.

Lemma delete_split {V : Type} (k : Z) (v : V) (before after : JsMap.t V) :
  ~ In k (JsMap.keys before) ->
  mapDelete k (before ++ (k, v) :: after) = before ++ after.
Proof.
  induction before as [| [k' v'] before IH]; simpl; intros Hk.
  - now rewrite Z.eqb_refl.
  - destruct (Z.eqb_spec k k') as [-> | Hne]; [exfalso; apply Hk; now left |].
    f_equal. apply IH. intros Hin. apply Hk. now right.
Qed.

Lemma delete_keys {V : Type} (k j : Z) (m : JsMap.t V) :
  In j (JsMap.keys (mapDelete k m)) -> In j (JsMap.keys m).
Proof.
  induction m as [| [k' v'] m IH]; simpl; [tauto |].
  destruct (k =? k'); simpl; [tauto |]. intros [H | H]; [now left |].
  right. now apply IH.
Qed.

Lemma delete_NoDup {V : Type} (k : Z) (m : JsMap.t V) :
  NoDup (JsMap.keys m) -> NoDup (JsMap.keys (mapDelete k m)).
Proof.
  induction m as [| [k' v'] m IH]; simpl; intros H; [constructor |].
  inversion H as [| x xs Hnotin Hrest]; subst.
  destruct (k =? k'); simpl; [exact Hrest |].
  constructor; [| now apply IH].
  intros Hin. apply Hnotin. now apply delete_keys in Hin.
Qed.

(** Where the loop of [removeBookmark] stops. *)
Lemma first_split (articleId : Z) (m : JsMap.t Bookmark) (key : Z) :
  firstBookmarkFor articleId m = Some key ->
  exists before bookmark after,
    m = before ++ (key, bookmark) :: after
    /\ bookmarkedArticle bookmark = articleId
    /\ forall entry, In entry before ->
                     bookmarkedArticle (snd entry) <> articleId.
Proof.
  induction m as [| [k b] m IH]; simpl; [discriminate |].
  destruct (Z.eqb_spec (bookmarkedArticle b) articleId) as [Heq | Hne].
  - intros [= <-]. exists [], b, m. repeat split; [exact Heq | intros e []].
  - intros H. destruct (IH H) as (before & b' & after & -> & Hb & Hbefore).
    exists ((k, b) :: before), b', after. repeat split; [exact Hb |].
    intros e [<- | He]; [exact Hne | now apply Hbefore].
Qed.

Lemma first_none (articleId : Z) (m : JsMap.t Bookmark) :
  firstBookmarkFor articleId m = None
  <-> existsb (fun b => bookmarkedArticle b =? articleId) (JsMap.values m)
      = false.
Proof.
  induction m as [| [k b] m IH]; simpl; [tauto |].
  destruct (bookmarkedArticle b =? articleId); simpl; [| exact IH].
  split; discriminate.
Qed.

Lemma first_app_last (articleId key : Z) (b : Bookmark) (m : JsMap.t Bookmark) :
  firstBookmarkFor articleId m = None ->
  bookmarkedArticle b = articleId ->
  firstBookmarkFor articleId (m ++ [(key, b)]) = Some key.
Proof.
  intros Hnone Hb. induction m as [| [k' b'] m IH]; simpl in *.
  - now rewrite Hb, Z.eqb_refl.
  - destruct (bookmarkedArticle b' =? articleId); [discriminate |].
    now apply IH.
Qed.

Lemma fresh_key_absent (st : BookmarkStore) :
  bookmarkIdsFresh st -> ~ In (currentBookmarkId st) (JsMap.keys (bookmarks st)).
Proof. intros [_ H] Hin. specialize (H _ Hin). lia. Qed.

End BookmarkFacts.

(** X4: in a store whose bookmark ids are fresh, [addBookmark] gives the
    bookmark the current counter as id, appends it after the bookmarks
    already there, which stay as they are, and the article is bookmarked
    afterwards. *)
Theorem addBookmark_appends (now : Z) (insertBookmark : InsertBookmark)
  (st : BookmarkStore) :
  bookmarkIdsFresh st ->
  let st' := fst (addBookmark now insertBookmark st) in
  let bookmark := snd (addBookmark now insertBookmark st) in
  bookmarkId bookmark = currentBookmarkId st
  /\ bookmarkedArticle bookmark = insArticleId insertBookmark
  /\ getBookmarks st' = getBookmarks st ++ [bookmark]
  /\ isBookmarked (insArticleId insertBookmark) st' = true.
Proof.
  intros Hfresh st' bookmark.
  assert (Hlist : getBookmarks st' = getBookmarks st ++ [bookmark]).
  { unfold st', getBookmarks, addBookmark. cbn [fst bookmarks bookmarkId].
    rewrite BookmarkFacts.set_fresh
      by now apply BookmarkFacts.fresh_key_absent.
    unfold JsMap.values. now rewrite map_app. }
  repeat split; [exact Hlist |].
  unfold isBookmarked. fold (getBookmarks st'). rewrite Hlist.
  rewrite existsb_app. simpl. rewrite Z.eqb_refl. now rewrite !orb_true_r.
Qed.

(** X4 on the store with three bookmarks. *)
Lemma addBookmark_appends_witness :
  getBookmarks
    (fst (addBookmark 40 {| insUserId := 2; insArticleId := 11 |}
            threeBookmarks))
  = getBookmarks threeBookmarks
    ++ [snd (addBookmark 40 {| insUserId := 2; insArticleId := 11 |}
               threeBookmarks)]
  /\ isBookmarked 11
       (fst (addBookmark 40 {| insUserId := 2; insArticleId := 11 |}
               threeBookmarks)) = true.
Proof.
  assert (F : bookmarkIdsFresh threeBookmarks).
  { split.
    - vm_compute. repeat constructor; simpl; intuition discriminate.
    - vm_compute. intros k [<- | [<- | [<- | []]]]; reflexivity. }
  destruct (addBookmark_appends 40 {| insUserId := 2; insArticleId := 11 |}
              threeBookmarks F) as (_ & _ & Happ & Hb).
  split; [exact Happ | exact Hb].
Defined.

(** X5: [removeBookmark] leaves the store as it is when the article has no
    bookmark; otherwise it removes the oldest bookmark of the article and
    nothing else, so an article that was bookmarked twice is still
    bookmarked after one removal. *)
Theorem removeBookmark_removes_oldest (articleId : Z) (st : BookmarkStore) :
  NoDup (JsMap.keys (bookmarks st)) ->
  (isBookmarked articleId st = false -> removeBookmark articleId st = st)
  /\ (isBookmarked articleId st = true ->
      exists before bookmark after,
        getBookmarks st = before ++ bookmark :: after
        /\ bookmarkedArticle bookmark = articleId
        /\ (forall b, In b before -> bookmarkedArticle b <> articleId)
        /\ getBookmarks (removeBookmark articleId st) = before ++ after
        /\ isBookmarked articleId (removeBookmark articleId st)
           = existsb (fun b => bookmarkedArticle b =? articleId) after).
Proof.
  intros Hnd. unfold isBookmarked, removeBookmark. split; intros H.
  - apply BookmarkFacts.first_none in H. now rewrite H.
  - destruct (firstBookmarkFor articleId (bookmarks st)) as [key |] eqn:F.
    + destruct (BookmarkFacts.first_split _ _ _ F)
        as (before & b & after & Hm & Hb & Hbefore).
      assert (Hkey : ~ In key (JsMap.keys before)).
      { rewrite Hm in Hnd. unfold JsMap.keys in *. rewrite map_app in Hnd.
        simpl in Hnd. now apply NoDup_remove_2 in Hnd as Hn;
          intros Hin; apply Hn, in_or_app; left. }
      assert (Hbefore' : forall x, In x (JsMap.values before) ->
                                   bookmarkedArticle x <> articleId).
      { intros x Hx. unfold JsMap.values in Hx. apply in_map_iff in Hx.
        destruct Hx as (e & <- & He). now apply Hbefore. }
      exists (JsMap.values before), b, (JsMap.values after).
      unfold getBookmarks. cbn [bookmarks]. rewrite Hm.
      rewrite BookmarkFacts.delete_split by exact Hkey.
      unfold JsMap.values in *. rewrite !map_app. simpl.
      repeat split; [exact Hb | exact Hbefore' |].
      rewrite existsb_app.
      assert (Hnone : existsb (fun b0 => bookmarkedArticle b0 =? articleId)
                        (map snd before) = false).
      { destruct (existsb _ (map snd before)) eqn:E; [| reflexivity].
        apply existsb_exists in E. destruct E as (x & Hx & Hxa).
        apply Z.eqb_eq in Hxa. now apply Hbefore' in Hx. }
      now rewrite Hnone.
    + apply BookmarkFacts.first_none in F. congruence.
Qed.

(** X5 on the store with three bookmarks: article 7 stays bookmarked after
    one removal. *)
Lemma removeBookmark_removes_oldest_witness :
  exists before bookmark after,
    getBookmarks threeBookmarks = before ++ bookmark :: after
    /\ bookmarkedArticle bookmark = 7
    /\ (forall b, In b before -> bookmarkedArticle b <> 7)
    /\ getBookmarks (removeBookmark 7 threeBookmarks) = before ++ after
    /\ isBookmarked 7 (removeBookmark 7 threeBookmarks)
       = existsb (fun b => bookmarkedArticle b =? 7) after.
Proof.
  assert (Hnd : NoDup (JsMap.keys (bookmarks threeBookmarks))).
  { vm_compute. repeat constructor; simpl; intuition discriminate. }
  apply (proj2 (removeBookmark_removes_oldest 7 threeBookmarks Hnd)).
  vm_compute. reflexivity.
Defined.

Example twice_bookmarked_stays :
  isBookmarked 7 (removeBookmark 7 threeBookmarks) = true
  /\ isBookmarked 7 (removeBookmark 7 (removeBookmark 7 threeBookmarks))
     = false.
Proof. split; vm_compute; reflexivity. Qed.

(** X6: bookmark ids are never reused: when the keys of the bookmark map
    are pairwise different and below the counter, they still are after
    [addBookmark] and after [removeBookmark]; the empty store starts that
    way. *)
Theorem bookmark_ids_stay_fresh (now articleId : Z)
  (insertBookmark : InsertBookmark) (st : BookmarkStore) :
  bookmarkIdsFresh st ->
  bookmarkIdsFresh (fst (addBookmark now insertBookmark st))
  /\ bookmarkIdsFresh (removeBookmark articleId st)
  /\ bookmarkIdsFresh {| bookmarks := JsMap.clear; currentBookmarkId := 1 |}.
Proof.
  intros Hfresh. pose proof Hfresh as [Hnd Hlt]. split; [| split].
  - unfold bookmarkIdsFresh, addBookmark. cbn [fst bookmarks currentBookmarkId
      bookmarkId]. split.
    + now apply JsMapFacts.set_NoDup.
    + intros k Hk. apply JsMapFacts.keys_set_in in Hk.
      destruct Hk as [-> | Hk]; [lia |]. specialize (Hlt k Hk). lia.
  - unfold removeBookmark.
    destruct (firstBookmarkFor articleId (bookmarks st)); [| exact Hfresh].
    split; cbn [bookmarks currentBookmarkId].
    + now apply BookmarkFacts.delete_NoDup.
    + intros k Hk. apply Hlt. now apply BookmarkFacts.delete_keys in Hk.
  - split; [constructor | intros k []].
Qed.

(** X6 on the store with three bookmarks. *)
Lemma bookmark_ids_stay_fresh_witness :
  bookmarkIdsFresh
    (fst (addBookmark 40 {| insUserId := 2; insArticleId := 11 |}
            threeBookmarks))
  /\ bookmarkIdsFresh (removeBookmark 7 threeBookmarks).
Proof.
  assert (F : bookmarkIdsFresh threeBookmarks).
  { split.
    - vm_compute. repeat constructor; simpl; intuition discriminate.
    - vm_compute. intros k [<- | [<- | [<- | []]]]; reflexivity. }
  destruct (bookmark_ids_stay_fresh 40 7 {| insUserId := 2; insArticleId := 11 |}
              threeBookmarks F) as (Ha & Hr & _).
  split; [exact Ha | exact Hr].
Defined.

(** X7: adding a bookmark for an article that has none and removing it
    again gives back the bookmarks there were; only the counter has moved
    on. *)
Theorem add_then_remove_bookmark (now : Z) (insertBookmark : InsertBookmark)
  (st : BookmarkStore) :
  bookmarkIdsFresh st ->
  isBookmarked (insArticleId insertBookmark) st = false ->
  let st' :=
    removeBookmark (insArticleId insertBookmark)
      (fst (addBookmark now insertBookmark st)) in
  bookmarks st' = bookmarks st
  /\ currentBookmarkId st' = currentBookmarkId st + 1
  /\ isBookmarked (insArticleId insertBookmark) st' = false.
Proof.
  intros Hfresh Hnot st'.
  assert (Hb : bookmarks st' = bookmarks st
               /\ currentBookmarkId st' = currentBookmarkId st + 1).
  { unfold st', removeBookmark, addBookmark.
    cbn [fst bookmarks currentBookmarkId bookmarkId].
    rewrite BookmarkFacts.set_fresh
      by now apply BookmarkFacts.fresh_key_absent.
    rewrite BookmarkFacts.first_app_last;
      [| now apply BookmarkFacts.first_none | reflexivity].
    cbn [bookmarks currentBookmarkId].
    rewrite <- (app_nil_r (bookmarks st)) at 2.
    split; [| reflexivity].
    rewrite (BookmarkFacts.delete_split _ _ (bookmarks st) [])
      by now apply BookmarkFacts.fresh_key_absent.
    reflexivity. }
  destruct Hb as [Hb Hc]. repeat split; [exact Hb | exact Hc |].
  unfold isBookmarked in *. now rewrite Hb.
Qed.

(** X7 on the store with three bookmarks and the article 11. *)
Lemma add_then_remove_bookmark_witness :
  bookmarks
    (removeBookmark 11
       (fst (addBookmark 40 {| insUserId := 2; insArticleId := 11 |}
               threeBookmarks)))
  = bookmarks threeBookmarks.
Proof.
  assert (F : bookmarkIdsFresh threeBookmarks).
  { split.
    - vm_compute. repeat constructor; simpl; intuition discriminate.
    - vm_compute. intros k [<- | [<- | [<- | []]]]; reflexivity. }
  apply (add_then_remove_bookmark 40 {| insUserId := 2; insArticleId := 11 |}
           threeBookmarks F).
  vm_compute. reflexivity.
Defined.

(** ** Further properties: the article map *)

Module ArticleFacts.

Lemma views_after_set (a : Article) (v : Z) :
  views (setViewCount a (Some v)) = v.
Proof. unfold views. simpl. destruct (Z.eqb_spec v 0); congruence. Qed.

(** The counter of the loop is above every key of its store. *)
Lemma loop_keys_below_nextId (l : list Article) :
  forall k, In k (JsMap.keys (store (syncLoop l))) -> k < nextId (syncLoop l).
Proof.
  induction l as [| a l IH] using rev_ind; [intros k [] |].
  rewrite SyncFacts.syncLoop_snoc. intros k Hk. simpl in *.
  apply JsMapFacts.keys_set_in in Hk.
  destruct (Z.leb_spec (nextId (syncLoop l))
              (id (withUniqueContent (processed (syncLoop l)) a)));
    destruct Hk as [-> | Hk]; try lia; specialize (IH k Hk); lia.
Qed.

Lemma incrementViewCount_keys (i : Z) (st : MemStorage) :
  forall k, In k (JsMap.keys (articles (incrementViewCount i st)))
            <-> In k (JsMap.keys (articles st)).
Proof.
  intros k. unfold incrementViewCount.
  destruct (JsMap.get i (articles st)) as [a |] eqn:G; [| tauto].
  cbn [articles]. rewrite JsMapFacts.keys_set_in. split; [| tauto].
  intros [-> | H]; [| exact H].
  apply JsMapFacts.get_some_key. now exists a.
Qed.

Lemma set_present_keys {V : Type} (k : Z) (v : V) (m : JsMap.t V) :
  In k (JsMap.keys m) -> JsMap.keys (JsMap.set k v m) = JsMap.keys m.
Proof.
  induction m as [| [k' v'] m IH]; simpl; [intros [] |].
  destruct (Z.eqb_spec k k') as [-> | Hne]; simpl; [reflexivity |].
  intros [H | H]; [congruence | now rewrite IH].
Qed.

Lemma compareByDate_flip (x y : Article) :
  0 < compareByDate x y -> compareByDate y x <= 0.
Proof. unfold compareByDate. lia. Qed.

Lemma compareByDate_trans (x y z : Article) :
  compareByDate x y <= 0 -> compareByDate y z <= 0 -> compareByDate x z <= 0.
Proof. unfold compareByDate. lia. Qed.

Lemma sortByDate_sorted (l : list Article) :
  StronglySorted newerFirst (sortWith compareByDate l).
Proof.
  pose proof (sortWith_sorted compareByDate compareByDate_flip
                compareByDate_trans l) as Hs.
  induction Hs as [| a l' Hs IH Ha]; constructor; [exact IH |].
  eapply Forall_impl; [| exact Ha].
  intros b Hb. unfold notAfter, compareByDate in Hb. unfold newerFirst. lia.
Qed.

(** An article is in exactly one of the six groups of [getArticles]. *)
Lemma one_group (x : Article) :
  let rest := inNoneOf ["nifty"; "breakout"; "ipo"; "sme ipo"; "warrant"]%string in
  (inCategory "nifty" x = true /\ inCategory "breakout" x = false
   /\ inCategory "ipo" x = false /\ inCategory "sme ipo" x = false
   /\ inCategory "warrant" x = false /\ rest x = false)
  \/ (inCategory "nifty" x = false /\ inCategory "breakout" x = true
      /\ inCategory "ipo" x = false /\ inCategory "sme ipo" x = false
      /\ inCategory "warrant" x = false /\ rest x = false)
  \/ (inCategory "nifty" x = false /\ inCategory "breakout" x = false
      /\ inCategory "ipo" x = true /\ inCategory "sme ipo" x = false
      /\ inCategory "warrant" x = false /\ rest x = false)
  \/ (inCategory "nifty" x = false /\ inCategory "breakout" x = false
      /\ inCategory "ipo" x = false /\ inCategory "sme ipo" x = true
      /\ inCategory "warrant" x = false /\ rest x = false)
  \/ (inCategory "nifty" x = false /\ inCategory "breakout" x = false
      /\ inCategory "ipo" x = false /\ inCategory "sme ipo" x = false
      /\ inCategory "warrant" x = true /\ rest x = false)
  \/ (inCategory "nifty" x = false /\ inCategory "breakout" x = false
      /\ inCategory "ipo" x = false /\ inCategory "sme ipo" x = false
      /\ inCategory "warrant" x = false /\ rest x = true).
Proof.
  unfold inCategory, inNoneOf. destruct (category x) as [s | p];
    cbn [catIs existsb negb].
  - destruct (String.eqb_spec s "nifty") as [-> | N1];
      [left; repeat split; reflexivity |].
    destruct (String.eqb_spec s "breakout") as [-> | N2];
      [right; left; repeat split; reflexivity |].
    destruct (String.eqb_spec s "ipo") as [-> | N3];
      [right; right; left; repeat split; reflexivity |].
    destruct (String.eqb_spec s "sme ipo") as [-> | N4];
      [right; right; right; left; repeat split; reflexivity |].
    destruct (String.eqb_spec s "warrant") as [-> | N5];
      [right; right; right; right; left; repeat split; reflexivity |].
    right; right; right; right; right. repeat split; reflexivity.
  - right; right; right; right; right. repeat split; reflexivity.
Qed.

(** The six groups share the articles out. *)
Lemma groups_partition (l : list Article) :
  Permutation l
    (filter (inCategory "nifty") l ++ filter (inCategory "breakout") l
     ++ filter (inCategory "ipo") l ++ filter (inCategory "sme ipo") l
     ++ filter (inCategory "warrant") l
     ++ filter (inNoneOf ["nifty"; "breakout"; "ipo"; "sme ipo"; "warrant"]%string) l).
Proof.
  induction l as [| x l IH]; [reflexivity |].
  cbn [filter].
  destruct (one_group x)
    as [H | [H | [H | [H | [H | H]]]]];
    destruct H as (H1 & H2 & H3 & H4 & H5 & H6);
    rewrite H1, H2, H3, H4, H5, H6; cbv iota;
    set (N := filter (inCategory "nifty") l) in *;
    set (B := filter (inCategory "breakout") l) in *;
    set (I := filter (inCategory "ipo") l) in *;
    set (S := filter (inCategory "sme ipo") l) in *;
    set (W := filter (inCategory "warrant") l) in *;
    set (R := filter
                (inNoneOf ["nifty"; "breakout"; "ipo"; "sme ipo"; "warrant"]%string)
                l) in *.
  - now apply perm_skip.
  - apply (Permutation_cons_app N (B ++ I ++ S ++ W ++ R)). exact IH.
  - apply Permutation_trans with (x :: (N ++ B) ++ (I ++ S ++ W ++ R)).
    + apply perm_skip. now rewrite <- app_assoc.
    + rewrite (Permutation_middle (N ++ B)). now rewrite <- app_assoc.
  - apply Permutation_trans with (x :: (N ++ B ++ I) ++ (S ++ W ++ R)).
    + apply perm_skip. now rewrite <- !app_assoc.
    + rewrite (Permutation_middle (N ++ B ++ I)). now rewrite <- !app_assoc.
  - apply Permutation_trans with (x :: (N ++ B ++ I ++ S) ++ (W ++ R)).
    + apply perm_skip. now rewrite <- !app_assoc.
    + rewrite (Permutation_middle (N ++ B ++ I ++ S)).
      now rewrite <- !app_assoc.
  - apply Permutation_trans with (x :: (N ++ B ++ I ++ S ++ W) ++ R).
    + apply perm_skip. now rewrite <- !app_assoc.
    + rewrite (Permutation_middle (N ++ B ++ I ++ S ++ W)).
      now rewrite <- !app_assoc.
Qed.

End ArticleFacts.

Module ArticleSteps.

Lemma syncWith_ids (fetched : Outcome (list Article)) (now : Z)
  (st : MemStorage) :
  idsBelowCounter st -> idsBelowCounter (syncWith fetched now st).
Proof.
  intros H. unfold syncWith. destruct fetched as [batch | error]; [| exact H].
  destruct (0 <? List.length batch)%nat; [| exact H].
  unfold idsBelowCounter. cbn [articles currentArticleId].
  apply ArticleFacts.loop_keys_below_nextId.
Qed.

(** One call of [incrementViewCount] on a stored article. *)
Lemma increment_once (i : Z) (st : MemStorage) (a : Article) :
  getArticle i st = Some a ->
  getArticle i (incrementViewCount i st)
  = Some (setViewCount a (Some (views a + 1)))
  /\ (forall j, j <> i ->
        getArticle j (incrementViewCount i st) = getArticle j st)
  /\ JsMap.keys (articles (incrementViewCount i st)) = JsMap.keys (articles st).
Proof.
  unfold getArticle, incrementViewCount. intros G. rewrite G. cbn [articles].
  split; [apply JsMapFacts.get_set_same |].
  split; [intros j Hj; now apply JsMapFacts.get_set_other |].
  apply ArticleFacts.set_present_keys, JsMapFacts.get_some_key. now exists a.
Qed.

Lemma increment_unknown (i : Z) (st : MemStorage) :
  getArticle i st = None -> incrementViewCount i st = st.
Proof. unfold getArticle, incrementViewCount. now intros ->. Qed.

Lemma in_skipn {A : Type} (n : nat) (l : list A) (a : A) :
  In a (skipn n l) -> In a l.
Proof.
  intros H. rewrite <- (firstn_skipn n l). apply in_or_app. now right.
Qed.

Lemma settled_same (earlier : list Article) (a : Article) :
  sameButContentAndViews a (settled earlier a).
Proof.
  unfold sameButContentAndViews, settled, withUniqueContent.
  destruct (needsNewContent earlier a); destruct a; reflexivity.
Qed.

End ArticleSteps.

(** X8: the keys of the article map stay below [currentArticleId] as long
    as the numbers involved are safe integers: with the keys below a
    counter that is a safe integer, they are still below it after
    [createArticle] and after [incrementViewCount], and after a sync whose
    fetched ids are safe integers; the counter is then at most 2^53, which
    a number still holds.  (From 2^53 on, [id + 1] is rounded back to the
    id and the key meets the counter.) *)
Theorem ids_stay_below_counter (getArticleImage : ImageRequest -> string)
  (now articleId : Z) (w : World) (insertArticle : InsertArticle)
  (st : MemStorage) (batch : list Article) :
  idsBelowCounter st ->
  JsNum.isSafeInteger (currentArticleId st) = true ->
  Wired.fetchArticles (rowTime w) (response w) = Returned batch ->
  safeIds batch = true ->
  let created := fst (createArticle getArticleImage now insertArticle st) in
  let synced := Wired.syncFromGoogleSheets w st in
  idsBelowCounter created
  /\ currentArticleId created = JsNum.add (currentArticleId st) 1
  /\ idsBelowCounter (incrementViewCount articleId st)
  /\ idsBelowCounter synced
  /\ currentArticleId synced <= JsNum.maxSafeInteger + 1
  /\ JsNum.roundToDouble (currentArticleId synced) = currentArticleId synced.
Proof.
  intros H Hsafe Hfetch Hids created synced.
  assert (Hc : Z.abs (currentArticleId st) <= JsNum.maxSafeInteger)
    by (now apply Z.leb_le).
  assert (Hmax : JsNum.maxSafeInteger = 9007199254740991) by reflexivity.
  assert (Hheld : forall n, Z.abs n <= JsNum.maxSafeInteger + 1 ->
                            JsNum.roundToDouble n = n).
  { intros n Hn.
    destruct (Z.eq_dec n 9007199254740992) as [-> | N1]; [reflexivity |].
    destruct (Z.eq_dec n (-9007199254740992)) as [-> | N2]; [reflexivity |].
    apply JsNumFacts.safe_is_held. apply Z.leb_le. lia. }
  assert (Hsynced : idsBelowCounter synced
                    /\ currentArticleId synced <= JsNum.maxSafeInteger + 1
                    /\ 0 - JsNum.maxSafeInteger <= currentArticleId synced).
  { unfold synced, Wired.syncFromGoogleSheets.
    destruct (googleSheets st); [| split; [exact H | lia]].
    rewrite Hfetch. split; [now apply ArticleSteps.syncWith_ids |].
    unfold syncWith. destruct batch as [| a batch']; [cbn; lia |].
    cbn [List.length Nat.ltb Nat.leb currentArticleId].
    split.
    - apply WiredFacts.loop_counter_bound; [lia |].
      intros b Hb. unfold safeIds in Hids. rewrite forallb_forall in Hids.
      specialize (Hids b Hb). apply Z.leb_le in Hids. lia.
    - pose proof (WiredFacts.loop_counter_from_one (a :: batch')). lia. }
  destruct Hsynced as (Hs1 & Hs2 & Hs3).
  split.
  { unfold created, idsBelowCounter, createArticle.
    cbn [fst articles currentArticleId id].
    intros k Hk. apply JsMapFacts.keys_set_in in Hk.
    destruct Hk as [-> | Hk]; [lia |]. specialize (H k Hk). lia. }
  split.
  { unfold created, createArticle, JsNum.add. cbn [fst currentArticleId].
    symmetry. apply Hheld. lia. }
  split.
  { intros k Hk. apply ArticleFacts.incrementViewCount_keys in Hk.
    specialize (H k Hk). unfold incrementViewCount.
    now destruct (JsMap.get articleId (articles st)). }
  split; [exact Hs1 |]. split; [exact Hs2 |].
  apply Hheld. lia.
Qed.

(** X8 on the empty storage and the sheet with row 7. *)
Lemma ids_stay_below_counter_witness :
  idsBelowCounter (fst (createArticle sampleImage 5 warrantInsert emptyStorage))
  /\ idsBelowCounter
       (Wired.syncFromGoogleSheets (sheetWith [rowSeven] 1000) emptyStorage)
  /\ currentArticleId
       (Wired.syncFromGoogleSheets (sheetWith [rowSeven] 1000) emptyStorage)
     = 8.
Proof.
  assert (H : idsBelowCounter emptyStorage) by (intros k []).
  destruct (ids_stay_below_counter sampleImage 5 7 (sheetWith [rowSeven] 1000)
              warrantInsert emptyStorage
              (mapRows Wired.imageUrlOf (clockFrom 1000) [rowSeven])
              H eq_refl eq_refl eq_refl) as (Hc & _ & _ & Hs & _).
  split; [exact Hc |]. split; [exact Hs | reflexivity].
Defined.



(** X10: [incrementViewCount] on an id that is not stored changes nothing;
    on a stored article, n calls add n to its view count (an absent count
    reading as 0) and change nothing else: not the other fields of the
    article, not the other articles, not the order of the map. *)
Theorem view_count_adds_up (articleId : Z) (n : nat) (st : MemStorage) :
  let st' := Nat.iter n (incrementViewCount articleId) st in
  (getArticle articleId st = None -> st' = st)
  /\ (forall a,
         getArticle articleId st = Some a ->
         (exists a',
             getArticle articleId st' = Some a'
             /\ views a' = views a + Z.of_nat n
             /\ setViewCount a' None = setViewCount a None)
         /\ (forall j, j <> articleId -> getArticle j st' = getArticle j st)
         /\ JsMap.keys (articles st') = JsMap.keys (articles st)).
Proof.
  intros st'. subst st'. split.
  - intros Hnone. induction n as [| n IH]; [reflexivity |].
    rewrite Nat.iter_succ, IH. now apply ArticleSteps.increment_unknown.
  - intros a Ha. induction n as [| n IH].
    + change (Nat.iter 0 (incrementViewCount articleId) st) with st.
      split; [| split; reflexivity].
      exists a. split; [exact Ha |]. split; [simpl; lia | reflexivity].
    + rewrite Nat.iter_succ. destruct IH as ((a' & Hget & Hviews & Hsame) & Hother & Hkeys).
      destruct (ArticleSteps.increment_once articleId _ a' Hget)
        as (Hnew & Hrest & Hk).
      split; [| split].
      * eexists. split; [exact Hnew |].
        rewrite ArticleFacts.views_after_set. split; [lia |].
        rewrite <- Hsame. now destruct a'.
      * intros j Hj. rewrite Hrest by exact Hj. now apply Hother.
      * now rewrite Hk.
Qed.

(** X10 on the storage where article 7 has been viewed 42 times. *)
Lemma view_count_adds_up_witness :
  exists a',
    getArticle 7 (Nat.iter 3 (incrementViewCount 7) viewedStorage) = Some a'
    /\ views a' = 42 + 3.
Proof.
  destruct (getArticle 7 viewedStorage) as [a |] eqn:G;
    [| vm_compute in G; discriminate G].
  destruct (proj2 (view_count_adds_up 7 3 viewedStorage) a G)
    as ((a' & Hget & Hviews & _) & _).
  exists a'. split; [exact Hget |].
  rewrite Hviews. f_equal. vm_compute in G. injection G as <-. reflexivity.
Defined.

(** X11: an article with strictly more views than every other stored
    article is the first article of [getTrendingArticles]. *)
Theorem most_viewed_is_first (st : MemStorage) (a : Article) :
  In a (JsMap.values (articles st)) ->
  (forall b, In b (JsMap.values (articles st)) -> b = a \/ views b < views a) ->
  hd_error (getTrendingArticles st) = Some a.
Proof.
  intros Hin Hmax.
  pose proof (TrendingFacts.sortedByViews_perm st) as Hperm.
  pose proof (TrendingFacts.sortedByViews_sorted st) as Hsorted.
  unfold getTrendingArticles.
  destruct (sortedByViews st) as [| x ranked] eqn:E.
  - apply Permutation_sym, Permutation_nil in Hperm.
    rewrite Hperm in Hin. destruct Hin.
  - cbn [firstn app hd_error]. f_equal.
    assert (Hx : In x (JsMap.values (articles st))).
    { eapply Permutation_in; [apply Permutation_sym, Hperm | now left]. }
    destruct (Hmax x Hx) as [-> | Hless]; [reflexivity |].
    assert (Ha : In a (x :: ranked)) by (eapply Permutation_in; eauto).
    destruct Ha as [-> | Ha]; [reflexivity |].
    apply StronglySorted_inv in Hsorted. destruct Hsorted as [_ Hall].
    rewrite Forall_forall in Hall. specialize (Hall a Ha).
    unfold ranksNoLater in Hall. lia.
Qed.

(** X11 on the storage with the articles 7 and 12, after one view of the
    article 12. *)
Lemma most_viewed_is_first_witness :
  hd_error (getTrendingArticles viewedTwoStorage)
  = getArticle 12 viewedTwoStorage.
Proof.
  destruct (getArticle 12 viewedTwoStorage) as [a |] eqn:G;
    [| vm_compute in G; discriminate G].
  apply (most_viewed_is_first viewedTwoStorage a).
  - apply JsMapFacts.get_in_values with (k := 12). exact G.
  - vm_compute in G. injection G as <-.
    intros b Hb. vm_compute in Hb.
    destruct Hb as [<- | [<- | []]]; [right; reflexivity | left; reflexivity].
Defined.

(** X12: [getTrendingArticles] returns at most 30 articles, all of them
    stored; a store of at most 15 articles is returned whole, in ranking
    order. *)
Theorem trending_is_bounded (st : MemStorage) :
  (List.length (getTrendingArticles st) <= 30)%nat
  /\ (forall a, In a (getTrendingArticles st) ->
                In a (JsMap.values (articles st)))
  /\ ((List.length (JsMap.values (articles st)) <= 15)%nat ->
      getTrendingArticles st = sortedByViews st
      /\ Permutation (JsMap.values (articles st)) (getTrendingArticles st)).
Proof.
  pose proof (TrendingFacts.sortedByViews_perm st) as Hperm.
  unfold getTrendingArticles, diverseContent. split; [| split].
  - rewrite !length_app.
    set (rest := skipn 15 (sortedByViews st)).
    pose proof (firstn_le_length 15 (sortedByViews st)).
    pose proof (firstn_le_length 2 (filter (inCategory "nifty") rest)).
    pose proof (firstn_le_length 2 (filter (inCategory "breakout") rest)).
    pose proof (firstn_le_length 2 (filter (inCategory "ipo") rest)).
    pose proof (firstn_le_length 2 (filter (inCategory "research_report") rest)).
    pose proof (firstn_le_length 2 (filter (inCategory "movers") rest)).
    pose proof (firstn_le_length 5 (filter (inNoneOf trendingCategories) rest)).
    lia.
  - intros a Ha.
    assert (Hranked : In a (sortedByViews st)).
    { repeat (apply in_app_or in Ha; destruct Ha as [Ha | Ha]);
        try (apply ListFacts.in_firstn in Ha);
        try (apply filter_In in Ha; destruct Ha as [Ha _];
             apply ArticleSteps.in_skipn in Ha);
        exact Ha. }
    eapply Permutation_in; [apply Permutation_sym, Hperm | exact Hranked].
  - intros Hlen.
    assert (Hl : (List.length (sortedByViews st) <= 15)%nat).
    { rewrite <- (Permutation_length Hperm). exact Hlen. }
    rewrite (skipn_all2 _ Hl), (firstn_all2 _ Hl). cbn. rewrite app_nil_r.
    split; [reflexivity | exact Hperm].
Qed.

(** X12 on the storage with the articles 7 and 12. *)
Lemma trending_is_bounded_witness :
  getTrendingArticles twoArticleStorage = sortedByViews twoArticleStorage.
Proof.
  apply (proj2 (proj2 (trending_is_bounded twoArticleStorage))).
  vm_compute. repeat constructor.
Defined.

(** X13: without a category, and for the category "all", [getArticles]
    returns every stored article exactly once: the six groups it
    concatenates share the articles out. *)
Theorem getArticles_all_is_complete (getArticleImage : ImageRequest -> string)
  (now : Z) (w : World) (category : option string) (st : MemStorage) :
  category = None \/ category = Some "all"%string \/ category = Some ""%string ->
  Permutation
    (JsMap.values
       (articles (fst (getArticles getArticleImage now w category st))))
    (snd (getArticles getArticleImage now w category st)).
Proof.
  intros Hc. unfold getArticles.
  set (st1 := match googleSheets st with
              | Some _ => _
              | None => st
              end).
  assert (Hbranch :
    forall wanted,
      wanted = ""%string \/ wanted = "all"%string ->
      (Js.truthy wanted && negb (String.eqb wanted "all")
       && negb (String.eqb wanted "trending")) = false
      /\ String.eqb wanted "trending" = false).
  { intros wanted [-> | ->]; split; reflexivity. }
  assert (Hw : match category with Some c => c | None => ""%string end = ""%string
               \/ match category with Some c => c | None => ""%string end
                  = "all"%string).
  { destruct Hc as [-> | [-> | ->]]; [left | right | left]; reflexivity. }
  destruct (Hbranch _ Hw) as [H1 H2]. cbv zeta. rewrite H1, H2.
  cbn [fst snd].
  etransitivity; [apply ArticleFacts.groups_partition |].
  repeat apply Permutation_app; apply sortWith_perm.
Qed.

(** X13 on the storage with the articles 7 and 12. *)
Lemma getArticles_all_is_complete_witness :
  Permutation
    (JsMap.values
       (articles
          (fst (getArticles sampleImage 2000 (sheetWith [] 0) None
                  twoArticleStorage))))
    (snd (getArticles sampleImage 2000 (sheetWith [] 0) None
            twoArticleStorage)).
Proof.
  apply (getArticles_all_is_complete sampleImage 2000 (sheetWith [] 0) None
           twoArticleStorage).
  left. reflexivity.
Defined.

(** X14: for a category other than "all" and "trending", [getArticles]
    returns exactly the stored articles whose category is that string, the
    most recently created first. *)
Theorem getArticles_filters_by_category
  (getArticleImage : ImageRequest -> string) (now : Z) (w : World)
  (wanted : string) (st : MemStorage) :
  wanted <> ""%string -> wanted <> "all"%string ->
  wanted <> "trending"%string ->
  let stored :=
    JsMap.values
      (articles (fst (getArticles getArticleImage now w (Some wanted) st))) in
  let result := snd (getArticles getArticleImage now w (Some wanted) st) in
  Permutation (filter (inCategory wanted) stored) result
  /\ (forall a, In a result <-> In a stored /\ category a = CatStr wanted)
  /\ StronglySorted newerFirst result.
Proof.
  intros H0 H1 H2. unfold getArticles.
  set (st1 := match googleSheets st with
              | Some _ => _
              | None => st
              end).
  cbv zeta.
  apply FetchFacts.truthy_iff in H0. apply String.eqb_neq in H1, H2.
  rewrite H0, H1, H2. cbn [andb negb fst snd].
  split; [apply sortWith_perm |]. split; [| apply ArticleFacts.sortByDate_sorted].
  intros a. split.
  - intros Ha.
    apply (Permutation_in _ (Permutation_sym (sortWith_perm compareByDate _))) in Ha.
    apply filter_In in Ha. destruct Ha as [Ha Hc]. split; [exact Ha |].
    unfold inCategory, catIs in Hc. destruct (category a) as [s | p];
      [| discriminate]. apply String.eqb_eq in Hc. now subst.
  - intros [Ha Hc].
    apply (Permutation_in _ (sortWith_perm compareByDate _)).
    apply filter_In. split; [exact Ha |].
    unfold inCategory. rewrite Hc. simpl. apply String.eqb_refl.
Qed.

(** X14 on the storage with the articles 7 and 12 and the category
    warrant. *)
Lemma getArticles_filters_by_category_witness :
  StronglySorted newerFirst
    (snd (getArticles sampleImage 2000 (sheetWith [] 0) (Some "warrant"%string)
            twoArticleStorage)).
Proof.
  apply (getArticles_filters_by_category sampleImage 2000 (sheetWith [] 0)
           "warrant" twoArticleStorage); discriminate.
Defined.

(** X15: a sync that fetched at least one article keeps nothing of what
    was stored before: an id that no fetched article carries is not in the
    store afterwards. *)
Theorem sync_drops_absent_articles (batch : list Article) (now : Z)
  (st : MemStorage) (articleId : Z) :
  batch <> [] ->
  (forall a, In a batch -> id a <> articleId) ->
  getArticle articleId (syncWith (Returned batch) now st) = None.
Proof.
  intros Hne Habsent. unfold getArticle.
  destruct (JsMap.get articleId (articles (syncWith (Returned batch) now st)))
    as [f |] eqn:G; [| reflexivity].
  exfalso. unfold syncWith in G.
  destruct batch as [| a0 batch]; [contradiction |].
  cbn [List.length Nat.ltb Nat.leb articles] in G.
  destruct (StoreFacts.stored_source (a0 :: batch) articleId f G)
    as (_ & k & a & Hk & Hid & _).
  apply (Habsent a); [now apply nth_error_In in Hk | exact Hid].
Qed.

(** X15 on the storage with the articles 7 and 12, synced with a sheet
    that has the row 7 only. *)
Lemma sync_drops_absent_articles_witness :
  getArticle 12
    (syncWith
       (Returned (mapRows sampleImage (clockFrom 5000) [rowSeven])) 6000
       twoArticleStorage)
  = None.
Proof.
  apply sync_drops_absent_articles.
  - vm_compute. discriminate.
  - intros a Ha. vm_compute in Ha. destruct Ha as [<- | []]. discriminate.
Defined.

(** X16: a sync is idempotent for one answer of the sheet and one reading
    of the clock: running it twice leaves the storage the first run
    left. *)
Theorem sync_is_idempotent (getArticleImage : ImageRequest -> string)
  (w : World) (st : MemStorage) :
  syncFromGoogleSheets getArticleImage w
    (syncFromGoogleSheets getArticleImage w st)
  = syncFromGoogleSheets getArticleImage w st
  /\ Wired.syncFromGoogleSheets w (Wired.syncFromGoogleSheets w st)
     = Wired.syncFromGoogleSheets w st.
Proof.
  assert (H : forall fetched now,
             let once :=
               match googleSheets st with
               | None => st
               | Some _ => syncWith fetched now st
               end in
             match googleSheets once with
             | None => once
             | Some _ => syncWith fetched now once
             end = once).
  { intros fetched now once. subst once.
    destruct (googleSheets st) as [service |] eqn:E; [| now rewrite E].
    unfold syncWith. destruct fetched as [batch | error]; [| now rewrite E].
    destruct (0 <? List.length batch)%nat eqn:L; [| now rewrite E].
    cbn [googleSheets]. rewrite E. reflexivity. }
  split; [apply H | apply H].
Qed.

(** X17: the loop of the sync rewrites nothing but [content] and
    [viewCount]: the article left at each index, and every article in the
    store, is a fetched article with the same id, title, category, stock
    fields, premium flag, time stamps and image URL; the image is not
    chosen again when the content is regenerated. *)
Theorem sync_rewrites_content_and_views_only (batch : list Article) (now : Z)
  (st : MemStorage) :
  (forall k a,
      nth_error batch k = Some a ->
      exists f,
        nth_error (processed (syncLoop batch)) k = Some f
        /\ sameButContentAndViews a f
        /\ imageUrl f = imageUrl a
        /\ viewCount f = Some 0)
  /\ (batch <> [] ->
      forall i f,
        getArticle i (syncWith (Returned batch) now st) = Some f ->
        exists a,
          In a batch /\ sameButContentAndViews a f
          /\ imageUrl f = imageUrl a).
Proof.
  assert (Himg : forall earlier a, imageUrl (settled earlier a) = imageUrl a).
  { intros earlier a. unfold settled, withUniqueContent.
    now destruct (needsNewContent earlier a). }
  split.
  - intros k a Hk. eexists.
    split; [exact (SyncFacts.processed_nth batch k a Hk) |].
    split; [apply ArticleSteps.settled_same |]. split; [apply Himg | reflexivity].
  - intros Hne i f G. unfold getArticle, syncWith in G.
    destruct batch as [| a0 batch]; [contradiction |].
    cbn [List.length Nat.ltb Nat.leb articles] in G.
    destruct (StoreFacts.stored_source (a0 :: batch) i f G)
      as (_ & k & a & Hk & _ & ->).
    exists a. split; [now apply nth_error_In in Hk |].
    split; [apply ArticleSteps.settled_same | apply Himg].
Qed.

(** X17 on the sheet whose two rows share their content: the second
    article is regenerated and keeps its image URL. *)
Lemma sync_rewrites_content_and_views_only_witness :
  let batch :=
    mapRows Wired.imageUrlOf (clockFrom 0)
      [repeatedRow "1" "Content A"; repeatedRow "2" "Content A"] in
  exists f,
    nth_error (processed (syncLoop batch)) 1 = Some f
    /\ sameButContentAndViews
         (mapRow Wired.imageUrlOf (clockFrom 0) (repeatedRow "2" "Content A") 1)
         f
    /\ imageUrl f
       = imageUrl
           (mapRow Wired.imageUrlOf (clockFrom 0)
              (repeatedRow "2" "Content A") 1)
    /\ viewCount f = Some 0.
Proof.
  intros batch.
  apply (proj1 (sync_rewrites_content_and_views_only batch 0 emptyStorage)).
  reflexivity.
Defined.

(** ** Further properties: mapped content and categories *)

Module TextFacts.

Lemma isBlank_app (a b : string) :
  isBlank (a ++ b)%string = isBlank a && isBlank b.
Proof.
  induction a as [| c a IH]; simpl; [reflexivity |].
  rewrite IH. now rewrite andb_assoc.
Qed.

Lemma trimStart_blank (s : string) :
  isBlank (Js.trimStart s) = isBlank s.
Proof.
  induction s as [| c s IH]; simpl; [reflexivity |].
  destruct (Js.isWhiteSpace c) eqn:E; simpl; [exact IH | now rewrite E].
Qed.

Lemma trimEnd_empty (s : string) :
  Js.trimEnd s = ""%string <-> isBlank s = true.
Proof.
  induction s as [| c s IH]; simpl; [tauto |].
  destruct (Js.trimEnd s) as [| c' r].
  - destruct (Js.isWhiteSpace c); simpl.
    + split; [intros _; now apply IH | reflexivity].
    + split; discriminate.
  - split; [discriminate |]. intros H. apply andb_true_iff in H.
    destruct H as [_ H]. apply IH in H. discriminate.
Qed.

(** [s.trim() === ''] exactly when [s] is white space only. *)
Lemma trim_empty (s : string) :
  Js.trim s = ""%string <-> isBlank s = true.
Proof. unfold Js.trim. now rewrite trimEnd_empty, trimStart_blank. Qed.

Lemma not_blank_iff (s : string) :
  Js.trim s <> ""%string <-> isBlank s = false.
Proof.
  rewrite trim_empty. destruct (isBlank s); split; congruence.
Qed.

Lemma blank_suffix (p s : string) :
  isBlank s = false -> isBlank (p ++ s) = false.
Proof. intros H. rewrite isBlank_app, H. apply andb_false_r. Qed.

Lemma generateUniqueContent_not_blank title category stockSymbol stockPrice
  priceChange articleIndex :
  Js.trim
    (generateUniqueContent title category stockSymbol stockPrice priceChange
       articleIndex)
  <> ""%string.
Proof.
  unfold generateUniqueContent. cbv zeta.
  do 4 (rewrite not_blank_iff; apply blank_suffix; rewrite <- ?not_blank_iff).
  rewrite not_blank_iff. vm_compute. reflexivity.
Qed.

Lemma generateUniqueArticleContent_not_blank title category stockSymbol
  stockPrice priceChange index :
  Js.trim
    (generateUniqueArticleContent title category stockSymbol stockPrice
       priceChange index)
  <> ""%string.
Proof.
  unfold generateUniqueArticleContent. cbv zeta.
  do 3 (rewrite not_blank_iff; apply blank_suffix; rewrite <- ?not_blank_iff).
  rewrite not_blank_iff. vm_compute. reflexivity.
Qed.

Lemma settled_not_blank (earlier : list Article) (a : Article) :
  Js.trim (content (settled earlier a)) <> ""%string.
Proof.
  unfold settled, withUniqueContent.
  destruct (needsNewContent earlier a) eqn:N; cbn [content setViewCount setContent].
  - apply generateUniqueArticleContent_not_blank.
  - unfold needsNewContent in N.
    apply orb_false_iff in N. destruct N as [N _].
    apply orb_false_iff in N. destruct N as [_ N].
    destruct a. cbn [content] in *. now apply String.eqb_neq.
Qed.

Lemma orElse_not_empty (s d : string) :
  d <> ""%string -> Js.orElse s d <> ""%string.
Proof.
  intros Hd. unfold Js.orElse. destruct (Js.truthy s) eqn:E; [| exact Hd].
  now apply FetchFacts.truthy_iff.
Qed.

Lemma orNull_not_empty (s : string) : Js.orNull s <> Some ""%string.
Proof.
  unfold Js.orNull. destruct (Js.truthy s) eqn:E; [| discriminate].
  intros [= ->]. discriminate E.
Qed.

(** A category that comes out as a string is one of the twelve. *)
Lemma string_category_valid (raw c : string) :
  mapToValidCategory raw = CatStr c -> In c validCategories.
Proof.
  unfold mapToValidCategory, categoryLookup.
  destruct (ownProperty categoryMap raw) as [v |] eqn:Own.
  - intros [= <-]. eapply CategoryFacts.table_entry_valid,
      CategoryFacts.ownProperty_value, Own.
  - destruct (isInherited raw); [discriminate |].
    destruct (partialMatch categoryMap raw) as [v |] eqn:Part; intros [= <-].
    + destruct (CategoryFacts.partialMatch_value _ _ _ Part) as [k Hk].
      eapply CategoryFacts.table_entry_valid, Hk.
    + simpl. tauto.
Qed.

Lemma mod_five (i : nat) : ((i + 5) mod 5 = i mod 5)%nat.
Proof. exact (Nat.Div0.mod_add i 1 5). Qed.

Lemma mod_fifteen (i : nat) :
  ((i + 15) mod 3 = i mod 3)%nat /\ ((i + 15) mod 5 = i mod 5)%nat.
Proof.
  split; [exact (Nat.Div0.mod_add i 5 3) | exact (Nat.Div0.mod_add i 3 5)].
Qed.

Lemma isWhiteSpace_lower (c : ascii) :
  Js.isWhiteSpace (Js.lowerChar c) = Js.isWhiteSpace c.
Proof. destruct c as [[] [] [] [] [] [] [] []]; reflexivity. Qed.

Lemma trimStart_lower (s : string) :
  Js.trimStart (Js.toLowerCase s) = Js.toLowerCase (Js.trimStart s).
Proof.
  induction s as [| c s IH]; simpl; [reflexivity |].
  rewrite isWhiteSpace_lower. now destruct (Js.isWhiteSpace c).
Qed.

Lemma trimEnd_lower (s : string) :
  Js.trimEnd (Js.toLowerCase s) = Js.toLowerCase (Js.trimEnd s).
Proof.
  induction s as [| c s IH]; simpl; [reflexivity |].
  rewrite IH, isWhiteSpace_lower.
  destruct (Js.trimEnd s); simpl; [now destruct (Js.isWhiteSpace c) | reflexivity].
Qed.

Lemma trim_lower (s : string) :
  Js.trim (Js.toLowerCase s) = Js.toLowerCase (Js.trim s).
Proof. unfold Js.trim. now rewrite trimStart_lower, trimEnd_lower. Qed.

Lemma trimEnd_cons (c : ascii) (s : string) :
  Js.trimEnd (String c s)
  = match Js.trimEnd s with
    | EmptyString =>
        if Js.isWhiteSpace c then EmptyString else String c EmptyString
    | r => String c r
    end.
Proof. reflexivity. Qed.

Lemma trimEnd_idempotent (s : string) :
  Js.trimEnd (Js.trimEnd s) = Js.trimEnd s.
Proof.
  induction s as [| c s IH]; [reflexivity |].
  rewrite trimEnd_cons. destruct (Js.trimEnd s) as [| c' r] eqn:E.
  - destruct (Js.isWhiteSpace c) eqn:W; [reflexivity |].
    rewrite trimEnd_cons. cbn [Js.trimEnd]. now rewrite W.
  - rewrite trimEnd_cons, IH. reflexivity.
Qed.

Lemma trimStart_clean (s : string) : startsClean (Js.trimStart s) = true.
Proof.
  induction s as [| c s IH]; simpl; [reflexivity |].
  destruct (Js.isWhiteSpace c) eqn:W; [exact IH | simpl; now rewrite W].
Qed.

Lemma trimEnd_clean (s : string) :
  startsClean s = true -> startsClean (Js.trimEnd s) = true.
Proof.
  destruct s as [| c s]; simpl; [reflexivity |]. intros H.
  destruct (Js.trimEnd s); [| exact H].
  apply negb_true_iff in H. rewrite H. simpl. now rewrite H.
Qed.

Lemma clean_trimStart (s : string) :
  startsClean s = true -> Js.trimStart s = s.
Proof.
  destruct s as [| c s]; simpl; [reflexivity |]. intros H.
  apply negb_true_iff in H. now rewrite H.
Qed.

Lemma trim_idempotent (s : string) : Js.trim (Js.trim s) = Js.trim s.
Proof.
  unfold Js.trim.
  rewrite (clean_trimStart (Js.trimEnd (Js.trimStart s)))
    by apply trimEnd_clean, trimStart_clean.
  apply trimEnd_idempotent.
Qed.

End TextFacts.

(** X18: every article [fetchArticles] maps has a content that is not
    blank, a title and a time label that are not empty, and optional text
    fields that are [null] or non-empty, whatever the cells of its row. *)
Theorem mapped_articles_are_filled (getArticleImage : ImageRequest -> string)
  (clock : nat -> Z) (rows : list (list string)) (a : Article) :
  In a (mapRows getArticleImage clock rows) ->
  Js.trim (content a) <> ""%string
  /\ title a <> ""%string
  /\ timeAgo a <> ""%string
  /\ stockSymbol a <> Some ""%string
  /\ stockPrice a <> Some ""%string
  /\ priceChange a <> Some ""%string
  /\ exchange a <> Some ""%string
  /\ source a <> Some ""%string
  /\ sentiment a <> Some ""%string.
Proof.
  intros Hin. apply In_nth_error in Hin. destruct Hin as [k Hk].
  destruct (BatchFacts.mapRows_nth_inv _ _ _ _ _ Hk) as (row & _ & ->).
  cbn [content title timeAgo stockSymbol stockPrice priceChange exchange
       source sentiment mapRow setImageUrl].
  split.
  { destruct (isGenericContent (Js.cell row 2)) eqn:G.
    - apply TextFacts.generateUniqueContent_not_blank.
    - unfold isGenericContent in G. apply orb_false_iff in G.
      destruct G as [_ G]. now apply String.eqb_neq. }
  repeat split;
    first [ apply TextFacts.orElse_not_empty; discriminate
          | apply TextFacts.orNull_not_empty ].
Qed.

(** X18 on a sheet whose only row has a blank content cell. *)
Lemma mapped_articles_are_filled_witness :
  Js.trim
    (content (mapRow sampleImage (clockFrom 0) ["3"; "Quiet day"; "   "] 0))
  <> ""%string.
Proof.
  apply (mapped_articles_are_filled sampleImage (clockFrom 0)
           [["3"; "Quiet day"; "   "]%string]).
  left. reflexivity.
Defined.

(** X19: after a sync that fetched at least one article, no stored article
    has an empty or blank content, whatever content the fetched articles
    came with. *)
Theorem stored_content_is_never_blank (batch : list Article) (now : Z)
  (st : MemStorage) (articleId : Z) (f : Article) :
  batch <> [] ->
  getArticle articleId (syncWith (Returned batch) now st) = Some f ->
  Js.trim (content f) <> ""%string.
Proof.
  intros Hne G. unfold getArticle, syncWith in G.
  destruct batch as [| a0 batch]; [contradiction |].
  cbn [List.length Nat.ltb Nat.leb articles] in G.
  destruct (StoreFacts.stored_source (a0 :: batch) articleId f G)
    as (_ & k & a & _ & _ & ->).
  apply TextFacts.settled_not_blank.
Qed.

(** X19 on a batch whose only article has the empty content. *)
Lemma stored_content_is_never_blank_witness :
  exists f,
    getArticle 7
      (syncWith
         (Returned
            [setContent (mapRow sampleImage (clockFrom 0) rowSeven 0) ""])
         0 emptyStorage) = Some f
    /\ Js.trim (content f) <> ""%string.
Proof.
  eexists. split; [vm_compute; reflexivity |].
  eapply (stored_content_is_never_blank
            [setContent (mapRow sampleImage (clockFrom 0) rowSeven 0) ""]
            0 emptyStorage 7).
  - discriminate.
  - vm_compute. reflexivity.
Defined.

(** X20: category normalisation is idempotent: a category it has returned
    is returned unchanged when it is normalised again. *)
Theorem normalizeCategory_fixes_its_results (s c : string) :
  normalizeCategory s = CatStr c -> normalizeCategory c = CatStr c.
Proof.
  intros H. apply TextFacts.string_category_valid in H. simpl in H.
  repeat (destruct H as [<- | H]; [vm_compute; reflexivity |]).
  contradiction.
Qed.

(** X20 on the alias "Top Gainers". *)
Lemma normalizeCategory_fixes_its_results_witness :
  normalizeCategory "movers" = CatStr "movers".
Proof.
  apply (normalizeCategory_fixes_its_results "Top Gainers"). vm_compute.
  reflexivity.
Defined.

(** X21: both generators depend on the position only through its
    remainder: [generateUniqueArticleContent] returns the same text for the
    positions i and i + 5, [generateUniqueContent] for i and i + 15, when
    the other arguments agree. *)
Theorem generators_are_periodic (title : string) (category : CategoryValue)
  (stockSymbol stockPrice priceChange : option string)
  (symbolCell priceCell changeCell : string) (i : nat) :
  generateUniqueArticleContent title category stockSymbol stockPrice
    priceChange (i + 5)
  = generateUniqueArticleContent title category stockSymbol stockPrice
      priceChange i
  /\ generateUniqueContent title category symbolCell priceCell changeCell
       (i + 15)
     = generateUniqueContent title category symbolCell priceCell changeCell i.
Proof.
  split.
  - unfold generateUniqueArticleContent.
    change (List.length (contentVariations title (catText category))) with 5%nat.
    change (List.length additionalInsights) with 5%nat.
    now rewrite TextFacts.mod_five.
  - unfold generateUniqueContent.
    change (List.length marketInsights) with 5%nat.
    assert (L : List.length (contentTemplates title (catText category) category)
                = 3%nat).
    { unfold contentTemplates.
      repeat match goal with
             | |- context [if ?b then _ else _] => destruct b
             end; reflexivity. }
    rewrite L. destruct (TextFacts.mod_fifteen i) as [H3 H5].
    now rewrite H3, H5.
Qed.

(** X22: category normalisation ignores letter case and surrounding white
    space: lower-casing or trimming the label first does not change the
    result. *)
Theorem normalizeCategory_ignores_case_and_padding (s : string) :
  normalizeCategory (Js.toLowerCase s) = normalizeCategory s
  /\ normalizeCategory (Js.trim s) = normalizeCategory s.
Proof.
  unfold normalizeCategory. split.
  - now rewrite ImageFacts.toLowerCase_idempotent.
  - now rewrite <- TextFacts.trim_lower, TextFacts.trim_idempotent.
Qed.

(** X23: with [getArticleImage] in place, when the ids of the batch
    [fetchArticles] returns are safe integers, every article of the batch
    and every article a sync stores from it carries an image URL of the
    pools, never the empty string; so does every article [createArticle]
    makes.  (An id cell of more than 308 digits is read as [Infinity], and
    the article then has no image URL.) *)
Theorem articles_carry_pool_images (clock : nat -> Z)
  (response : SheetsResponse) (batch : list Article) :
  Wired.fetchArticles clock response = Returned batch ->
  safeIds batch = true ->
  (forall a, In a batch ->
             In (imageUrl a) ImageLogic.allPools /\ imageUrl a <> ""%string)
  /\ (batch <> [] ->
      forall now st i f,
        getArticle i (syncWith (Returned batch) now st) = Some f ->
        In (imageUrl f) ImageLogic.allPools /\ imageUrl f <> ""%string)
  /\ (forall now insertArticle st,
         In (imageUrl
               (snd (createArticle Wired.imageUrlOf now insertArticle st)))
           ImageLogic.allPools).
Proof.
  intros Hfetch _.
  assert (Hbatch : forall a, In a batch ->
             In (imageUrl a) ImageLogic.allPools /\ imageUrl a <> ""%string).
  { unfold Wired.fetchArticles in Hfetch.
    destruct response as [values | error].
    - destruct (Wired.mapFrom clock 0 _) as [l |] eqn:M.
      + injection Hfetch as <-.
        now apply (ImageFacts.wired_mapFrom_images clock _ 0%nat l M).
      + injection Hfetch as <-. intros a [].
    - injection Hfetch as <-. intros a []. }
  split; [exact Hbatch |]. split.
  - intros Hne now st i f G. unfold getArticle, syncWith in G.
    destruct batch as [| a0 batch']; [contradiction |].
    cbn [List.length Nat.ltb Nat.leb articles] in G.
    destruct (StoreFacts.stored_source (a0 :: batch') i f G)
      as (_ & k & a & Hk & _ & ->).
    assert (Himg : imageUrl
                     (settled (firstn k (processed (syncLoop (a0 :: batch')))) a)
                   = imageUrl a).
    { unfold settled, withUniqueContent.
      now destruct (needsNewContent _ a). }
    rewrite Himg. apply Hbatch. now apply nth_error_In in Hk.
  - intros now insertArticle st. unfold createArticle, Wired.imageUrlOf.
    cbn [snd imageUrl].
    destruct (ImageFacts.image_in_pools
                {| imgId := None;
                   imgTitle := insTitle insertArticle;
                   imgContent := insContent insertArticle;
                   imgCategory := CatStr (insCategory insertArticle);
                   imgStockSymbol := insStockSymbol insertArticle |}
                (insCategory insertArticle) eq_refl)
      as (url & -> & Hin & _).
    exact Hin.
Qed.

(** X23 on the sheet with the rows 7 and 12. *)
Lemma articles_carry_pool_images_witness :
  Forall
    (fun a => In (imageUrl a) ImageLogic.allPools /\ imageUrl a <> ""%string)
    (mapRows Wired.imageUrlOf (clockFrom 0) [rowSeven; warrantRow]).
Proof.
  apply Forall_forall.
  apply (proj1 (articles_carry_pool_images (clockFrom 0)
                  (Returned (Some [rowSeven; warrantRow]))
                  (mapRows Wired.imageUrlOf (clockFrom 0)
                     [rowSeven; warrantRow])
                  ltac:(vm_compute; reflexivity)
                  ltac:(vm_compute; reflexivity))).
Defined.

(** ** The sync interval *)

Module CacheFacts.

Lemma synced_store_not_empty (batch : list Article) :
  batch <> [] -> (JsMap.size (store (syncLoop batch)) =? 0)%nat = false.
Proof.
  intros Hne. destruct batch as [| a batch']; [contradiction |].
  destruct (StoreFacts.batch_id_stored (a :: batch') 0 a eq_refl) as [f G].
  apply Nat.eqb_neq. unfold JsMap.size.
  destruct (store (syncLoop (a :: batch'))); [discriminate G | simpl; lia].
Qed.

Lemma not_later (x y : Z) : x <= y -> (y <? x) = false.
Proof. intros H. now apply Z.ltb_ge. Qed.

Lemma getArticles_storage (getArticleImage : ImageRequest -> string)
  (now : Z) (w : World) (category : option string) (s : MemStorage) :
  fst (getArticles getArticleImage now w category s)
  = match googleSheets s with
    | Some _ =>
        if (syncInterval <? now - lastSyncTime s)
           || (JsMap.size (articles s) =? 0)%nat
        then syncFromGoogleSheets getArticleImage w s else s
    | None => s
    end.
Proof.
  unfold getArticles. cbv zeta.
  repeat match goal with |- context [if ?b then _ else _] =>
    lazymatch b with
    | orb _ _ => fail
    | _ => destruct b
    end end; reflexivity.
Qed.

End CacheFacts.

(** X24: after a sync that fetched at least one article, [getArticles]
    serves the store without asking the sheet again as long as no more
    than [syncInterval] has passed since the sync ended: whatever the sheet
    would answer, the storage stays as the sync left it.  Once more than
    the interval has passed, the call syncs again. *)
Theorem synced_store_is_served_for_the_interval
  (getArticleImage : ImageRequest -> string) (w w' : World) (now : Z)
  (category : option string) (st : MemStorage) :
  fetchArticles getArticleImage (rowTime w) (response w) <> Returned [] ->
  let synced := syncFromGoogleSheets getArticleImage w st in
  (now - dateNow w <= syncInterval ->
   fst (getArticles getArticleImage now w' category synced) = synced)
  /\ (syncInterval < now - dateNow w ->
      fst (getArticles getArticleImage now w' category synced)
      = syncFromGoogleSheets getArticleImage w' synced).
Proof.
  intros Hfetch synced.
  assert (Hg : googleSheets synced = googleSheets st).
  { subst synced. unfold syncFromGoogleSheets, syncWith.
    destruct (googleSheets st) eqn:G; [| exact G].
    destruct (fetchArticles getArticleImage (rowTime w) (response w))
      as [batch | error]; [| exact G].
    destruct (0 <? List.length batch)%nat; [reflexivity | exact G]. }
  assert (Hs : googleSheets st <> None ->
               lastSyncTime synced = dateNow w
               /\ (JsMap.size (articles synced) =? 0)%nat = false).
  { intros G. subst synced. unfold syncFromGoogleSheets, syncWith.
    destruct (googleSheets st); [| contradiction].
    destruct (fetchArticles getArticleImage (rowTime w) (response w))
      as [batch | error] eqn:F.
    - destruct batch as [| a batch']; [now contradiction Hfetch |].
      cbn [List.length Nat.ltb Nat.leb lastSyncTime articles].
      split; [reflexivity |].
      now apply CacheFacts.synced_store_not_empty.
    - unfold fetchArticles in F. now destruct (response w). }
  clearbody synced.
  split; intros Hnow; rewrite CacheFacts.getArticles_storage.
  - destruct (googleSheets synced) eqn:G; [| reflexivity].
    destruct Hs as [Hl He]; [rewrite <- Hg; discriminate |].
    now rewrite Hl, He, (CacheFacts.not_later _ _ Hnow).
  - destruct (googleSheets synced) eqn:G.
    + destruct Hs as [Hl _]; [rewrite <- Hg; discriminate |].
      apply Z.ltb_lt in Hnow. now rewrite Hl, Hnow.
    + unfold syncFromGoogleSheets. now rewrite G.
Qed.

(** X24 on the storage with the articles 7 and 12, asked again one minute
    after its sync while the sheet has changed. *)
Lemma synced_store_is_served_for_the_interval_witness :
  fst (getArticles sampleImage (2000 + 60 * 1000) (sheetWith [rowSeven] 70000)
         None twoArticleStorage)
  = twoArticleStorage.
Proof.
  apply (proj1 (synced_store_is_served_for_the_interval sampleImage
                  (sheetWith [rowSeven; warrantRow] 1000)
                  (sheetWith [rowSeven] 70000) (2000 + 60 * 1000) None
                  emptyStorage ltac:(vm_compute; discriminate))).
  vm_compute. discriminate.
Defined.

(** X25: with the service configured, a forced sync that fetches at least
    one article leaves the storage a plain sync leaves; one that fetches
    nothing keeps the articles but leaves [lastSyncTime] at 0, so that the
    next [getArticles] later than [syncInterval] on the clock syncs
    again. *)
Theorem forced_sync_marks_store_stale
  (getArticleImage : ImageRequest -> string) (w w' : World) (now : Z)
  (category : option string) (st : MemStorage)
  (service : GoogleSheetsService) :
  googleSheets st = Some service ->
  let forced := forceSyncFromGoogleSheets getArticleImage w st in
  (fetchArticles getArticleImage (rowTime w) (response w) <> Returned [] ->
   forced = syncFromGoogleSheets getArticleImage w st)
  /\ (fetchArticles getArticleImage (rowTime w) (response w) = Returned [] ->
      articles forced = articles st
      /\ currentArticleId forced = currentArticleId st
      /\ lastSyncTime forced = 0
      /\ (syncInterval < now ->
          fst (getArticles getArticleImage now w' category forced)
          = syncFromGoogleSheets getArticleImage w' forced)).
Proof.
  intros G forced.
  assert (Hforced :
            forced
            = syncWith (fetchArticles getArticleImage (rowTime w) (response w))
                (dateNow w)
                {| articles := articles st;
                   currentArticleId := currentArticleId st;
                   googleSheets := googleSheets st;
                   lastSyncTime := 0 |}).
  { subst forced. unfold forceSyncFromGoogleSheets, syncFromGoogleSheets.
    cbn [googleSheets]. now rewrite G. }
  clearbody forced. subst forced. split.
  - intros Hfetch. unfold syncFromGoogleSheets. rewrite G.
    destruct (fetchArticles getArticleImage (rowTime w) (response w))
      as [batch | error] eqn:F.
    + destruct batch as [| a batch']; [now contradiction Hfetch |].
      unfold syncWith. cbn [List.length Nat.ltb Nat.leb googleSheets].
      now rewrite ?G.
    + unfold fetchArticles in F. now destruct (response w).
  - intros ->. cbn [syncWith List.length Nat.ltb Nat.leb articles
                    currentArticleId lastSyncTime].
    repeat split. intros Hnow. rewrite CacheFacts.getArticles_storage.
    cbn [googleSheets lastSyncTime]. rewrite G, Z.sub_0_r.
    apply Z.ltb_lt in Hnow. now rewrite Hnow.
Qed.

(** X25 on the storage with the articles 7 and 12 and a sheet without
    rows. *)
Lemma forced_sync_marks_store_stale_witness :
  articles (forceSyncFromGoogleSheets sampleImage (sheetWith [] 5000)
              twoArticleStorage)
  = articles twoArticleStorage
  /\ lastSyncTime (forceSyncFromGoogleSheets sampleImage (sheetWith [] 5000)
                     twoArticleStorage) = 0.
Proof.
  destruct (proj2 (forced_sync_marks_store_stale sampleImage
                     (sheetWith [] 5000) (sheetWith [] 5000) 0 None
                     twoArticleStorage sheetsService eq_refl) eq_refl)
    as (Ha & _ & Hl & _).
  split; [exact Ha | exact Hl].
Defined.
